(** * MGC: independence tests for paired samples and time series

    A shallow embedding of the independence tests of [mgcpy]:
    - [hhg.py]: the rank-concordance statistic [HHG.test_statistic];
    - [ts_abstract_class.py]: the lag-aggregating wrapper
      [TimeSeriesIndependenceTest] with its block-bootstrap and its fast
      subsampling p-values;
    - [mgs_ts.py]: the lag statistic [MGC_TS] and its p-value.

    Numbers.  numpy's float64 values are idealised as exact rationals [Q];
    numpy's and Python's integers are [Z] (or [nat] where the code only ever
    holds a size or an index), without the wrap-around of numpy's int64:
    the counts of [hhg.py] and what is computed from them stay within 64
    bits for up to 4096 samples ([hhg_integers_fit]).  Equalities between
    computed statistics are stated up to [Qeq] (written [==]).

    Errors.  A Python exception is an outcome [Raise e] of the [result]
    monad; whatever would have been evaluated afterwards is not.  The base
    tests and the distance function, which are objects handed to the
    classes, may raise as well.

    Library functions.  [math.sqrt] on floats and [scipy.stats.chi2.cdf]
    are parameters of the development ([sqrt_f], [chi2_cdf]); the integer
    parts [int(ceil(sqrt n))] and [int(floor(sqrt n))] are the integer
    square roots.  The random generator is an entropy tape [nat -> nat]
    from which [np.random.choice] and [np.random.permutation] read. *)

From stdpp Require Import gmap strings list fin_maps.
From Stdlib Require Import QArith Qminmax Qabs Lqa Permutation.

Close Scope Q_scope.


(** ** Python exceptions and the [result] monad *)

Inductive exn : Type :=
  | AssertionError
  | ValueError (msg : string)
  | IndexError
  | KeyError (key : string)
  | UnboundLocalError (name : string)
  | ZeroDivisionError
  | FloatingPointNaN.
  (* [FloatingPointNaN] is not a Python exception: it marks the one place
     (an exact p-value over zero replicates) where numpy yields [nan], for
     which the rational model has no value. *)

Inductive result (A : Type) : Type :=
  | Ok (a : A)
  | Raise (e : exn).
Arguments Ok {A} a.
Arguments Raise {A} e.

#[global] Instance result_ret : MRet result := fun A a => Ok a.
#[global] Instance result_bind : MBind result := fun A B f m =>
  match m with
  | Ok a => f a
  | Raise e => Raise e
  end.
#[global] Instance result_fmap : FMap result := fun A B f m =>
  match m with
  | Ok a => Ok (f a)
  | Raise e => Raise e
  end.

Definition is_Ok {A} (r : result A) : Prop := exists a, r = Ok a.

(** [for x in l: s = f s x], stopping at the first exception. *)
Fixpoint foldM {A S : Type} (f : S -> A -> result S) (l : list A) (s : S) : result S :=
  match l with
  | [] => Ok s
  | x :: l' => s' ← f s x; foldM f l' s'
  end.

(** ** numpy arrays *)

Module Np.

(** A 2-D float array, as the list of its rows.  Arrays of numpy are
    rectangular; [rect] says so. *)
Abbreviation matrix := (list (list Q)).

(** What the entry points accept: a 1-D or a 2-D array. *)
Inductive ndarray : Type :=
  | Arr1 (v : list Q)
  | Arr2 (m : matrix).

(** Values stored in the metadata dictionaries. *)
Inductive pyval : Type :=
  | PNone
  | PInt (z : Z)
  | PFloat (q : Q)
  | PArr (a : list Q)
  | PMat (m : matrix).

Abbreviation pydict := (gmap string pyval).

Definition rect (r c : nat) (m : matrix) : Prop :=
  length m = r /\ Forall (fun row => length row = c) m.

(** [a.shape[0]] *)
Definition shape0 (a : ndarray) : nat :=
  match a with
  | Arr1 v => length v
  | Arr2 m => length m
  end.

(** [m.shape[0]] and [m.shape[1]] of a 2-D array (an array without rows
    is taken to have no columns). *)
Definition nrows (m : matrix) : nat := length m.
Definition ncols (m : matrix) : nat :=
  match m with
  | [] => 0
  | row :: _ => length row
  end.

(** [a.reshape((n, 1))] for a 1-D array; a 2-D array is left alone. *)
Definition as_column (a : ndarray) : matrix :=
  match a with
  | Arr1 v => map (fun x => [x]) v
  | Arr2 m => m
  end.

Definition Qlt_bool (a b : Q) : bool := negb (Qle_bool b a).

(** [np.sum] of a 1-D and of a 2-D array, [np.mean]. *)
Definition sum (l : list Q) : Q := foldr Qplus 0%Q l.
Definition sum2 (m : matrix) : Q := sum (map sum m).
Definition mean (l : list Q) : Q := (sum l / inject_Z (Z.of_nat (length l)))%Q.

(** [np.sum] of an integer array. *)
Definition sumZ (l : list Z) : Z := foldr Z.add 0%Z l.

(** [m.diagonal()] *)
Definition diagonal (m : matrix) : list Q :=
  omap (fun '(i, row) => row !! i) (zip (seq 0 (length m)) m).

(** [np.zeros(k)] and [np.zeros((r, c))] *)
Definition zeros (k : nat) : list Q := replicate k 0%Q.
Definition zeros2 (r c : nat) : matrix := replicate r (zeros c).

(** [a[i]], [a[i] = v] on a 1-D array with a non-negative index, and
    [m[i, :]], [m[i, j] = v] on a 2-D one: out of range is an
    [IndexError]. *)
Definition getitem {A} (l : list A) (i : nat) : result A :=
  match l !! i with
  | Some x => Ok x
  | None => Raise IndexError
  end.

Definition setitem {A} (l : list A) (i : nat) (v : A) : result (list A) :=
  if decide (i < length l) then Ok (<[i := v]> l) else Raise IndexError.

Definition setitem2 (m : matrix) (i j : nat) (v : Q) : result matrix :=
  row ← getitem m i;
  row' ← setitem row j v;
  setitem m i row'.

(** Python's slice [l[start:stop]]: a negative bound counts from the end,
    and both are clipped to the length. *)
Definition slice_bound (len i : Z) : Z :=
  if (i <? 0)%Z then Z.max 0 (i + len) else Z.min i len.

Definition slice {A} (start stop : Z) (l : list A) : list A :=
  let len := Z.of_nat (length l) in
  let s := slice_bound len start in
  let e := slice_bound len stop in
  take (Z.to_nat (e - s)) (drop (Z.to_nat s) l).

(** [m[a:b, a:b]] *)
Definition slice2 (a b : Z) (m : matrix) : matrix :=
  map (slice a b) (slice a b m).

(** [m[np.ix_(idx, idx)]] (and [m[idx, :][:, idx]], which is the same
    array): entry [(a, b)] is [m[idx[a], idx[b]]]. *)
Definition ix_ (idx : list nat) (m : matrix) : result matrix :=
  rows ← mapM (getitem m) idx;
  mapM (fun row => mapM (getitem row) idx) rows.

(** [np.arange(a, a + k)] *)
Definition arange (a k : nat) : list nat := seq a k.

(** [np.random.choice(n, k)]: [k] values of [range(n)], drawn with
    replacement; numpy refuses an empty population. *)
Definition random_choice (tape : nat -> nat) (n k : nat) : result (list nat) :=
  if decide (n = 0) then Raise (ValueError "a must be greater than 0")
  else Ok (map (fun i => tape i mod n) (seq 0 k)).

(** [np.random.permutation(k)]: a shuffle of [range(k)]; the value [i]
    is put at a position the tape chooses among the [i + 1] possible. *)
Fixpoint random_permutation (tape : nat -> nat) (k : nat) : list nat :=
  match k with
  | 0 => []
  | S i =>
      let p := random_permutation tape i in
      let pos := tape i mod (S i) in
      take pos p ++ i :: drop pos p
  end.

(** [a * b] on integer arrays, with numpy's broadcasting of an array of
    length one. *)
Definition mul (a b : list Z) : result (list Z) :=
  if decide (length a = length b) then Ok (zip_with Z.mul a b)
  else match a, b with
       | [x], _ => Ok (map (Z.mul x) b)
       | _, [y] => Ok (map (fun x => (x * y)%Z) a)
       | _, _ => Raise (ValueError "operands could not be broadcast together")
       end.

(** [1 - a] on an integer (or boolean) array. *)
Definition one_minus (a : list Z) : list Z := map (fun x => (1 - x)%Z) a.

(** [int(np.ceil(np.sqrt(n)))] and [int(np.floor(np.sqrt(n)))] *)
Definition ceil_sqrt (n : nat) : nat := Nat.sqrt_up n.
Definition floor_sqrt (n : nat) : nat := Nat.sqrt n.

End Np.
Import Np.

(** ** [utils/compute_distance_matrix.py] *)

(** The test both [hhg.py] (lines 50 and 52) and the distance transform
    apply to tell raw observations from a distance matrix:
    [m.shape[0] != m.shape[1] or sum(m.diagonal()**2) > 0]. *)
Definition is_raw (m : matrix) : bool :=
  negb (nrows m =? ncols m)%nat
  || Qlt_bool 0 (Np.sum (map (fun d => (d ^ 2)%Q) (diagonal m))).

(** Modelled from the spec: [compute_distance] of
    [mgcpy/independence_tests/utils/compute_distance_matrix.py], which is
    not among the sources.  Section 4.1: a matrix that is square with a
    zero diagonal passes through unchanged; anything else is raw
    observations, to which the configured distance function is applied.
    The two inputs are transformed independently, X first.  (That the
    sample counts agree is asserted by the callers beforehand.) *)
Definition compute_distance (matrix_X matrix_Y : matrix)
    (compute_distance_matrix : matrix -> result matrix) : result (matrix * matrix) :=
  matrix_X ← (if is_raw matrix_X then compute_distance_matrix matrix_X else Ok matrix_X);
  matrix_Y ← (if is_raw matrix_Y then compute_distance_matrix matrix_Y else Ok matrix_Y);
  Ok (matrix_X, matrix_Y).

(** ** [hhg.py] *)

Module HHG.

(** The attribute [IndependenceTest.__init__] sets: the distance function. *)
Record t : Type := { compute_distance_matrix : matrix -> result matrix }.

(** Reading a local variable that no branch has assigned. *)
Definition local (name : string) (v : option matrix) : result matrix :=
  match v with
  | Some m => Ok m
  | None => Raise (UnboundLocalError name)
  end.

(** Lines 60 to 70: the body of the two loops, for one pair [(i, j)]. *)
Definition body (dist_mtx_X dist_mtx_Y : option matrix) (n i : nat)
    (S : matrix) (j : nat) : result matrix :=
  if decide (i ≠ j) then
    dX ← local "dist_mtx_X" dist_mtx_X;
    rowX ← getitem dX i;
    xij ← getitem rowX j;
    let tmp1 := map (fun x => Z.b2z (Qle_bool x xij)) rowX in
    dY ← local "dist_mtx_Y" dist_mtx_Y;
    rowY ← getitem dY i;
    yij ← getitem rowY j;
    let tmp2 := map (fun y => Z.b2z (Qle_bool y yij)) rowY in
    p11 ← mul tmp1 tmp2;
    let t11 := (sumZ p11 - 2)%Z in
    p12 ← mul tmp1 (one_minus tmp2);
    let t12 := sumZ p12 in
    p21 ← mul (one_minus tmp1) tmp2;
    let t21 := sumZ p21 in
    p22 ← mul (one_minus tmp1) (one_minus tmp2);
    let t22 := sumZ p22 in
    let denom := ((t11 + t12) * (t21 + t22) * (t11 + t21) * (t12 + t22))%Z in
    if (0 <? denom)%Z then
      setitem2 S i j
        (inject_Z ((Z.of_nat n - 2) * (t12 * t21 - t11 * t22) ^ 2) / inject_Z denom)%Q
    else Ok S
  else Ok S.

(** Lines 55 to 77, on the two locals as the branches above left them. *)
Definition statistic (dist_mtx_X dist_mtx_Y : option matrix) : result (Q * pydict) :=
  dX ← local "dist_mtx_X" dist_mtx_X;
  let n := nrows dX in
  S ← foldM (fun S i => foldM (body dist_mtx_X dist_mtx_Y n i) (seq 0 n) S)
            (seq 0 n) (zeros2 n n);
  let corr := sum2 S in
  Ok (corr, ∅).

Definition test_statistic (self : t) (matrix_X matrix_Y : matrix) : result (Q * pydict) :=
  dist_mtx_X ← (if is_raw matrix_X
                then Some <$> compute_distance_matrix self matrix_X
                else Ok None);
  dist_mtx_Y ← (if is_raw matrix_Y
                then Some <$> compute_distance_matrix self matrix_Y
                else Ok None);
  statistic dist_mtx_X dist_mtx_Y.

End HHG.

(** ** [ts_abstract_class.py] *)

(** [d[key]] on a metadata dictionary. *)
Definition getkey (d : pydict) (key : string) : result pyval :=
  match d !! key with
  | Some v => Ok v
  | None => Raise (KeyError key)
  end.

(** [np.r_[[np.arange(t, t + block_size) for t in offsets]].flatten()[:n]]:
    the runs of [block_size] consecutive indices, one per offset and one
    after the other, cut after [n] entries. *)
Definition block_runs (offsets : list nat) (block_size n : nat) : list nat :=
  take n (concat (map (fun t => arange t block_size) offsets)).

(** [np.std]: the root of the mean squared deviation from the mean. *)
Definition std (sqrt_f : Q -> Q) (l : list Q) : Q :=
  sqrt_f (mean (map (fun x => ((x - mean l) ^ 2)%Q) l)).

Module TS.

(** The attributes [__init__] fixes.  [test_obj] stands for
    [test.test_statistic]; [max_lag] is an integer (with [None] the
    comparison of line 88 is a [TypeError], whatever the data).  The
    attributes [test_statistic_], [p_value_] and their metadata are only
    ever written, never read back, and are left out. *)
Record t : Type := {
  test_obj : matrix -> matrix -> result (Q * pydict);
  which_test : string;
  compute_distance_matrix : matrix -> result matrix;
  max_lag : Z
}.

Definition _validate_input (self : t) (matrix_X matrix_Y : ndarray)
    (block_size : option nat) (M : Z) : result (matrix * matrix * nat * Z * nat) :=
  if decide (shape0 matrix_X = shape0 matrix_Y) then
    let n := shape0 matrix_X in
    if (M >=? Z.of_nat n - 4)%Z then
      Raise (ValueError "max_lag must be less than n - 4.")
    else
      let matrix_X := as_column matrix_X in
      let matrix_Y := as_column matrix_Y in
      '(matrix_X, matrix_Y) ←
        compute_distance matrix_X matrix_Y (compute_distance_matrix self);
      let block_size :=
        match block_size with
        | None => ceil_sqrt n
        | Some b => b
        end in
      let M := max_lag self in
      Ok (matrix_X, matrix_Y, block_size, M, n)
  else Raise AssertionError.

Definition is_mgcx (self : t) : bool := String.eqb (which_test self) "mgcx".

(** Lines 141 to 147: one turn of the loop over the lags [j]. *)
Definition lag_step (self : t) (matrix_X matrix_Y : matrix) (n : nat)
    (st : list Q * nat * pyval) (j : nat) : result (list Q * nat * pyval) :=
  let '(dependence_by_lag, optimal_lag, optimal_scale) := st in
  let dist_mtx_X := slice2 (Z.of_nat j) (Z.of_nat n) matrix_X in
  let dist_mtx_Y := slice2 0 (Z.of_nat n - Z.of_nat j) matrix_Y in
  '(statistic, metadata) ← test_obj self dist_mtx_X dist_mtx_Y;
  dependence_by_lag ←
    setitem dependence_by_lag j
      (inject_Z (Z.of_nat n - Z.of_nat j) * Qmax 0 statistic / inject_Z (Z.of_nat n))%Q;
  cur ← getitem dependence_by_lag j;
  best ← getitem dependence_by_lag optimal_lag;
  if Qlt_bool best cur then
    optimal_scale ← (if is_mgcx self then getkey metadata "optimal_scale"
                     else Ok optimal_scale);
    Ok (dependence_by_lag, j, optimal_scale)
  else Ok (dependence_by_lag, optimal_lag, optimal_scale).

Definition test_statistic (self : t) (matrix_X matrix_Y : ndarray) : result (Q * pydict) :=
  '(matrix_X, matrix_Y, block_size, M, n) ←
    _validate_input self matrix_X matrix_Y None (max_lag self);
  dependence_by_lag ←
    (if (M + 1 <? 0)%Z then Raise (ValueError "negative dimensions are not allowed")
     else Ok (zeros (Z.to_nat (M + 1))));
  let optimal_scale := PNone in
  let optimal_lag := 0 in
  '(statistic, metadata) ← test_obj self matrix_X matrix_Y;
  optimal_scale ← (if is_mgcx self then getkey metadata "optimal_scale"
                   else Ok optimal_scale);
  dependence_by_lag ← setitem dependence_by_lag 0 (Qmax 0 statistic);
  '(dependence_by_lag, optimal_lag, optimal_scale) ←
    foldM (lag_step self matrix_X matrix_Y n) (seq 1 (Z.to_nat M))
          (dependence_by_lag, optimal_lag, optimal_scale);
  let test_statistic_metadata : pydict :=
    <["dependence_by_lag" := PArr dependence_by_lag]>
      (<["optimal_lag" := PInt (Z.of_nat optimal_lag)]> ∅) in
  let test_statistic_metadata :=
    if is_mgcx self then <["optimal_scale" := optimal_scale]> test_statistic_metadata
    else test_statistic_metadata in
  Ok (Np.sum dependence_by_lag, test_statistic_metadata).

(** Lines 200 to 202 (and 268 to 270): one block-bootstrap resample of Y. *)
Definition permuted_indices (tape : nat -> nat) (block_size n : nat) : result (list nat) :=
  if decide (block_size = 0) then Raise ZeroDivisionError
  else
    offsets ← random_choice tape n (n / block_size + 1);
    Ok (map (fun i => i mod n) (block_runs offsets block_size n)).

Definition permute (tape : nat -> nat) (matrix_Y : matrix) (block_size n : nat) : result matrix :=
  idx ← permuted_indices tape block_size n;
  ix_ idx matrix_Y.

(** Lines 199 to 206: the replicate a worker computes. *)
Definition worker (self : t) (matrix_X matrix_Y : matrix) (block_size n : nat)
    (tape : nat -> nat) : result Q :=
  permuted_Y ← permute tape matrix_Y block_size n;
  '(ret, _) ← test_statistic self (Arr2 matrix_X) (Arr2 permuted_Y);
  Ok ret.

(** Lines 210 to 212. *)
Definition exact_p_value (test_stats_null : list Q) (test_statistic : Q)
    (replication_factor : nat) : Q :=
  let greater := filter (fun s => Qlt_bool test_statistic s = true) test_stats_null in
  let p := (inject_Z (Z.of_nat (length greater)) / inject_Z (Z.of_nat replication_factor))%Q in
  if Qeq_bool p 0 then (1 / inject_Z (Z.of_nat replication_factor))%Q else p.

Section Fast.

Context (sqrt_f : Q -> Q) (chi2_cdf : Q -> Z -> Q).

(** Lines 257 to 263: the subsample size in force and the number of
    subsamples.  A size replaced on line 258 is a numpy integer, by which
    dividing never raises; a size kept is the caller's Python integer. *)
Definition effective_subsample_size (self : t) (n : nat) (subsample_size : Z) : Z :=
  if (subsample_size <? max_lag self + 10)%Z
  then Z.max (max_lag self + 10) (Z.of_nat (floor_sqrt n))
  else subsample_size.

Definition num_subsamples (self : t) (n : nat) (subsample_size : Z) : result Z :=
  let size := effective_subsample_size self n subsample_size in
  if (subsample_size <? max_lag self + 10)%Z then Ok (Z.of_nat n / size)%Z
  else if (size =? 0)%Z then Raise ZeroDivisionError
  else Ok (Z.of_nat n / size)%Z.

(** Lines 282 to 287. *)
Definition standardized (test_stats_null : list Q) (num_samples : Z) (test_statistic : Q) : Q :=
  let mu := mean test_stats_null in
  let sigma := std sqrt_f test_stats_null in
  if Qlt_bool sigma 10e-4%Q then 0%Q
  else (inject_Z num_samples * (test_statistic - mu) / sigma + 1)%Q.

(** Lines 273 to 277: the statistic of the [i]-th subsample. *)
Definition fast_worker (self : t) (matrix_X permuted_Y : matrix) (subsample_size : Z)
    (i : nat) : result Q :=
  let indices := arange (Z.to_nat subsample_size * i) (Z.to_nat subsample_size) in
  sub_matrix_X ← ix_ indices matrix_X;
  sub_matrix_Y ← ix_ indices permuted_Y;
  '(ret, _) ← test_statistic self (Arr2 sub_matrix_X) (Arr2 sub_matrix_Y);
  Ok ret.

Definition _fast_p_value (self : t) (matrix_X matrix_Y : matrix) (test_statistic : Q)
    (block_size : nat) (subsample_size : Z) (tape : nat -> nat) : result (Q * pydict) :=
  let n := nrows matrix_X in
  num_samples ← num_subsamples self n subsample_size;
  let subsample_size := effective_subsample_size self n subsample_size in
  if (num_samples <? 4)%Z then
    Raise (ValueError "n must be at least 4*(max_lag + max(sqrt(n), 10)) to use fast implementation.")
  else
    permuted_Y ← permute tape matrix_Y block_size n;
    test_stats_null ←
      mapM (fast_worker self matrix_X permuted_Y subsample_size)
           (seq 0 (Z.to_nat num_samples));
    let x := standardized test_stats_null num_samples test_statistic in
    Ok ((1 - chi2_cdf x 1)%Q, {["null_distribution" := PArr test_stats_null]}).

(** [rng rep] is the entropy the resampling number [rep] reads: the
    replicates are independent of each other, each worker drawing from a
    generator state of its own, and come back in the order of
    [range(replication_factor)]. *)
Definition p_value (self : t) (matrix_X matrix_Y : ndarray) (replication_factor : nat)
    (is_fast : bool) (block_size : option nat) (subsample_size : Z)
    (rng : nat -> nat -> nat) : result (Q * pydict) :=
  '(matrix_X, matrix_Y, block_size, _, n) ←
    _validate_input self matrix_X matrix_Y block_size (max_lag self);
  '(test_statistic, _) ← test_statistic self (Arr2 matrix_X) (Arr2 matrix_Y);
  if is_fast then
    _fast_p_value self matrix_X matrix_Y test_statistic block_size subsample_size (rng 0)
  else
    test_stats_null ←
      mapM (fun rep => worker self matrix_X matrix_Y block_size n (rng rep))
           (seq 0 replication_factor);
    if decide (replication_factor = 0) then Raise FloatingPointNaN
    else
      Ok (exact_p_value test_stats_null test_statistic replication_factor,
          {["null_distribution" := PArr test_stats_null]}).

End Fast.

End TS.

(** ** [mgs_ts.py] *)

Module MGC_TS.

(** The attributes [__init__] fixes; [mgc_object] stands for
    [MGC().test_statistic], whose class is not among the sources. *)
Record t : Type := {
  compute_distance_matrix : matrix -> result matrix;
  base_global_correlation : string;
  max_lag : option Z;
  mgc_object : matrix -> matrix -> result (Q * pydict)
}.

Section Statistic.

Context (sqrt_f : Q -> Q).

(** [(1 - j/(p*(M+1)))**2], a float division. *)
Definition weight (p : Q) (M : Z) (j : nat) : result Q :=
  let d := (p * inject_Z (M + 1))%Q in
  if Qeq_bool d 0 then Raise ZeroDivisionError
  else Ok ((1 - inject_Z (Z.of_nat j) / d) ^ 2)%Q.

(** Lines 107 to 115: one turn of the loop over the lags [j]. *)
Definition lag_step (self : t) (matrix_X matrix_Y : matrix) (n : nat) (p : Q) (M : Z)
    (test_statistic : Q) (j : nat) : result Q :=
  let mgc := mgc_object self in
  let dist_mtx_X := slice2 (Z.of_nat j) (Z.of_nat n) matrix_X in
  let dist_mtx_Y := slice2 0 (Z.of_nat n - Z.of_nat j) matrix_Y in
  '(mgc_statistic, _) ← mgc dist_mtx_X dist_mtx_Y;
  w ← weight p M j;
  let test_statistic :=
    (test_statistic + w * mgc_statistic * inject_Z (Z.of_nat n - Z.of_nat j))%Q in
  let dist_mtx_X := slice2 0 (Z.of_nat n - Z.of_nat j) matrix_X in
  let dist_mtx_Y := slice2 (Z.of_nat j) (Z.of_nat n) matrix_Y in
  '(mgc_statistic, _) ← mgc dist_mtx_X dist_mtx_Y;
  w ← weight p M j;
  Ok (test_statistic + w * mgc_statistic * inject_Z (Z.of_nat n - Z.of_nat j))%Q.

Definition test_statistic (self : t) (matrix_X matrix_Y : ndarray) : result (Q * pydict) :=
  if decide (shape0 matrix_X = shape0 matrix_Y) then
    let n := shape0 matrix_X in
    let matrix_X := as_column matrix_X in
    let matrix_Y := as_column matrix_Y in
    '(matrix_X, matrix_Y) ←
      compute_distance matrix_X matrix_Y (compute_distance_matrix self);
    let p := sqrt_f (inject_Z (Z.of_nat n)) in
    let M :=
      match max_lag self with
      | Some m => m
      | None => Z.of_nat (ceil_sqrt n)
      end in
    let mgc := mgc_object self in
    '(mgc_statistic, _) ← mgc matrix_X matrix_Y;
    let test_statistic := (inject_Z (Z.of_nat n) * mgc_statistic)%Q in
    test_statistic ←
      foldM (lag_step self matrix_X matrix_Y n p M) (seq 1 (Z.to_nat M)) test_statistic;
    let test_statistic_metadata : pydict :=
      <["dist_mtx_Y" := PMat matrix_Y]> (<["dist_mtx_X" := PMat matrix_X]> ∅) in
    Ok (test_statistic, test_statistic_metadata)
  else Raise AssertionError.

(** [d[key]] where the value is a matrix. *)
Definition getmatrix (d : pydict) (key : string) : result matrix :=
  match d !! key with
  | Some (PMat m) => Ok m
  | _ => Raise (KeyError key)
  end.

(** Lines 193 and 194: the resample of Y of one replicate. *)
Definition permuted_indices (tape : nat -> nat) (block_size n : nat) : result (list nat) :=
  if decide (block_size = 0) then Raise ZeroDivisionError
  else Ok (block_runs (random_permutation tape (n / block_size + 1)) block_size n).

(** Line 199. *)
Definition null_fraction (test_stats_null : list Q) (test_statistic : Q)
    (replication_factor : nat) : result Q :=
  let at_least := filter (fun s => Qle_bool test_statistic s = true) test_stats_null in
  if decide (replication_factor = 0) then Raise ZeroDivisionError
  else Ok (inject_Z (Z.of_nat (length at_least)) / inject_Z (Z.of_nat replication_factor))%Q.

Definition p_value (self : t) (matrix_X matrix_Y : ndarray) (replication_factor : nat)
    (rng : nat -> nat -> nat) : result (Q * pydict) :=
  if decide (shape0 matrix_X = shape0 matrix_Y) then
    let n := shape0 matrix_X in
    let block_size := ceil_sqrt n in
    '(test_statistic0, test_statistic_metadata) ← test_statistic self matrix_X matrix_Y;
    matrix_X ← getmatrix test_statistic_metadata "dist_mtx_X";
    matrix_Y ← getmatrix test_statistic_metadata "dist_mtx_Y";
    test_stats_null ←
      mapM (fun rep =>
              idx ← permuted_indices (rng rep) block_size n;
              permuted_Y ← ix_ idx matrix_Y;
              '(s, _) ← test_statistic self (Arr2 matrix_X) (Arr2 permuted_Y);
              Ok s)
           (seq 0 replication_factor);
    p_value ← null_fraction test_stats_null test_statistic0 replication_factor;
    Ok (p_value, {["test_stats_null" := PArr test_stats_null]})
  else Raise AssertionError.

End Statistic.

End MGC_TS.

(** ** Inputs on which the development is run *)

Module Examples.

(** A distance function: the sum of the coordinate-wise distances, which on
    one-dimensional observations is the Euclidean default. *)
Definition l1_distance (m : matrix) : result matrix :=
  Ok (map (fun a => map (fun b => Np.sum (zip_with (fun x y => Qabs (x - y)) a b)) m) m).

(** A base test in the style of Mantel's: the mean product of the centred
    off-diagonal distances.  It is negative when large distances in X go
    with small ones in Y. *)
Definition off_diagonal (m : matrix) : list Q :=
  concat (imap (fun i row => delete i row) m).

(** Sums and means kept in lowest terms, so that the examples run fast. *)
Definition rsum (l : list Q) : Q := foldr (fun x acc => Qred (x + acc)) 0%Q l.
Definition rmean (l : list Q) : Q := Qred (rsum l / inject_Z (Z.of_nat (length l))).

Definition mantel (X Y : matrix) : result (Q * pydict) :=
  let xs := off_diagonal X in
  let ys := off_diagonal Y in
  let mx := rmean xs in
  let my := rmean ys in
  Ok (rmean (zip_with (fun x y => (x - mx) * (y - my))%Q xs ys), ∅).

(** The distances [|i - j|] of the points [0, 1, ..., n-1] on a line, and
    distances that shrink as those grow. *)
Definition line (n : nat) : matrix :=
  map (fun i => map (fun j => inject_Z (Z.abs (Z.of_nat i - Z.of_nat j))) (seq 0 n)) (seq 0 n).

Definition far (n : nat) : matrix :=
  map (fun i => map (fun j => if decide (i = j) then 0%Q
                              else inject_Z (Z.of_nat n - Z.abs (Z.of_nat i - Z.of_nat j)))
                    (seq 0 n)) (seq 0 n).

(** The distances of [line n], stretched by [1 + d] within each of the
    first two blocks of [b] points and shrunk by [1 - d] within each of the
    others. *)
Definition wobble (n b : nat) (d : Q) : matrix :=
  map (fun i => map (fun j =>
         let base := inject_Z (Z.abs (Z.of_nat i - Z.of_nat j)) in
         if decide (i / b = j / b)
         then (if decide (i / b < 2) then (base * (1 + d))%Q else (base * (1 - d))%Q)
         else base) (seq 0 n)) (seq 0 n).

Definition hhg : HHG.t := {| HHG.compute_distance_matrix := l1_distance |}.

Definition ts (M : Z) : TS.t :=
  {| TS.test_obj := mantel;
     TS.which_test := "mantel";
     TS.compute_distance_matrix := l1_distance;
     TS.max_lag := M |}.

Definition mgc_ts (M : option Z) : MGC_TS.t :=
  {| MGC_TS.compute_distance_matrix := l1_distance;
     MGC_TS.base_global_correlation := "mgc";
     MGC_TS.max_lag := M;
     MGC_TS.mgc_object := mantel |}.

(** Stand-ins for the two library functions: a square root that is exact
    on squares of rationals and truncated to twelve digits elsewhere, and
    a function with the shape of a distribution function.  Nothing proved
    below depends on this choice. *)
Definition sqrt_q (q : Q) : Q :=
  let a := Qnum q in
  let b := Zpos (Qden q) in
  Qred (Z.sqrt (a * b * 10 ^ 24) # Pos.mul (Qden q) (10 ^ 12)).

Definition chi2_q (x : Q) (dof : Z) : Q :=
  if Qle_bool x 0 then 0%Q else (x / (1 + x))%Q.

End Examples.

(** ** Further inputs *)

Module MoreExamples.

(** A base test that reports a scale: that of [Examples.mantel], with the
    number of samples it was given as [optimal_scale]. *)
Definition mantel_with_scale (X Y : matrix) : result (Q * pydict) :=
  '(s, _) ← Examples.mantel X Y;
  Ok (s, {["optimal_scale" := PInt (Z.of_nat (length X))]}).

Definition mgcx (M : Z) : TS.t :=
  {| TS.test_obj := mantel_with_scale;
     TS.which_test := "mgcx";
     TS.compute_distance_matrix := Examples.l1_distance;
     TS.max_lag := M |}.

(** The wrapper around a test that reports no scale, but named [mgcx]. *)
Definition mgcx_without_scale (M : Z) : TS.t :=
  {| TS.test_obj := Examples.mantel;
     TS.which_test := "mgcx";
     TS.compute_distance_matrix := Examples.l1_distance;
     TS.max_lag := M |}.

End MoreExamples.

(** * Vocabulary of the properties

    What the statements below are written with: the quantities the code
    computes in passing, named, and the quantities of the specification,
    defined from its words for comparison with the code. *)

(** The metadata dictionary the wrapper builds on lines 150 and 151. *)
Definition ts_metadata (self : TS.t) (dbl : list Q) (opt : nat) (scale : pyval) : pydict :=
  let md : pydict :=
    <["dependence_by_lag" := PArr dbl]> (<["optimal_lag" := PInt (Z.of_nat opt)]> ∅) in
  if TS.is_mgcx self then <["optimal_scale" := scale]> md else md.

(** The contribution of lag [j] as line 144 computes it. *)
Definition lag_contribution (n j : nat) (statistic : Q) : Q :=
  (inject_Z (Z.of_nat n - Z.of_nat j) * Qmax 0 statistic / inject_Z (Z.of_nat n))%Q.

(** The loop invariant: before lag [j] is processed, every entry is
    non-negative, and [opt] is the first index below [j] at which
    [dependence_by_lag] is largest. *)
Definition lag_invariant (L : nat) (j : nat) (st : list Q * nat * pyval) : Prop :=
  let '(dbl, opt, _) := st in
  length dbl = L /\ Forall (fun x => (0 <= x)%Q) dbl /\ opt < j /\
  exists best, dbl !! opt = Some best
    /\ (forall i x, dbl !! i = Some x -> (x <= best)%Q)
    /\ (forall i x, i < opt -> dbl !! i = Some x -> (x < best)%Q).

(** The statistic in the words of the specification (section 4.2), to be
    compared with [HHG.statistic]: for the ordered pair [(i, j)] the points
    [k] are counted by whether [D_X[i, k] <= D_X[i, j]] and whether
    [D_Y[i, k] <= D_Y[i, j]]; 2 is taken off the cell where both hold. *)

Definition entry (m : matrix) (i j : nat) : Q :=
  match m !! i with
  | Some row => default 0%Q (row !! j)
  | None => 0%Q
  end.

Definition closer (d : matrix) (i j k : nat) : bool :=
  Qle_bool (entry d i k) (entry d i j).

Definition count_points (n : nat) (P : nat -> bool) : Z :=
  Z.of_nat (length (filter (fun k => P k = true) (seq 0 n))).

Section HHG_in_words.

Context (dX dY : matrix) (n : nat).

Definition t11 (i j : nat) : Z :=
  (count_points n (fun k => closer dX i j k && closer dY i j k) - 2)%Z.
Definition t12 (i j : nat) : Z :=
  count_points n (fun k => closer dX i j k && negb (closer dY i j k)).
Definition t21 (i j : nat) : Z :=
  count_points n (fun k => negb (closer dX i j k) && closer dY i j k).
Definition t22 (i j : nat) : Z :=
  count_points n (fun k => negb (closer dX i j k) && negb (closer dY i j k)).

Definition hhg_denominator (i j : nat) : Z :=
  ((t11 i j + t12 i j) * (t21 i j + t22 i j) * (t11 i j + t21 i j) * (t12 i j + t22 i j))%Z.

Definition hhg_S (i j : nat) : Q :=
  if (0 <? hhg_denominator i j)%Z then
    (inject_Z ((Z.of_nat n - 2) * (t12 i j * t21 i j - t11 i j * t22 i j) ^ 2)
     / inject_Z (hhg_denominator i j))%Q
  else 0%Q.

(** The sum over the ordered pairs [(i, j)] with [i <> j]. *)
Definition hhg_sum : Q :=
  Np.sum (map (fun i => Np.sum (map (hhg_S i) (filter (fun j => j ≠ i) (seq 0 n))))
              (seq 0 n)).

End HHG_in_words.

(** The values of numpy's int64. *)
Definition int64_range (z : Z) : Prop := (- 2 ^ 63 <= z < 2 ^ 63)%Z.

(** What [S] must hold at [(a, b)] once the pair has been visited. *)
Definition hhg_target (dX dY : matrix) (n a b : nat) : Q :=
  if decide (a = b) then 0%Q else hhg_S dX dY n a b.

(** The number of offsets in the words of the specification,
    [ceil(n/block_size) + 1]. *)
Definition ceil_div (n b : nat) : nat := (n + b - 1) / b.
Definition spec_offsets_count (n block_size : nat) : nat := ceil_div n block_size + 1.

(** The standardized statistic in the words of the specification, with
    its threshold of [1e-4]. *)
Definition spec_standardized (sqrt_f : Q -> Q) (test_stats_null : list Q)
    (num_samples : Z) (test_statistic : Q) : Q :=
  let mu := mean test_stats_null in
  let sigma := std sqrt_f test_stats_null in
  if Qlt_bool sigma 1e-4%Q then 0%Q
  else (inject_Z num_samples * (test_statistic - mu) / sigma + 1)%Q.

(** The statistic a base test returned (0 stands in where it raised). *)
Definition stat_of (r : result (Q * pydict)) : Q :=
  match r with
  | Ok (s, _) => s
  | Raise _ => 0%Q
  end.

Section MGC_TS_terms.

Context (sqrt_f : Q -> Q) (self : MGC_TS.t) (DX DY : matrix) (n : nat) (M : Z).

(** The weight [(1 - j/(sqrt(n)*(max_lag+1)))^2] of lag [j]. *)
Definition lag_weight (j : nat) : Q :=
  ((1 - inject_Z (Z.of_nat j)
        / (sqrt_f (inject_Z (Z.of_nat n)) * inject_Z (M + 1))) ^ 2)%Q.

(** The base statistic with X leading Y by [j], and with Y leading X. *)
Definition x_leads (j : nat) : Q :=
  stat_of (MGC_TS.mgc_object self (slice2 (Z.of_nat j) (Z.of_nat n) DX)
                                  (slice2 0 (Z.of_nat n - Z.of_nat j) DY)).
Definition y_leads (j : nat) : Q :=
  stat_of (MGC_TS.mgc_object self (slice2 0 (Z.of_nat n - Z.of_nat j) DX)
                                  (slice2 (Z.of_nat j) (Z.of_nat n) DY)).

Definition lag_terms (j : nat) : Q :=
  (lag_weight j * inject_Z (Z.of_nat n - Z.of_nat j) * x_leads j
   + lag_weight j * inject_Z (Z.of_nat n - Z.of_nat j) * y_leads j)%Q.

(** [n] times the lag-0 statistic plus the terms of the lags 1 to [M]. *)
Definition mgc_ts_formula : Q :=
  (inject_Z (Z.of_nat n) * stat_of (MGC_TS.mgc_object self DX DY)
   + Np.sum (map lag_terms (seq 1 (Z.to_nat M))))%Q.

Definition base_succeeds (j : nat) : Prop :=
  is_Ok (MGC_TS.mgc_object self (slice2 (Z.of_nat j) (Z.of_nat n) DX)
                                (slice2 0 (Z.of_nat n - Z.of_nat j) DY))
  /\ is_Ok (MGC_TS.mgc_object self (slice2 0 (Z.of_nat n - Z.of_nat j) DX)
                                   (slice2 (Z.of_nat j) (Z.of_nat n) DY)).

End MGC_TS_terms.

(** ** Vocabulary of the further properties *)

(** The call of the base test at lag [j]: on the full matrices at lag 0,
    on X from sample [j] on and Y up to sample [n - j] otherwise. *)
Definition base_at_lag (self : TS.t) (DX DY : matrix) (n j : nat) : result (Q * pydict) :=
  match j with
  | 0 => TS.test_obj self DX DY
  | _ => TS.test_obj self (slice2 (Z.of_nat j) (Z.of_nat n) DX)
                          (slice2 0 (Z.of_nat n - Z.of_nat j) DY)
  end.

(** What [dependence_by_lag[j]] is to hold. *)
Definition dependence_at_lag (self : TS.t) (DX DY : matrix) (n j : nat) : Q :=
  match j with
  | 0 => Qmax 0 (stat_of (TS.test_obj self DX DY))
  | _ => lag_contribution n j (stat_of (base_at_lag self DX DY n j))
  end.

(** The state of the loop of lines 140 to 147 before lag [j]: the entries
    below [j] are filled in, the later ones are still 0, and the scale kept
    is the one the base test gave at the lag kept. *)
Definition lag_loop_state (self : TS.t) (DX DY : matrix) (n L j : nat)
    (st : list Q * nat * pyval) : Prop :=
  let '(dbl, opt, scale) := st in
  length dbl = L /\ opt < j
  /\ (forall i, i < j -> is_Ok (base_at_lag self DX DY n i)
                         /\ dbl !! i = Some (dependence_at_lag self DX DY n i))
  /\ (forall i x, j <= i -> dbl !! i = Some x -> x = 0%Q)
  /\ (TS.is_mgcx self = true ->
        exists s m, base_at_lag self DX DY n opt = Ok (s, m)
                    /\ m !! "optimal_scale" = Some scale).

(** The wrapper around the same base test with its metadata dropped. *)
Definition without_metadata (self : TS.t) : TS.t :=
  {| TS.test_obj := fun A B => '(s, _) ← TS.test_obj self A B; Ok (s, ∅);
     TS.which_test := TS.which_test self;
     TS.compute_distance_matrix := TS.compute_distance_matrix self;
     TS.max_lag := TS.max_lag self |}.

(** The [m] by [m] block of [D] that starts at [(j, j)]. *)
Definition lagged (D : matrix) (j m : nat) : matrix :=
  map (fun a => map (fun b => entry D (j + a) (j + b)) (seq 0 m)) (seq 0 m).

(** A base test whose statistic does not depend on the order of its two
    arguments. *)
Definition symmetric_test (f : matrix -> matrix -> result (Q * pydict)) : Prop :=
  forall A B s m, f A B = Ok (s, m) -> exists s' m', f B A = Ok (s', m') /\ (s' == s)%Q.


(** * Properties *)

(** ** The [result] monad and the comparisons *)

Lemma bind_Ok {A B} (m : result A) (f : A -> result B) (b : B) :
  m ≫= f = Ok b <-> exists a, m = Ok a /\ f a = Ok b.
Proof.
  destruct m as [a|e]; simpl; split.
  - intros H. exists a. auto.
  - intros (a' & Ha & Hf). congruence.
  - discriminate.
  - intros (a' & Ha & _). discriminate.
Qed.

Lemma bind_Raise {A B} (f : A -> result B) (e : exn) : Raise e ≫= f = Raise e.
Proof. reflexivity. Qed.

Lemma Qlt_bool_iff (a b : Q) : Qlt_bool a b = true <-> (a < b)%Q.
Proof.
  unfold Qlt_bool. rewrite negb_true_iff. split.
  - intros H. apply Qnot_le_lt. intros Hle. apply Qle_bool_iff in Hle. congruence.
  - intros H. destruct (Qle_bool b a) eqn:E; [|reflexivity].
    apply Qle_bool_iff in E. exfalso. exact (Qlt_not_le _ _ H E).
Qed.

Lemma Qlt_bool_false (a b : Q) : Qlt_bool a b = false <-> (b <= a)%Q.
Proof.
  unfold Qlt_bool. rewrite negb_false_iff. apply Qle_bool_iff.
Qed.

(** ** Validation of the lag (C5) *)

Lemma validate_input_invalid_lag (self : TS.t) (X Y : ndarray) (bs : option nat) (M : Z) :
  shape0 X = shape0 Y ->
  (M >= Z.of_nat (shape0 X) - 4)%Z ->
  TS._validate_input self X Y bs M = Raise (ValueError "max_lag must be less than n - 4.").
Proof.
  intros Hn HM. unfold TS._validate_input.
  destruct (decide (shape0 X = shape0 Y)) as [_|Hne]; [|contradiction].
  destruct (M >=? Z.of_nat (shape0 X) - 4)%Z eqn:E; [reflexivity|].
  rewrite Z.geb_leb in E. apply Z.leb_gt in E. lia.
Qed.

(** C5.  When the two inputs have [n] samples each and the configured
    [max_lag] is at least [n - 4], both [test_statistic] and [p_value] of
    the time-series wrapper raise the [ValueError] of the lag check.  The
    outcome is the same whatever the base test, the distance function and
    the random generator are, including ones that would themselves raise:
    the check precedes every call to them, and no value is returned.  (The
    bound [n >= 5] of the claim is not needed.) *)
Theorem invalid_lag_raised_first
    (sqrt_f : Q -> Q) (chi2_cdf : Q -> Z -> Q) (self : TS.t) (X Y : ndarray) (n : nat)
    (replication_factor : nat) (is_fast : bool) (block_size : option nat)
    (subsample_size : Z) (rng : nat -> nat -> nat) :
  shape0 X = n -> shape0 Y = n ->
  (TS.max_lag self >= Z.of_nat n - 4)%Z ->
  TS.test_statistic self X Y = Raise (ValueError "max_lag must be less than n - 4.")
  /\ TS.p_value sqrt_f chi2_cdf self X Y replication_factor is_fast block_size
       subsample_size rng
     = Raise (ValueError "max_lag must be less than n - 4.").
Proof.
  intros HX HY HM. subst n.
  split.
  - unfold TS.test_statistic.
    rewrite validate_input_invalid_lag by (auto; lia). reflexivity.
  - unfold TS.p_value.
    rewrite validate_input_invalid_lag by (auto; lia). reflexivity.
Qed.

Lemma invalid_lag_raised_first_witness :
  TS.test_statistic (Examples.ts 1) (Arr1 [0; 1; 2; 3; 4]%Q) (Arr1 [4; 2; 0; 1; 3]%Q)
    = Raise (ValueError "max_lag must be less than n - 4.")
  /\ TS.p_value Examples.sqrt_q Examples.chi2_q (Examples.ts 1)
       (Arr1 [0; 1; 2; 3; 4]%Q) (Arr1 [4; 2; 0; 1; 3]%Q) 100 false None (-1) (fun _ i => i)
     = Raise (ValueError "max_lag must be less than n - 4.").
Proof.
  apply (invalid_lag_raised_first _ _ (Examples.ts 1) _ _ 5); [reflexivity|reflexivity|].
  simpl. lia.
Defined.

(** ** The lag-aggregated statistic of the wrapper (C4, C8) *)

Tactic Notation "inv_bind" hyp(H) "as" simple_intropattern(a) ident(Ha) :=
  apply bind_Ok in H; destruct H as (a & Ha & H).

Lemma validate_input_Ok (self : TS.t) (X Y : ndarray) (bs : option nat) (M : Z)
    (r : matrix * matrix * nat * Z * nat) :
  TS._validate_input self X Y bs M = Ok r <->
  shape0 X = shape0 Y /\ (M < Z.of_nat (shape0 X) - 4)%Z /\
  exists DX DY,
    compute_distance (as_column X) (as_column Y) (TS.compute_distance_matrix self)
      = Ok (DX, DY)
    /\ r = (DX, DY, match bs with None => ceil_sqrt (shape0 X) | Some b => b end,
            TS.max_lag self, shape0 X).
Proof.
  unfold TS._validate_input.
  destruct (decide (shape0 X = shape0 Y)) as [Hn|Hn].
  2:{ split; [discriminate|]. intros (? & _). contradiction. }
  destruct (M >=? Z.of_nat (shape0 X) - 4)%Z eqn:E.
  { split; [discriminate|]. intros (_ & HM & _).
    rewrite Z.geb_leb in E. apply Z.leb_le in E. lia. }
  rewrite Z.geb_leb in E. apply Z.leb_gt in E.
  destruct (compute_distance _ _ _) as [[DX DY]|e]; simpl.
  - split.
    + intros [= <-]. repeat split; auto. exists DX, DY. auto.
    + intros (_ & _ & DX' & DY' & [= <- <-] & ->). reflexivity.
  - split; [discriminate|]. intros (_ & _ & DX' & DY' & [=] & _).
Qed.

Lemma ts_metadata_lag (self : TS.t) dbl opt scale :
  ts_metadata self dbl opt scale !! "optimal_lag" = Some (PInt (Z.of_nat opt)).
Proof.
  unfold ts_metadata. destruct (TS.is_mgcx self).
  - rewrite lookup_insert_ne by done. rewrite lookup_insert_ne by done.
    apply lookup_insert_eq.
  - rewrite lookup_insert_ne by done. apply lookup_insert_eq.
Qed.

Lemma ts_metadata_dependence (self : TS.t) dbl opt scale :
  ts_metadata self dbl opt scale !! "dependence_by_lag" = Some (PArr dbl).
Proof.
  unfold ts_metadata. destruct (TS.is_mgcx self).
  - rewrite lookup_insert_ne by done. apply lookup_insert_eq.
  - apply lookup_insert_eq.
Qed.

(** What a successful call of [TS.test_statistic] went through. *)
Lemma ts_test_statistic_Ok (self : TS.t) (X Y : ndarray) (v : Q) (md : pydict) :
  TS.test_statistic self X Y = Ok (v, md) <->
  let n := shape0 X in
  let M := TS.max_lag self in
  shape0 X = shape0 Y /\ (M < Z.of_nat n - 4)%Z /\
  exists DX DY s m0 scale0 dbl0 dbl opt scale,
    compute_distance (as_column X) (as_column Y) (TS.compute_distance_matrix self)
      = Ok (DX, DY)
    /\ (0 <= M + 1)%Z
    /\ TS.test_obj self DX DY = Ok (s, m0)
    /\ (if TS.is_mgcx self then getkey m0 "optimal_scale" else Ok PNone) = Ok scale0
    /\ setitem (zeros (Z.to_nat (M + 1))) 0 (Qmax 0 s) = Ok dbl0
    /\ foldM (TS.lag_step self DX DY n) (seq 1 (Z.to_nat M)) (dbl0, 0, scale0)
       = Ok (dbl, opt, scale)
    /\ v = Np.sum dbl
    /\ md = ts_metadata self dbl opt scale.
Proof.
  cbv zeta. unfold TS.test_statistic. split.
  - intros H. inv_bind H as r Hv. apply validate_input_Ok in Hv.
    destruct Hv as (Hn & HM & DX & DY & Hcd & ->). cbn beta iota in H.
    destruct (TS.max_lag self + 1 <? 0)%Z eqn:EM; [discriminate H|].
    apply Z.ltb_ge in EM. cbn in H.
    inv_bind H as [s m0] Hs. cbn beta iota in H.
    inv_bind H as scale0 Hsc.
    inv_bind H as dbl0 Hd0.
    inv_bind H as [[dbl opt] scale] Hloop. cbn beta iota in H.
    injection H as <- <-.
    repeat split; auto.
    exists DX, DY, s, m0, scale0, dbl0, dbl, opt, scale. repeat split; auto.
  - intros (Hn & HM & DX & DY & s & m0 & scale0 & dbl0 & dbl & opt & scale
            & Hcd & HM1 & Hs & Hsc & Hd0 & Hloop & -> & ->).
    assert (Hv : TS._validate_input self X Y None (TS.max_lag self)
                 = Ok (DX, DY, ceil_sqrt (shape0 X), TS.max_lag self, shape0 X)).
    { apply validate_input_Ok. repeat split; auto. exists DX, DY. auto. }
    rewrite Hv. cbn.
    destruct (TS.max_lag self + 1 <? 0)%Z eqn:EM; [apply Z.ltb_lt in EM; lia|].
    cbn. rewrite Hs. cbn. rewrite Hsc. cbn. rewrite Hd0. cbn. rewrite Hloop. cbn.
    reflexivity.
Qed.

Lemma foldM_seq_inv {St : Type} (f : St -> nat -> result St) (P : nat -> St -> Prop)
    (len a : nat) (s r : St) :
  foldM f (seq a len) s = Ok r ->
  P a s ->
  (forall j s s', a <= j < a + len -> P j s -> f s j = Ok s' -> P (S j) s') ->
  P (a + len) r.
Proof.
  revert a s. induction len as [|len IH]; intros a s Hf Hs Hstep; simpl in Hf.
  - injection Hf as <-. rewrite Nat.add_0_r. exact Hs.
  - inv_bind Hf as s' Hs'.
    replace (a + S len) with (S a + len) by lia.
    apply (IH (S a) s'); auto.
    + apply (Hstep a s s'); auto. lia.
    + intros j t t' Hj. apply Hstep. lia.
Qed.

Lemma getitem_Ok {A} (l : list A) (i : nat) (x : A) : getitem l i = Ok x <-> l !! i = Some x.
Proof.
  unfold getitem. destruct (l !! i); split; intros H; try discriminate; congruence.
Qed.

Lemma setitem_Ok {A} (l l' : list A) (i : nat) (v : A) :
  setitem l i v = Ok l' <-> i < length l /\ l' = <[i := v]> l.
Proof.
  unfold setitem. destruct (decide (i < length l)); split.
  - intros [= <-]. auto.
  - intros [_ ->]. reflexivity.
  - discriminate.
  - intros [? _]. lia.
Qed.

Lemma lag_contribution_nonneg (n j : nat) (s : Q) : j <= n -> (0 <= lag_contribution n j s)%Q.
Proof.
  intros Hj. unfold lag_contribution.
  assert (H1 : (0 <= inject_Z (Z.of_nat n - Z.of_nat j))%Q).
  { change 0%Q with (inject_Z 0). rewrite <- Zle_Qle. lia. }
  assert (H2 : (0 <= Qmax 0 s)%Q) by apply Q.le_max_l.
  assert (H3 : (0 <= inject_Z (Z.of_nat n))%Q).
  { change 0%Q with (inject_Z 0). rewrite <- Zle_Qle. lia. }
  apply Qle_lt_or_eq in H3. destruct H3 as [H3|H3].
  - apply Qle_shift_div_l; [exact H3|]. rewrite Qmult_0_l.
    apply Qmult_le_0_compat; assumption.
  - unfold Qdiv. rewrite <- H3. unfold Qinv. simpl. rewrite Qmult_0_r. apply Qle_refl.
Qed.

Lemma ts_lag_step_Ok (self : TS.t) (DX DY : matrix) (n : nat)
    (dbl : list Q) (opt : nat) (scale : pyval) (j : nat) (st' : list Q * nat * pyval) :
  TS.lag_step self DX DY n (dbl, opt, scale) j = Ok st' ->
  exists s m best scale',
    TS.test_obj self (slice2 (Z.of_nat j) (Z.of_nat n) DX)
                     (slice2 0 (Z.of_nat n - Z.of_nat j) DY) = Ok (s, m)
    /\ j < length dbl
    /\ <[j := lag_contribution n j s]> dbl !! opt = Some best
    /\ ((best < lag_contribution n j s)%Q
        /\ st' = (<[j := lag_contribution n j s]> dbl, j, scale')
        \/ (lag_contribution n j s <= best)%Q
           /\ st' = (<[j := lag_contribution n j s]> dbl, opt, scale)).
Proof.
  unfold TS.lag_step. intros H.
  inv_bind H as [s m] Hs. cbn beta iota in H.
  inv_bind H as dbl' Hd. apply setitem_Ok in Hd. destruct Hd as [Hj ->].
  inv_bind H as cur Hcur. apply getitem_Ok in Hcur.
  rewrite list_lookup_insert_eq in Hcur by exact Hj. injection Hcur as <-.
  inv_bind H as best Hbest. apply getitem_Ok in Hbest.
  fold (lag_contribution n j s) in *.
  destruct (Qlt_bool best (lag_contribution n j s)) eqn:E.
  - apply Qlt_bool_iff in E. inv_bind H as scale' Hsc. injection H as <-.
    exists s, m, best, scale'. repeat split; auto.
  - apply Qlt_bool_false in E. injection H as <-.
    exists s, m, best, scale. repeat split; auto.
Qed.

Lemma lag_invariant_step (self : TS.t) (DX DY : matrix) (n L j : nat)
    (st st' : list Q * nat * pyval) :
  j <= n -> 0 < j ->
  (forall i x, j <= i -> (fst (fst st)) !! i = Some x -> x = 0%Q) ->
  lag_invariant L j st ->
  TS.lag_step self DX DY n st j = Ok st' ->
  lag_invariant L (S j) st'
  /\ (forall i x, S j <= i -> (fst (fst st')) !! i = Some x -> x = 0%Q).
Proof.
  destruct st as [[dbl opt] scale]. simpl fst.
  intros Hjn Hj0 Hzero (Hlen & Hpos & Hopt & best & Hb & Hmax & Hfirst) Hstep.
  apply ts_lag_step_Ok in Hstep.
  destruct Hstep as (s & m & best' & scale' & _ & Hjl & Hb' & Hcase).
  rewrite list_lookup_insert_ne in Hb' by lia. rewrite Hb in Hb'. injection Hb' as <-.
  pose proof (lag_contribution_nonneg n j s Hjn) as Hv.
  set (v := lag_contribution n j s) in *.
  assert (Hpos' : Forall (fun x => (0 <= x)%Q) (<[j := v]> dbl)).
  { apply Forall_insert; assumption. }
  assert (Hz' : forall i x, S j <= i -> <[j := v]> dbl !! i = Some x -> x = 0%Q).
  { intros i x Hi Hx. rewrite list_lookup_insert_ne in Hx by lia. apply (Hzero i x); [lia|auto]. }
  destruct Hcase as [[Hlt ->]|[Hle ->]]; simpl fst; (split; [|exact Hz']).
  - repeat split; [rewrite length_insert; exact Hlen|exact Hpos'|lia|].
    exists v. split; [apply list_lookup_insert_eq; exact Hjl|]. split.
    + intros i x Hx. destruct (decide (i = j)) as [->|Hne].
      * rewrite list_lookup_insert_eq in Hx by exact Hjl. injection Hx as <-. apply Qle_refl.
      * rewrite list_lookup_insert_ne in Hx by lia.
        apply Qlt_le_weak. eapply Qle_lt_trans; [exact (Hmax i x Hx)|exact Hlt].
    + intros i x Hi Hx. rewrite list_lookup_insert_ne in Hx by lia.
      eapply Qle_lt_trans; [exact (Hmax i x Hx)|exact Hlt].
  - repeat split; [rewrite length_insert; exact Hlen|exact Hpos'|lia|].
    exists best. split; [rewrite list_lookup_insert_ne by lia; exact Hb|]. split.
    + intros i x Hx. destruct (decide (i = j)) as [->|Hne].
      * rewrite list_lookup_insert_eq in Hx by exact Hjl. injection Hx as <-. exact Hle.
      * rewrite list_lookup_insert_ne in Hx by lia. exact (Hmax i x Hx).
    + intros i x Hi Hx. rewrite list_lookup_insert_ne in Hx by lia. exact (Hfirst i x Hi Hx).
Qed.

Lemma lag_loop_invariant (self : TS.t) (DX DY : matrix) (n : nat) (M : Z) (s : Q)
    (scale0 : pyval) (dbl0 : list Q) (st : list Q * nat * pyval) :
  (M < Z.of_nat n - 4)%Z ->
  setitem (zeros (Z.to_nat (M + 1))) 0 (Qmax 0 s) = Ok dbl0 ->
  foldM (TS.lag_step self DX DY n) (seq 1 (Z.to_nat M)) (dbl0, 0, scale0) = Ok st ->
  (0 <= M)%Z /\ lag_invariant (Z.to_nat (M + 1)) (1 + Z.to_nat M) st.
Proof.
  intros HM Hd0 Hloop. apply setitem_Ok in Hd0. destruct Hd0 as [HL ->].
  unfold zeros in *. rewrite length_replicate in HL.
  assert (HM0 : (0 <= M)%Z) by lia. split; [exact HM0|].
  set (L := Z.to_nat (M + 1)) in *.
  pose (P := fun (j : nat) (st : list Q * nat * pyval) =>
               lag_invariant L j st
               /\ forall i x, j <= i -> (fst (fst st)) !! i = Some x -> x = 0%Q).
  enough (HP : P (1 + Z.to_nat M) st) by exact (proj1 HP).
  apply (foldM_seq_inv _ P _ _ _ _ Hloop).
  - split.
    + repeat split.
      * rewrite length_insert, length_replicate. reflexivity.
      * apply Forall_insert; [|apply Q.le_max_l].
        apply Forall_replicate. apply Qle_refl.
      * lia.
      * exists (Qmax 0 s). split.
        { apply list_lookup_insert_eq. rewrite length_replicate. exact HL. }
        split; [|intros i x Hi; lia].
        intros i x Hx. destruct (decide (i = 0)) as [->|Hne].
        { rewrite list_lookup_insert_eq in Hx by (rewrite length_replicate; exact HL).
          injection Hx as <-. apply Qle_refl. }
        rewrite list_lookup_insert_ne in Hx by lia.
        apply lookup_replicate in Hx. destruct Hx as [-> _]. apply Q.le_max_l.
    + simpl fst. intros i x Hi Hx. rewrite list_lookup_insert_ne in Hx by lia.
      apply lookup_replicate in Hx. tauto.
  - intros j t t' Hj [Hinv Hzero] Hstep.
    apply (lag_invariant_step self DX DY n L j t t'); auto; lia.
Qed.

(** C4, as amended.  When [test_statistic] of the time-series wrapper
    succeeds with maximum lag [M], its metadata holds under [optimal_lag]
    an integer of [0..M] and under [dependence_by_lag] a sequence of
    exactly [M + 1] entries, none of them negative; the entry at
    [optimal_lag] is the largest, and every entry before it is strictly
    smaller (the smallest lag wins a tie).  The statistic returned is the
    sum of the entries. *)
Theorem wrapper_lag_metadata (self : TS.t) (X Y : ndarray) (v : Q) (md : pydict) :
  TS.test_statistic self X Y = Ok (v, md) ->
  exists (optimal_lag : nat) (dependence_by_lag : list Q),
    md !! "optimal_lag" = Some (PInt (Z.of_nat optimal_lag))
    /\ md !! "dependence_by_lag" = Some (PArr dependence_by_lag)
    /\ (0 <= Z.of_nat optimal_lag <= TS.max_lag self)%Z
    /\ Z.of_nat (length dependence_by_lag) = (TS.max_lag self + 1)%Z
    /\ Forall (fun x => (0 <= x)%Q) dependence_by_lag
    /\ (exists best,
          dependence_by_lag !! optimal_lag = Some best
          /\ (forall i x, dependence_by_lag !! i = Some x -> (x <= best)%Q)
          /\ (forall i x, i < optimal_lag ->
                dependence_by_lag !! i = Some x -> (x < best)%Q))
    /\ v = Np.sum dependence_by_lag.
Proof.
  intros H. apply ts_test_statistic_Ok in H. cbv zeta in H.
  destruct H as (Hn & HM & DX & DY & s & m0 & scale0 & dbl0 & dbl & opt & scale
                 & Hcd & HM1 & Hs & Hsc & Hd0 & Hloop & -> & ->).
  destruct (lag_loop_invariant _ _ _ _ _ _ _ _ _ HM Hd0 Hloop)
    as (HM0 & Hlen & Hpos & Hopt & Hbest).
  exists opt, dbl. split; [apply ts_metadata_lag|].
  split; [apply ts_metadata_dependence|].
  split; [lia|]. split; [lia|]. split; [exact Hpos|]. split; [exact Hbest|reflexivity].
Qed.

Lemma wrapper_lag_metadata_witness :
  exists v md,
    TS.test_statistic (Examples.ts 1) (Arr1 [0; 3; 1; 5; 3; 4]%Q) (Arr1 [3; 0; 3; 1; 5; 3]%Q)
      = Ok (v, md)
    /\ exists (optimal_lag : nat) (dependence_by_lag : list Q),
         md !! "optimal_lag" = Some (PInt (Z.of_nat optimal_lag))
         /\ md !! "dependence_by_lag" = Some (PArr dependence_by_lag)
         /\ (0 <= Z.of_nat optimal_lag <= TS.max_lag (Examples.ts 1))%Z
         /\ Z.of_nat (length dependence_by_lag) = (TS.max_lag (Examples.ts 1) + 1)%Z
         /\ Forall (fun x => (0 <= x)%Q) dependence_by_lag
         /\ (exists best,
               dependence_by_lag !! optimal_lag = Some best
               /\ (forall i x, dependence_by_lag !! i = Some x -> (x <= best)%Q)
               /\ (forall i x, i < optimal_lag ->
                     dependence_by_lag !! i = Some x -> (x < best)%Q))
         /\ v = Np.sum dependence_by_lag.
Proof.
  assert (E : TS.test_statistic (Examples.ts 1) (Arr1 [0; 3; 1; 5; 3; 4]%Q)
                (Arr1 [3; 0; 3; 1; 5; 3]%Q)
              = Ok (Np.sum [0; 95 # 300]%Q,
                    ts_metadata (Examples.ts 1) [0; 95 # 300]%Q 1 PNone)).
  { vm_compute. reflexivity. }
  eexists _, _. split; [exact E|]. exact (wrapper_lag_metadata _ _ _ _ _ E).
Defined.

(** On that input the dependence is found at lag 1. *)
Example example_lag_metadata :
  (fun r => (r.2 !! "optimal_lag", r.2 !! "dependence_by_lag")) <$>
    TS.test_statistic (Examples.ts 1) (Arr1 [0; 3; 1; 5; 3; 4]%Q) (Arr1 [3; 0; 3; 1; 5; 3]%Q)
  = Ok (Some (PInt 1), Some (PArr [0; 95 # 300]%Q)).
Proof. vm_compute. reflexivity. Qed.

(** C4 as stated fails on [MGC_TS]: its metadata holds the two distance
    matrices and nothing on lags, as its docstring says. *)
Lemma mgc_ts_metadata_without_lag :
  (fun r => (r.2 !! "optimal_lag", r.2 !! "dependence_by_lag",
             bool_decide (is_Some (r.2 !! "dist_mtx_X")),
             bool_decide (is_Some (r.2 !! "dist_mtx_Y")))) <$>
    MGC_TS.test_statistic Examples.sqrt_q (Examples.mgc_ts (Some 1%Z))
      (Arr1 [0; 3; 1; 5; 3; 4]%Q) (Arr1 [3; 0; 3; 1; 5; 3]%Q)
  = Ok (None, None, true, true).
Proof. vm_compute. reflexivity. Qed.

(** C8, as amended.  With a maximum lag of 0 and inputs that pass the
    validation, the wrapper calls the base test once, on the full distance
    matrices, and returns the non-negative part [max(0, s)] of its
    statistic [s] (line 139): the base statistic itself exactly when that
    is not negative.  No lag contributes: [dependence_by_lag] has the one
    entry of lag 0. *)
Theorem zero_lag_statistic (self : TS.t) (X Y : ndarray) (DX DY : matrix)
    (s : Q) (m0 : pydict) :
  TS.max_lag self = 0%Z ->
  shape0 X = shape0 Y ->
  4 < shape0 X ->
  compute_distance (as_column X) (as_column Y) (TS.compute_distance_matrix self)
    = Ok (DX, DY) ->
  TS.test_obj self DX DY = Ok (s, m0) ->
  (TS.is_mgcx self = true -> is_Some (m0 !! "optimal_scale")) ->
  exists v md,
    TS.test_statistic self X Y = Ok (v, md)
    /\ (v == Qmax 0 s)%Q
    /\ ((0 <= s)%Q -> (v == s)%Q)
    /\ md !! "dependence_by_lag" = Some (PArr [Qmax 0 s]).
Proof.
  intros HM Hn Hn4 Hcd Hs Hscale.
  assert (Hsc : exists scale0,
             (if TS.is_mgcx self then getkey m0 "optimal_scale" else Ok PNone) = Ok scale0).
  { destruct (TS.is_mgcx self).
    - destruct (Hscale eq_refl) as [sc Hsc]. exists sc. unfold getkey. rewrite Hsc. reflexivity.
    - exists PNone. reflexivity. }
  destruct Hsc as [scale0 Hsc].
  exists (Np.sum [Qmax 0 s]), (ts_metadata self [Qmax 0 s] 0 scale0).
  split; [|split; [|split]].
  - apply ts_test_statistic_Ok. cbv zeta. rewrite HM.
    split; [exact Hn|]. split; [lia|].
    exists DX, DY, s, m0, scale0, [Qmax 0 s], [Qmax 0 s], 0, scale0.
    repeat split; auto. lia.
  - simpl. apply Qplus_0_r.
  - intros Hpos. simpl. rewrite Qplus_0_r. apply Q.max_r. exact Hpos.
  - apply ts_metadata_dependence.
Qed.

Lemma zero_lag_statistic_witness :
  exists v md,
    TS.test_statistic (Examples.ts 0) (Arr1 [0; 1; 2; 3; 4]%Q) (Arr1 [0; 1; 2; 3; 5]%Q)
      = Ok (v, md)
    /\ (v == Qmax 0 (6 # 5))%Q
    /\ ((0 <= 6 # 5)%Q -> (v == 6 # 5)%Q)
    /\ md !! "dependence_by_lag" = Some (PArr [Qmax 0 (6 # 5)]).
Proof.
  apply (zero_lag_statistic (Examples.ts 0) (Arr1 [0; 1; 2; 3; 4]%Q) (Arr1 [0; 1; 2; 3; 5]%Q)
           (Examples.line 5)
           [[0; 1; 2; 3; 5]; [1; 0; 1; 2; 4]; [2; 1; 0; 1; 3]; [3; 2; 1; 0; 2];
            [5; 4; 3; 2; 0]]%Q
           (6 # 5)%Q ∅).
  - reflexivity.
  - reflexivity.
  - simpl. lia.
  - vm_compute. reflexivity.
  - vm_compute. reflexivity.
  - intros H. vm_compute in H. discriminate H.
Defined.

(** C8 as stated fails when the base statistic is negative: on these two
    distance matrices, which the distance transform passes through, the
    base test gives [-1] and the wrapper, with maximum lag 0, gives [0]. *)
Lemma zero_lag_negative_base_statistic :
  compute_distance (Examples.line 5) (Examples.far 5) Examples.l1_distance
    = Ok (Examples.line 5, Examples.far 5)
  /\ TS.test_obj (Examples.ts 0) (Examples.line 5) (Examples.far 5) = Ok ((-1)%Q, ∅)
  /\ fst <$> TS.test_statistic (Examples.ts 0) (Arr2 (Examples.line 5))
               (Arr2 (Examples.far 5)) = Ok 0%Q
  /\ ~ (0 == -1)%Q.
Proof.
  split; [vm_compute; reflexivity|]. split; [vm_compute; reflexivity|].
  split; [vm_compute; reflexivity|]. intros H. discriminate H.
Qed.

(** ** The HHG statistic (C2) *)

Lemma foldM_seq_total {St : Type} (f : St -> nat -> result St) (P : nat -> St -> Prop)
    (len a : nat) (s : St) :
  P a s ->
  (forall j s, a <= j < a + len -> P j s -> exists s', f s j = Ok s' /\ P (S j) s') ->
  exists r, foldM f (seq a len) s = Ok r /\ P (a + len) r.
Proof.
  revert a s. induction len as [|len IH]; intros a s Hs Hstep; simpl.
  - exists s. rewrite Nat.add_0_r. auto.
  - destruct (Hstep a s) as (s' & Hf & Hs'); [lia|exact Hs|].
    rewrite Hf. simpl.
    destruct (IH (S a) s' Hs') as (r & Hr & HP).
    + intros j t Hj. apply Hstep. lia.
    + exists r. split; [exact Hr|]. replace (a + S len) with (S a + len) by lia. exact HP.
Qed.

Lemma list_tabulate (l : list Q) :
  l = map (fun k => default 0%Q (l !! k)) (seq 0 (length l)).
Proof.
  apply list_eq. intros k. rewrite list_lookup_fmap.
  destruct (decide (k < length l)) as [Hk|Hk].
  - rewrite lookup_seq_lt by exact Hk. simpl.
    destruct (lookup_lt_is_Some_2 l k Hk) as [x Hx]. rewrite Hx. reflexivity.
  - rewrite lookup_seq_ge by lia. simpl. apply lookup_ge_None. lia.
Qed.

Lemma rect_row (r c : nat) (m : matrix) (i : nat) :
  rect r c m -> i < r ->
  exists row, m !! i = Some row /\ length row = c /\ row = map (entry m i) (seq 0 c).
Proof.
  intros [Hr Hc] Hi.
  destruct (lookup_lt_is_Some_2 m i) as [row Hrow]; [lia|].
  exists row. split; [exact Hrow|].
  assert (Hlen : length row = c).
  { rewrite Forall_forall in Hc. apply Hc.
    eapply list_elem_of_lookup_2. exact Hrow. }
  split; [exact Hlen|].
  rewrite (list_tabulate row) at 1. rewrite Hlen.
  apply map_ext. intros k. unfold entry. rewrite Hrow. reflexivity.
Qed.

Lemma rect_tabulate (r c : nat) (m : matrix) :
  rect r c m -> m = map (fun i => map (entry m i) (seq 0 c)) (seq 0 r).
Proof.
  intros Hm. apply list_eq. intros i. rewrite list_lookup_fmap.
  destruct (decide (i < r)) as [Hi|Hi].
  - rewrite lookup_seq_lt by exact Hi. simpl.
    destruct (rect_row r c m i Hm Hi) as (row & Hrow & _ & Heq). rewrite Hrow. congruence.
  - rewrite lookup_seq_ge by lia. simpl. apply lookup_ge_None. destruct Hm. lia.
Qed.

Lemma entry_lookup (m : matrix) (i j : nat) (row : list Q) (x : Q) :
  m !! i = Some row -> row !! j = Some x -> entry m i j = x.
Proof. intros Hr Hx. unfold entry. rewrite Hr, Hx. reflexivity. Qed.

Lemma sumZ_count (f : nat -> Z) (P : nat -> bool) (l : list nat) :
  (forall k, f k = Z.b2z (P k)) ->
  sumZ (map f l) = Z.of_nat (length (filter (fun k => P k = true) l)).
Proof.
  intros Hf. induction l as [|k l IH]; [reflexivity|].
  cbn [map sumZ foldr]. fold (sumZ (map f l)). rewrite IH, Hf.
  rewrite filter_cons. destruct (P k); destruct (decide _) as [?|?];
    try congruence; simpl length; simpl Z.b2z; lia.
Qed.

Lemma mul_map (f g : nat -> Z) (l : list nat) :
  mul (map f l) (map g l) = Ok (map (fun k => (f k * g k)%Z) l).
Proof.
  unfold mul. rewrite !length_map.
  destruct (decide (length l = length l)) as [_|Hne]; [|contradiction].
  f_equal. induction l as [|k l IH]; [reflexivity|]. simpl. rewrite IH. reflexivity.
Qed.

Lemma setitem2_Ok (r c : nat) (S0 : matrix) (i j : nat) (q : Q) :
  rect r c S0 -> i < r -> j < c ->
  exists S1, setitem2 S0 i j q = Ok S1 /\ rect r c S1
    /\ forall a b, entry S1 a b = if decide (a = i /\ b = j) then q else entry S0 a b.
Proof.
  intros HS Hi Hj.
  destruct (rect_row r c S0 i HS Hi) as (row & Hrow & Hlen & _).
  destruct HS as [Hr Hc].
  exists (<[i := <[j := q]> row]> S0). split; [|split].
  - unfold setitem2, getitem. rewrite Hrow. simpl.
    unfold setitem. destruct (decide (j < length row)) as [_|Hn]; [|lia]. simpl.
    destruct (decide (i < length S0)) as [_|Hn]; [reflexivity|lia].
  - split; [rewrite length_insert; exact Hr|].
    apply Forall_insert; [exact Hc|]. rewrite length_insert. exact Hlen.
  - intros a b. unfold entry. destruct (decide (a = i)) as [->|Hai].
    + rewrite list_lookup_insert_eq by lia. rewrite Hrow.
      destruct (decide (b = j)) as [->|Hbj].
      * rewrite list_lookup_insert_eq by lia.
        destruct (decide (i = i /\ j = j)) as [_|Hn]; [reflexivity|tauto].
      * rewrite list_lookup_insert_ne by auto.
        destruct (decide (i = i /\ b = j)) as [[_ ?]|_]; [contradiction|reflexivity].
    + rewrite list_lookup_insert_ne by auto.
      destruct (decide (a = i /\ b = j)) as [[? _]|_]; [contradiction|reflexivity].
Qed.

Section HHG_correct.

Context (dX dY : matrix) (n : nat).
Hypothesis (HX : rect n n dX) (HY : rect n n dY).

(** One pair: the body of the loops stores [hhg_S i j] at [(i, j)] when
    the denominator is positive, and leaves [S] alone otherwise. *)
Lemma hhg_body_Ok (S0 : matrix) (i j : nat) :
  rect n n S0 -> i < n -> j < n ->
  exists S1, HHG.body (Some dX) (Some dY) n i S0 j = Ok S1 /\ rect n n S1
    /\ forall a b,
         entry S1 a b =
           if decide (a = i /\ b = j /\ i ≠ j /\ (0 < hhg_denominator dX dY n i j)%Z)
           then hhg_S dX dY n i j else entry S0 a b.
Proof.
  intros HS Hi Hj. unfold HHG.body.
  destruct (decide (i ≠ j)) as [Hij|Hij].
  2:{ exists S0. split; [reflexivity|]. split; [exact HS|]. intros a b.
      destruct (decide _) as [(_ & _ & ? & _)|_]; [contradiction|reflexivity]. }
  destruct (rect_row n n dX i HX Hi) as (rowX & HrX & HlX & HeX).
  destruct (rect_row n n dY i HY Hi) as (rowY & HrY & HlY & HeY).
  assert (HxX : rowX !! j = Some (entry dX i j)).
  { destruct (lookup_lt_is_Some_2 rowX j) as [x Hx]; [lia|].
    rewrite Hx. f_equal. symmetry. eapply entry_lookup; eauto. }
  assert (HxY : rowY !! j = Some (entry dY i j)).
  { destruct (lookup_lt_is_Some_2 rowY j) as [x Hx]; [lia|].
    rewrite Hx. f_equal. symmetry. eapply entry_lookup; eauto. }
  simpl. unfold getitem. rewrite HrX. simpl. rewrite HxX. simpl.
  rewrite HrY. simpl. rewrite HxY. simpl.
  rewrite HeX, HeY. unfold one_minus. rewrite !map_map.
  change (fun x : nat => Z.b2z (Qle_bool (entry dX i x) (entry dX i j)))
    with (fun k : nat => Z.b2z (closer dX i j k)).
  change (fun x : nat => Z.b2z (Qle_bool (entry dY i x) (entry dY i j)))
    with (fun k : nat => Z.b2z (closer dY i j k)).
  change (fun x : nat => (1 - Z.b2z (Qle_bool (entry dX i x) (entry dX i j)))%Z)
    with (fun k : nat => (1 - Z.b2z (closer dX i j k))%Z).
  change (fun x : nat => (1 - Z.b2z (Qle_bool (entry dY i x) (entry dY i j)))%Z)
    with (fun k : nat => (1 - Z.b2z (closer dY i j k))%Z).
  rewrite !mul_map. simpl.
  rewrite (sumZ_count _ (fun k => closer dX i j k && closer dY i j k))
    by (intros k; destruct (closer dX i j k), (closer dY i j k); reflexivity).
  rewrite (sumZ_count _ (fun k => closer dX i j k && negb (closer dY i j k)))
    by (intros k; destruct (closer dX i j k), (closer dY i j k); reflexivity).
  rewrite (sumZ_count _ (fun k => negb (closer dX i j k) && closer dY i j k))
    by (intros k; destruct (closer dX i j k), (closer dY i j k); reflexivity).
  rewrite (sumZ_count _ (fun k => negb (closer dX i j k) && negb (closer dY i j k)))
    by (intros k; destruct (closer dX i j k), (closer dY i j k); reflexivity).
  fold (count_points n (fun k => closer dX i j k && closer dY i j k)).
  fold (count_points n (fun k => closer dX i j k && negb (closer dY i j k))).
  fold (count_points n (fun k => negb (closer dX i j k) && closer dY i j k)).
  fold (count_points n (fun k => negb (closer dX i j k) && negb (closer dY i j k))).
  fold (t11 dX dY n i j) (t12 dX dY n i j) (t21 dX dY n i j) (t22 dX dY n i j).
  fold (hhg_denominator dX dY n i j).
  destruct (0 <? hhg_denominator dX dY n i j)%Z eqn:Ed.
  - destruct (setitem2_Ok n n S0 i j
                (inject_Z ((Z.of_nat n - 2)
                           * (t12 dX dY n i j * t21 dX dY n i j
                              - t11 dX dY n i j * t22 dX dY n i j) ^ 2)
                 / inject_Z (hhg_denominator dX dY n i j))%Q HS Hi Hj)
      as (S1 & HS1 & Hrect & Hent).
    exists S1. split; [exact HS1|]. split; [exact Hrect|].
    intros a b. rewrite Hent. apply Z.ltb_lt in Ed.
    unfold hhg_S. replace (0 <? hhg_denominator dX dY n i j)%Z with true
      by (symmetry; apply Z.ltb_lt; exact Ed).
    destruct (decide (a = i /\ b = j)) as [[-> ->]|Hn];
      destruct (decide _) as [Hd|Hd]; try reflexivity; tauto.
  - exists S0. split; [reflexivity|]. split; [exact HS|].
    intros a b. apply Z.ltb_ge in Ed.
    destruct (decide _) as [(_ & _ & _ & ?)|_]; [lia|reflexivity].
Qed.

End HHG_correct.

Lemma sum_map_Qeq {A} (f g : A -> Q) (l : list A) :
  (forall x, x ∈ l -> (f x == g x)%Q) -> (Np.sum (map f l) == Np.sum (map g l))%Q.
Proof.
  intros Hfg. induction l as [|x l IH]; [reflexivity|].
  cbn [map Np.sum foldr]. fold (Np.sum (map f l)) (Np.sum (map g l)).
  rewrite IH, Hfg; [reflexivity|apply list_elem_of_here|].
  intros y Hy. apply Hfg. apply list_elem_of_further. exact Hy.
Qed.

Lemma sum_off_diagonal (f : nat -> Q) (a : nat) (l : list nat) :
  (Np.sum (map (fun b => if decide (a = b) then 0%Q else f b) l)
   == Np.sum (map f (filter (fun b => b ≠ a) l)))%Q.
Proof.
  induction l as [|b l IH]; [reflexivity|].
  cbn [map Np.sum foldr].
  fold (Np.sum (map (fun b => if decide (a = b) then 0%Q else f b) l)).
  rewrite filter_cons. destruct (decide (a = b)) as [->|Hab].
  - destruct (decide (b ≠ b)) as [?|_]; [contradiction|]. rewrite IH. apply Qplus_0_l.
  - destruct (decide (b ≠ a)) as [_|Hn]; [|exfalso; apply Hn; congruence].
    cbn [map Np.sum foldr]. fold (Np.sum (map f (filter (fun b => b ≠ a) l))).
    rewrite IH. reflexivity.
Qed.

Lemma rect_zeros2 (n : nat) : rect n n (zeros2 n n).
Proof.
  unfold zeros2, zeros. split; [apply length_replicate|].
  apply Forall_replicate. apply length_replicate.
Qed.

Lemma entry_zeros2 (n a b : nat) : entry (zeros2 n n) a b = 0%Q.
Proof.
  unfold entry, zeros2, zeros.
  destruct (replicate n (replicate n 0%Q) !! a) as [row|] eqn:E; [|reflexivity].
  apply lookup_replicate in E. destruct E as [-> _].
  destruct (replicate n 0%Q !! b) as [x|] eqn:E; [|reflexivity].
  apply lookup_replicate in E. destruct E as [-> _]. reflexivity.
Qed.

(** The loops on two bound [n]-by-[n] matrices. *)
Lemma hhg_loops_sum (dX dY : matrix) (n : nat) :
  rect n n dX -> rect n n dY ->
  exists v, HHG.statistic (Some dX) (Some dY) = Ok (v, ∅)
            /\ (v == hhg_sum dX dY n)%Q.
Proof.
  intros HX HY. unfold HHG.statistic. simpl.
  assert (Hn : nrows dX = n) by (destruct HX; assumption). rewrite Hn.
  pose (Inner := fun (i j : nat) (S0 : matrix) =>
          rect n n S0 /\
          forall a b, b < n -> entry S0 a b =
            if decide (a < i \/ (a = i /\ b < j)) then hhg_target dX dY n a b else 0%Q).
  pose (Outer := fun (i : nat) (S0 : matrix) =>
          rect n n S0 /\
          forall a b, b < n -> entry S0 a b =
            if decide (a < i) then hhg_target dX dY n a b else 0%Q).
  destruct (foldM_seq_total
              (fun S0 i => foldM (HHG.body (Some dX) (Some dY) n i) (seq 0 n) S0)
              Outer n 0 (zeros2 n n)) as (S1 & HS1 & [Hrect Hent]).
  { split; [apply rect_zeros2|]. intros a b _. rewrite entry_zeros2.
    destruct (decide (a < 0)); [lia|reflexivity]. }
  { intros i S0 Hi [HS0 HO].
    destruct (foldM_seq_total (HHG.body (Some dX) (Some dY) n i) (Inner i) n 0 S0)
      as (S2 & HS2 & [Hrect2 Hent2]).
    - split; [exact HS0|]. intros a b Hb. rewrite HO by exact Hb.
      destruct (decide (a < i)), (decide (a < i \/ (a = i /\ b < 0))); try reflexivity; lia.
    - intros j S3 Hj [HS3 HI].
      destruct (hhg_body_Ok dX dY n HX HY S3 i j HS3) as (S4 & HS4 & Hrect4 & Hent4);
        [lia|lia|].
      exists S4. split; [exact HS4|]. split; [exact Hrect4|].
      intros a b Hb. rewrite Hent4, HI by exact Hb. unfold hhg_target, hhg_S.
      destruct (decide (a = i /\ b = j /\ i ≠ j /\ (0 < hhg_denominator dX dY n i j)%Z))
        as [(-> & -> & Hij & Hd)|Hno].
      + destruct (decide (i < i \/ (i = i /\ j < S j))) as [_|?]; [|lia].
        destruct (decide (i = j)) as [?|_]; [contradiction|]. reflexivity.
      + destruct (decide (a < i \/ (a = i /\ b < j))) as [H1|H1];
          destruct (decide (a < i \/ (a = i /\ b < S j))) as [H2|H2];
          try reflexivity; try lia.
        assert (a = i /\ b = j) as [-> ->] by lia.
        destruct (decide (i = j)) as [_|Hij]; [reflexivity|].
        destruct (0 <? hhg_denominator dX dY n i j)%Z eqn:Ed; [|reflexivity].
        apply Z.ltb_lt in Ed. tauto.
    - exists S2. split; [exact HS2|]. split; [exact Hrect2|].
      intros a b Hb. rewrite Hent2 by exact Hb.
      destruct (decide (a < i \/ (a = i /\ b < 0 + n))) as [H1|H1];
        destruct (decide (a < S i)) as [H2|H2]; try reflexivity; lia. }
  rewrite HS1. simpl. eexists. split; [reflexivity|].
  rewrite (rect_tabulate n n S1 Hrect) at 1. unfold sum2, hhg_sum. rewrite map_map.
  apply sum_map_Qeq. intros a Ha. apply elem_of_seq in Ha.
  rewrite <- sum_off_diagonal. apply sum_map_Qeq. intros b Hb.
  apply elem_of_seq in Hb. rewrite Hent by lia.
  unfold hhg_target. destruct (decide (a < 0 + n)) as [_|Hna]; [reflexivity|lia].
Qed.

(** The integers of lines 63 to 70 on at most 4096 samples. *)
Lemma count_points_bounds (n : nat) (P : nat -> bool) :
  (0 <= count_points n P <= Z.of_nat n)%Z.
Proof.
  unfold count_points. split; [lia|].
  pose proof (length_filter (fun k => P k = true) (seq 0 n)) as H.
  rewrite length_seq in H. lia.
Qed.

Lemma abs_mul_le (x y A B : Z) :
  (Z.abs x <= A)%Z -> (Z.abs y <= B)%Z -> (Z.abs (x * y) <= A * B)%Z.
Proof.
  intros Hx Hy. rewrite Z.abs_mul.
  apply Z.mul_le_mono_nonneg; auto; apply Z.abs_nonneg.
Qed.

Lemma abs_int64 (z B : Z) : (Z.abs z <= B)%Z -> (B < 2 ^ 63)%Z -> int64_range z.
Proof. unfold int64_range. intros Hz HB. lia. Qed.

Lemma hhg_integers_fit (dX dY : matrix) (n i j : nat) :
  n <= 4096 ->
  let a := t11 dX dY n i j in
  let b := t12 dX dY n i j in
  let c := t21 dX dY n i j in
  let d := t22 dX dY n i j in
  int64_range (b * c - a * d)
  /\ int64_range ((b * c - a * d) ^ 2)
  /\ int64_range ((Z.of_nat n - 2) * (b * c - a * d) ^ 2)
  /\ int64_range (hhg_denominator dX dY n i j).
Proof.
  intros Hn. cbv zeta. unfold hhg_denominator, t11, t12, t21, t22.
  pose proof (count_points_bounds n (fun k => closer dX i j k && closer dY i j k)) as Ha.
  pose proof (count_points_bounds n (fun k => closer dX i j k && negb (closer dY i j k)))
    as Hb.
  pose proof (count_points_bounds n (fun k => negb (closer dX i j k) && closer dY i j k))
    as Hc.
  pose proof (count_points_bounds n
                (fun k => negb (closer dX i j k) && negb (closer dY i j k))) as Hd.
  set (a := count_points n (fun k => closer dX i j k && closer dY i j k)) in *.
  set (b := count_points n (fun k => closer dX i j k && negb (closer dY i j k))) in *.
  set (c := count_points n (fun k => negb (closer dX i j k) && closer dY i j k)) in *.
  set (d := count_points n (fun k => negb (closer dX i j k) && negb (closer dY i j k))) in *.
  assert (HN : (Z.of_nat n <= 4096)%Z) by lia.
  assert (Hbc : (Z.abs (b * c) <= 4096 * 4096)%Z) by (apply abs_mul_le; lia).
  assert (Had : (Z.abs ((a - 2) * d) <= 4096 * 4096)%Z) by (apply abs_mul_le; lia).
  assert (Hx : (Z.abs (b * c - (a - 2) * d) <= 2 ^ 25)%Z) by lia.
  assert (Hxx : (Z.abs ((b * c - (a - 2) * d) ^ 2) <= 2 ^ 25 * 2 ^ 25)%Z).
  { rewrite Z.pow_2_r. apply abs_mul_le; exact Hx. }
  assert (Hnx : (Z.abs ((Z.of_nat n - 2) * (b * c - (a - 2) * d) ^ 2)
                 <= 4096 * (2 ^ 25 * 2 ^ 25))%Z).
  { apply abs_mul_le; [lia|exact Hxx]. }
  assert (Hd1 : (Z.abs ((a - 2 + b) * (c + d)) <= 8192 * 8192)%Z)
    by (apply abs_mul_le; lia).
  assert (Hd2 : (Z.abs ((a - 2 + b) * (c + d) * (a - 2 + c)) <= 8192 * 8192 * 8192)%Z)
    by (apply abs_mul_le; [exact Hd1|lia]).
  assert (Hd3 : (Z.abs ((a - 2 + b) * (c + d) * (a - 2 + c) * (b + d))
                 <= 8192 * 8192 * 8192 * 8192)%Z)
    by (apply abs_mul_le; [exact Hd2|lia]).
  split; [exact (abs_int64 _ _ Hx eq_refl)|].
  split; [exact (abs_int64 _ _ Hxx eq_refl)|].
  split; [exact (abs_int64 _ _ Hnx eq_refl)|exact (abs_int64 _ _ Hd3 eq_refl)].
Qed.

(** C2.  On two [n]-by-[n] distance matrices the loops of
    [HHG.test_statistic] (lines 55 to 71) end without an exception, with
    empty metadata, and with the sum over all ordered pairs [(i, j)],
    [i <> j], of [S[i, j]]: the value
    [(n-2)*(t12*t21 - t11*t22)^2 / ((t11+t12)(t21+t22)(t11+t21)(t12+t22))]
    when that denominator is positive and 0 when it is not, the four counts
    being taken over all [k] from the comparisons [D_X[i,k] <= D_X[i,j]] and
    [D_Y[i,k] <= D_Y[i,j]], with 2 off the both-closer count.  This is so
    for every [n] (for [n < 2] there is no pair and the sum is 0), and it
    is what [test_statistic] returns on raw observations whose distance
    matrices are [dX] and [dY]. *)
Theorem hhg_statistic_is_sum (self : HHG.t) (dX dY : matrix) (n : nat) :
  rect n n dX -> rect n n dY ->
  (exists v, HHG.statistic (Some dX) (Some dY) = Ok (v, ∅)
             /\ (v == hhg_sum dX dY n)%Q)
  /\ (forall X Y,
        is_raw X = true -> is_raw Y = true ->
        HHG.compute_distance_matrix self X = Ok dX ->
        HHG.compute_distance_matrix self Y = Ok dY ->
        exists v, HHG.test_statistic self X Y = Ok (v, ∅)
                  /\ (v == hhg_sum dX dY n)%Q).
Proof.
  intros HX HY. split; [exact (hhg_loops_sum dX dY n HX HY)|].
  intros X Y HrX HrY HdX HdY. unfold HHG.test_statistic.
  rewrite HrX, HrY, HdX, HdY. simpl.
  exact (hhg_loops_sum dX dY n HX HY).
Qed.

Lemma hhg_statistic_is_sum_witness :
  let dX := [[0; 1; 3; 7]; [1; 0; 2; 6]; [3; 2; 0; 4]; [7; 6; 4; 0]]%Q in
  let dY := [[0; 2; 1; 5]; [2; 0; 1; 3]; [1; 1; 0; 4]; [5; 3; 4; 0]]%Q in
  (exists v, HHG.statistic (Some dX) (Some dY) = Ok (v, ∅)
             /\ (v == hhg_sum dX dY 4)%Q)
  /\ (exists v,
        HHG.test_statistic Examples.hhg [[0]; [1]; [3]; [7]]%Q [[0]; [2]; [1]; [5]]%Q
          = Ok (v, ∅)
        /\ (v == hhg_sum dX dY 4)%Q).
Proof.
  intros dX dY.
  destruct (hhg_statistic_is_sum Examples.hhg dX dY 4) as [Hloops Hraw].
  - split; [reflexivity|]. repeat constructor.
  - split; [reflexivity|]. repeat constructor.
  - split; [exact Hloops|]. apply Hraw; vm_compute; reflexivity.
Defined.

(** The four points [0, 1, 3, 7] against [0, 2, 1, 5]: the statistic is 2,
    by the code and by the sum of the specification. *)
Example example_hhg_four_points :
  fst <$> HHG.test_statistic Examples.hhg [[0]; [1]; [3]; [7]]%Q [[0]; [2]; [1]; [5]]%Q
    = Ok 2%Q
  /\ Qred (hhg_sum [[0; 1; 3; 7]; [1; 0; 2; 6]; [3; 2; 0; 4]; [7; 6; 4; 0]]%Q
                   [[0; 2; 1; 5]; [2; 0; 1; 3]; [1; 1; 0; 4]; [5; 3; 4; 0]]%Q 4) = 2%Q.
Proof. split; vm_compute; reflexivity. Qed.

(** ** Distance matrices as input (C3) *)

(** An input that is already a distance matrix takes neither branch of
    lines 50 to 53, so that [dist_mtx_X] is read on line 55 without ever
    having been assigned. *)
Lemma hhg_distance_input_unbound (self : HHG.t) (X Y : matrix) :
  is_raw X = false -> is_raw Y = false ->
  HHG.test_statistic self X Y = Raise (UnboundLocalError "dist_mtx_X").
Proof.
  intros HX HY. unfold HHG.test_statistic. rewrite HX, HY. reflexivity.
Qed.

(** The wrapper, for comparison, goes through [compute_distance] and gives
    on the distance matrices what it gives on the observations they come
    from, provided the distance function returns distance matrices (square,
    zero diagonal) of as many rows. *)
Lemma wrapper_accepts_distance_input (self : TS.t) (X Y : ndarray) (DX DY : matrix) :
  compute_distance (as_column X) (as_column Y) (TS.compute_distance_matrix self)
    = Ok (DX, DY) ->
  is_raw DX = false -> is_raw DY = false ->
  length DX = shape0 X -> length DY = shape0 Y ->
  TS.test_statistic self (Arr2 DX) (Arr2 DY) = TS.test_statistic self X Y.
Proof.
  intros Hcd HrX HrY HlX HlY. unfold TS.test_statistic.
  enough (Hv : TS._validate_input self (Arr2 DX) (Arr2 DY) None (TS.max_lag self)
               = TS._validate_input self X Y None (TS.max_lag self))
    by (rewrite Hv; reflexivity).
  unfold TS._validate_input. simpl shape0. rewrite HlX, HlY.
  destruct (decide (shape0 X = shape0 Y)) as [Hn|Hn]; [|reflexivity].
  destruct (TS.max_lag self >=? Z.of_nat (shape0 X) - 4)%Z; [reflexivity|].
  rewrite Hcd. simpl as_column. unfold compute_distance at 1. rewrite HrX, HrY. reflexivity.
Qed.

(** C3, on the code.  The four observations [0, 1, 3, 7] and [0, 2, 1, 5]
    have the HHG statistic 2; handing [HHG.test_statistic] the two distance
    matrices the distance function makes of them raises
    [UnboundLocalError] instead of returning 2. *)
Theorem hhg_fails_on_distance_matrices :
  let X := [[0]; [1]; [3]; [7]]%Q in
  let Y := [[0]; [2]; [1]; [5]]%Q in
  let dX := [[0; 1; 3; 7]; [1; 0; 2; 6]; [3; 2; 0; 4]; [7; 6; 4; 0]]%Q in
  let dY := [[0; 2; 1; 5]; [2; 0; 1; 3]; [1; 1; 0; 4]; [5; 3; 4; 0]]%Q in
  HHG.compute_distance_matrix Examples.hhg X = Ok dX
  /\ HHG.compute_distance_matrix Examples.hhg Y = Ok dY
  /\ fst <$> HHG.test_statistic Examples.hhg X Y = Ok 2%Q
  /\ HHG.test_statistic Examples.hhg dX dY = Raise (UnboundLocalError "dist_mtx_X").
Proof. repeat split; vm_compute; reflexivity. Qed.

(** ** The block bootstrap (C9) *)

Lemma random_choice_Ok (tape : nat -> nat) (n k : nat) :
  0 < n ->
  exists offsets, random_choice tape n k = Ok offsets
    /\ length offsets = k /\ Forall (fun t => t < n) offsets.
Proof.
  intros Hn. unfold random_choice. destruct (decide (n = 0)) as [?|_]; [lia|].
  eexists. split; [reflexivity|]. split.
  - rewrite length_map, length_seq. reflexivity.
  - apply Forall_forall. intros t Ht. apply list_elem_of_fmap in Ht.
    destruct Ht as (i & -> & _). apply Nat.mod_upper_bound. lia.
Qed.

(** Sampling is with replacement: every sequence of [k] offsets below [n]
    is the outcome for some state of the generator. *)
Lemma random_choice_any (n k : nat) (offsets : list nat) :
  length offsets = k -> Forall (fun t => t < n) offsets -> 0 < n ->
  exists tape, random_choice tape n k = Ok offsets.
Proof.
  intros Hk Hlt Hn. exists (fun i => default 0 (offsets !! i)).
  unfold random_choice. destruct (decide (n = 0)) as [?|_]; [lia|]. f_equal.
  apply list_eq. intros i. rewrite list_lookup_fmap.
  destruct (decide (i < k)) as [Hi|Hi].
  - rewrite lookup_seq_lt by exact Hi. simpl.
    destruct (lookup_lt_is_Some_2 offsets i) as [t Ht]; [lia|]. rewrite Ht. simpl.
    f_equal. apply Nat.mod_small.
    rewrite Forall_forall in Hlt. apply Hlt. eapply list_elem_of_lookup_2. exact Ht.
  - rewrite lookup_seq_ge by lia. simpl. symmetry. apply lookup_ge_None. lia.
Qed.

Lemma concat_runs_lookup (offsets : list nat) (bs q : nat) :
  0 < bs -> q < length offsets * bs ->
  exists t, offsets !! (q / bs) = Some t
    /\ concat (map (fun t => arange t bs) offsets) !! q = Some (t + q mod bs).
Proof.
  intros Hbs. revert q. induction offsets as [|t0 offsets IH]; intros q Hq; simpl in Hq.
  - lia.
  - cbn [map concat]. destruct (decide (q < bs)) as [Hlt|Hge].
    + exists t0. rewrite Nat.div_small by exact Hlt. split; [reflexivity|].
      rewrite lookup_app_l by (unfold arange; rewrite length_seq; exact Hlt).
      unfold arange. rewrite lookup_seq_lt by exact Hlt.
      rewrite Nat.mod_small by exact Hlt. reflexivity.
    + destruct (IH (q - bs)) as (t & Ht & Hl); [lia|].
      assert (Hq' : q = (q - bs) + 1 * bs) by lia.
      exists t. split.
      * rewrite Hq', Nat.div_add by lia. rewrite Nat.add_1_r. exact Ht.
      * rewrite lookup_app_r by (unfold arange; rewrite length_seq; lia).
        unfold arange at 1. rewrite length_seq, Hl. f_equal. f_equal.
        rewrite Hq' at 2. rewrite Nat.Div0.mod_add. reflexivity.
Qed.

Lemma length_concat_runs (offsets : list nat) (bs : nat) :
  length (concat (map (fun t => arange t bs) offsets)) = length offsets * bs.
Proof.
  induction offsets as [|t offsets IH]; [reflexivity|].
  cbn [map concat]. rewrite length_app, IH. unfold arange. rewrite length_seq. simpl. lia.
Qed.

Lemma block_runs_spec (offsets : list nat) (bs n : nat) :
  0 < bs -> n <= length offsets * bs ->
  length (block_runs offsets bs n) = n
  /\ forall q, q < n ->
       exists t, offsets !! (q / bs) = Some t
         /\ block_runs offsets bs n !! q = Some (t + q mod bs).
Proof.
  intros Hbs Hn. unfold block_runs. split.
  - rewrite length_take, length_concat_runs. lia.
  - intros q Hq. destruct (concat_runs_lookup offsets bs q Hbs) as (t & Ht & Hl); [lia|].
    exists t. split; [exact Ht|]. rewrite lookup_take_lt by exact Hq. exact Hl.
Qed.

Lemma mapM_Ok {A B} (f : A -> result B) (g : A -> B) (l : list A) :
  (forall x, x ∈ l -> f x = Ok (g x)) -> mapM f l = Ok (map g l).
Proof.
  induction l as [|x l IH]; intros Hf; [reflexivity|].
  cbn [mapM map]. rewrite Hf by apply list_elem_of_here. simpl.
  rewrite IH; [reflexivity|]. intros y Hy. apply Hf. apply list_elem_of_further. exact Hy.
Qed.

Lemma mapM_Ok_inv {A B} (f : A -> result B) (l : list A) (k : list B) :
  mapM f l = Ok k -> Forall2 (fun x y => f x = Ok y) l k.
Proof.
  revert k. induction l as [|x l IH]; intros k H; cbn [mapM] in H.
  - injection H as <-. constructor.
  - inv_bind H as y Hy. inv_bind H as k' Hk'. injection H as <-.
    constructor; [exact Hy|]. apply IH. exact Hk'.
Qed.

Lemma mapM_map {A B C} (f : B -> result C) (h : A -> B) (l : list A) :
  mapM f (map h l) = mapM (fun x => f (h x)) l.
Proof.
  induction l as [|x l IH]; [reflexivity|]. cbn [map mapM]. rewrite IH. reflexivity.
Qed.

(** [m[np.ix_(idx, idx)]] on an [r]-by-[c] matrix, for indices within
    both dimensions. *)
Lemma ix_Ok (r c : nat) (m : matrix) (idx : list nat) :
  rect r c m -> Forall (fun i => i < r /\ i < c) idx ->
  ix_ idx m = Ok (map (fun a => map (fun b => entry m a b) idx) idx).
Proof.
  intros Hm Hidx. unfold ix_. rewrite Forall_forall in Hidx.
  rewrite (mapM_Ok _ (fun a => map (entry m a) (seq 0 c))).
  2:{ intros a Ha. destruct (Hidx a Ha) as [Hr _].
      destruct (rect_row r c m a Hm Hr) as (row & Hrow & _ & Heq).
      unfold getitem. rewrite Hrow. congruence. }
  simpl. rewrite mapM_map. apply mapM_Ok. intros a Ha.
  apply mapM_Ok. intros b Hb. destruct (Hidx b Hb) as [_ Hc].
  unfold getitem. rewrite list_lookup_fmap, lookup_seq_lt by exact Hc. reflexivity.
Qed.

Lemma ceil_sqrt_least (n : nat) :
  n <= ceil_sqrt n * ceil_sqrt n /\ forall b, n <= b * b -> ceil_sqrt n <= b.
Proof.
  unfold ceil_sqrt. destruct n as [|n].
  - split; [simpl; lia|]. intros b _. change (Nat.sqrt_up 0) with 0. lia.
  - pose proof (Nat.sqrt_up_spec (S n) ltac:(lia)) as [Hlo Hhi].
    split; [exact Hhi|]. intros b Hb.
    destruct (decide (Nat.sqrt_up (S n) <= b)) as [?|Hgt]; [assumption|].
    exfalso. assert (Hb' : b <= Nat.pred (Nat.sqrt_up (S n))) by lia.
    pose proof (Nat.mul_le_mono _ _ _ _ Hb' Hb') as Hsq.
    apply (Nat.lt_irrefl (S n)).
    eapply Nat.le_lt_trans; [exact Hb|]. eapply Nat.le_lt_trans; [exact Hsq|exact Hlo].
Qed.

Lemma random_permutation_Permutation (tape : nat -> nat) (k : nat) :
  Permutation (random_permutation tape k) (seq 0 k).
Proof.
  induction k as [|k IH]; [constructor|].
  cbn [random_permutation]. rewrite seq_S. simpl.
  rewrite <- Permutation_middle. rewrite take_drop.
  rewrite IH. apply Permutation_cons_append.
Qed.

Lemma entry_ix (m : matrix) (idx : list nat) (a b ia ib : nat) :
  idx !! a = Some ia -> idx !! b = Some ib ->
  entry (map (fun a => map (fun b => entry m a b) idx) idx) a b = entry m ia ib.
Proof.
  intros Ha Hb. unfold entry at 1. rewrite list_lookup_fmap, Ha. simpl.
  rewrite list_lookup_fmap, Hb. reflexivity.
Qed.

(** C9, as amended.  A resample of the time-series wrapper, for a block
    size of at least 1 on [n >= 1] samples: [n // block_size + 1] offsets
    are drawn from [0, n), with replacement (every such sequence of offsets
    can come out); the index sequence has exactly [n] entries, the one at
    position [q] being offset number [q // block_size] plus
    [q mod block_size], reduced modulo [n] -- the runs of [block_size]
    consecutive indices, one after the other and cut at [n]; the resampled
    Y has at [(a, b)] the entry of Y at [(idx[a], idx[b])], the same index
    sequence on rows and columns; the replicate is the wrapper's statistic
    of X and the resampled Y.  A block size left unspecified is the least
    [b] with [n <= b*b], that is [ceil(sqrt n)]. *)
Theorem wrapper_block_bootstrap (self : TS.t) (tape : nat -> nat)
    (block_size n : nat) (Y : matrix) :
  0 < block_size -> 0 < n -> rect n n Y ->
  (exists offsets idx PY,
     random_choice tape n (n / block_size + 1) = Ok offsets
     /\ length offsets = n / block_size + 1
     /\ Forall (fun t => t < n) offsets
     /\ TS.permuted_indices tape block_size n = Ok idx
     /\ length idx = n
     /\ (forall q, q < n ->
           exists t, offsets !! (q / block_size) = Some t
             /\ idx !! q = Some ((t + q mod block_size) mod n))
     /\ TS.permute tape Y block_size n = Ok PY
     /\ rect n n PY
     /\ (forall a b ia ib, idx !! a = Some ia -> idx !! b = Some ib ->
           entry PY a b = entry Y ia ib)
     /\ (forall X, TS.worker self X Y block_size n tape
                   = fst <$> TS.test_statistic self (Arr2 X) (Arr2 PY)))
  /\ (forall offsets, length offsets = n / block_size + 1 ->
        Forall (fun t => t < n) offsets ->
        exists tape', random_choice tape' n (n / block_size + 1) = Ok offsets)
  /\ (forall X' Y' M DX DY bs M' n',
        TS._validate_input self X' Y' None M = Ok (DX, DY, bs, M', n') ->
        bs = ceil_sqrt n' /\ n' <= bs * bs /\ forall b, n' <= b * b -> bs <= b).
Proof.
  intros Hbs Hn HY. split; [|split].
  - destruct (random_choice_Ok tape n (n / block_size + 1) Hn) as (offsets & Hoff & Hlen & Hlt).
    assert (Hcover : n <= length offsets * block_size).
    { rewrite Hlen. pose proof (Nat.mul_succ_div_gt n block_size ltac:(lia)). lia. }
    destruct (block_runs_spec offsets block_size n Hbs Hcover) as [Hrl Hrq].
    set (idx := map (fun i => i mod n) (block_runs offsets block_size n)).
    assert (Hidx : TS.permuted_indices tape block_size n = Ok idx).
    { unfold TS.permuted_indices. destruct (decide (block_size = 0)) as [?|_]; [lia|].
      rewrite Hoff. reflexivity. }
    assert (Hin : Forall (fun i => i < n /\ i < n) idx).
    { apply Forall_forall. intros i Hi. apply list_elem_of_fmap in Hi.
      destruct Hi as (i' & -> & _).
      pose proof (Nat.mod_upper_bound i' n ltac:(lia)). lia. }
    exists offsets, idx, (map (fun a => map (fun b => entry Y a b) idx) idx).
    assert (Hperm : TS.permute tape Y block_size n
                    = Ok (map (fun a => map (fun b => entry Y a b) idx) idx)).
    { unfold TS.permute. rewrite Hidx. simpl. apply (ix_Ok n n); assumption. }
    assert (Hli : length idx = n) by (unfold idx; rewrite length_map; exact Hrl).
    repeat split; auto.
    + intros q Hq. destruct (Hrq q Hq) as (t & Ht & Hl). exists t. split; [exact Ht|].
      unfold idx. rewrite list_lookup_fmap, Hl. reflexivity.
    + rewrite length_map. exact Hli.
    + apply Forall_forall. intros row Hrow. apply list_elem_of_fmap in Hrow.
      destruct Hrow as (a & -> & _). rewrite length_map. exact Hli.
    + intros a b ia ib. apply entry_ix.
    + intros X. unfold TS.worker. rewrite Hperm. simpl.
      destruct (TS.test_statistic self (Arr2 X) _) as [[v md]|e]; reflexivity.
  - intros offsets Hlen Hlt. apply random_choice_any; assumption.
  - intros X' Y' M DX DY bs M' n' Hv. apply validate_input_Ok in Hv.
    destruct Hv as (_ & _ & DX' & DY' & _ & [= -> -> -> -> ->]).
    split; [reflexivity|]. apply ceil_sqrt_least.
Qed.

Lemma wrapper_block_bootstrap_witness :
  let tape := fun i => 7 * i + 3 in
  (exists offsets idx PY,
     random_choice tape 10 (10 / 4 + 1) = Ok offsets
     /\ length offsets = 10 / 4 + 1
     /\ Forall (fun t => t < 10) offsets
     /\ TS.permuted_indices tape 4 10 = Ok idx
     /\ length idx = 10
     /\ (forall q, q < 10 ->
           exists t, offsets !! (q / 4) = Some t
             /\ idx !! q = Some ((t + q mod 4) mod 10))
     /\ TS.permute tape (Examples.line 10) 4 10 = Ok PY
     /\ rect 10 10 PY
     /\ (forall a b ia ib, idx !! a = Some ia -> idx !! b = Some ib ->
           entry PY a b = entry (Examples.line 10) ia ib)
     /\ (forall X, TS.worker (Examples.ts 1) X (Examples.line 10) 4 10 tape
                   = fst <$> TS.test_statistic (Examples.ts 1) (Arr2 X) (Arr2 PY)))
  /\ (forall offsets, length offsets = 10 / 4 + 1 ->
        Forall (fun t => t < 10) offsets ->
        exists tape', random_choice tape' 10 (10 / 4 + 1) = Ok offsets)
  /\ (forall X' Y' M DX DY bs M' n',
        TS._validate_input (Examples.ts 1) X' Y' None M = Ok (DX, DY, bs, M', n') ->
        bs = ceil_sqrt n' /\ n' <= bs * bs /\ forall b, n' <= b * b -> bs <= b).
Proof.
  intros tape. apply (wrapper_block_bootstrap (Examples.ts 1) tape 4 10 (Examples.line 10)).
  - lia.
  - lia.
  - split; [reflexivity|]. vm_compute. repeat constructor.
Defined.

(** On ten samples the default block size is 4 and three offsets are
    drawn; with the offsets 3, 0 and 7 the index sequence is as follows. *)
Example example_block_indices :
  ceil_sqrt 10 = 4
  /\ random_choice (fun i => 7 * i + 3) 10 (10 / 4 + 1) = Ok [3; 0; 7]
  /\ TS.permuted_indices (fun i => 7 * i + 3) 4 10 = Ok [3; 4; 5; 6; 0; 1; 2; 3; 7; 8].
Proof. repeat split; vm_compute; reflexivity. Qed.

(** C9 as stated fails.  On ten samples with the default block size 4 the
    specification's count of offsets is [ceil(10/4) + 1 = 4], the wrapper
    draws [10 // 4 + 1 = 3].  And [MGC_TS.p_value] does not sample offsets
    from [0, 10) at all: it shuffles the block numbers 0, 1, 2 and takes
    them as offsets, so that the index sequence of the offsets 5, 5, 5,
    which the wrapper yields for some state of the generator, is one it can
    never yield. *)
Lemma block_bootstrap_not_as_specified :
  ceil_sqrt 10 = 4
  /\ spec_offsets_count 10 4 = 4
  /\ (exists offsets,
        random_choice (fun i => 7 * i + 3) 10 (10 / 4 + 1) = Ok offsets
        /\ length offsets = 3)
  /\ (exists tape, TS.permuted_indices tape 4 10 = Ok [5; 6; 7; 8; 5; 6; 7; 8; 5; 6])
  /\ ~ (exists tape, MGC_TS.permuted_indices tape 4 10 = Ok [5; 6; 7; 8; 5; 6; 7; 8; 5; 6]).
Proof.
  split; [reflexivity|]. split; [reflexivity|]. split; [|split].
  - eexists. split; reflexivity.
  - exists (fun _ => 5). reflexivity.
  - intros [tape H]. unfold MGC_TS.permuted_indices in H.
    destruct (decide (4 = 0)) as [?|_]; [lia|].
    change (10 / 4 + 1) with 3 in H.
    pose proof (random_permutation_Permutation tape 3) as Hp.
    destruct (random_permutation tape 3) as [|a [|b [|c [|d p]]]];
      try (apply Permutation_length in Hp; simpl in Hp; lia).
    injection H as Ha _.
    assert (Hin : In a (seq 0 3)).
    { eapply Permutation_in; [exact Hp|]. left. reflexivity. }
    simpl in Hin. lia.
Qed.

(** ** The exact p-value (C1) *)

Lemma inject_nat_pos (k : nat) : 0 < k -> (0 < inject_Z (Z.of_nat k))%Q.
Proof.
  intros Hk. change 0%Q with (inject_Z 0). rewrite <- Zlt_Qlt. lia.
Qed.

(** Lines 210 to 212 on [R >= 1] replicates: the fraction of replicates
    strictly above the observed statistic, or [1/R] when there is none; in
    either case a number in (0, 1]. *)
Lemma exact_p_value_spec (null : list Q) (stat : Q) (R : nat) :
  0 < R -> length null = R ->
  let c := length (filter (fun s => Qlt_bool stat s = true) null) in
  let p := TS.exact_p_value null stat R in
  (c = 0 -> (p == 1 / inject_Z (Z.of_nat R))%Q)
  /\ (0 < c -> (p == inject_Z (Z.of_nat c) / inject_Z (Z.of_nat R))%Q)
  /\ (0 < p)%Q /\ (p <= 1)%Q.
Proof.
  intros HR Hlen. cbv zeta. unfold TS.exact_p_value.
  set (c := length (filter (fun s => Qlt_bool stat s = true) null)).
  assert (Hc : c <= R).
  { unfold c. rewrite <- Hlen. apply length_filter. }
  pose proof (inject_nat_pos R HR) as HRq.
  assert (H1R : (0 < 1 / inject_Z (Z.of_nat R))%Q).
  { apply Qlt_shift_div_l; [exact HRq|]. rewrite Qmult_0_l. reflexivity. }
  assert (H1R' : (1 / inject_Z (Z.of_nat R) <= 1)%Q).
  { apply Qle_shift_div_r; [exact HRq|]. rewrite Qmult_1_l.
    change 1%Q with (inject_Z 1). rewrite <- Zle_Qle. lia. }
  destruct (Nat.eq_dec c 0) as [Hc0|Hc0].
  - rewrite Hc0. change (inject_Z (Z.of_nat 0)) with 0%Q.
    assert (Hz : Qeq_bool (0 / inject_Z (Z.of_nat R)) 0 = true).
    { apply Qeq_bool_iff. unfold Qdiv. apply Qmult_0_l. }
    rewrite Hz. repeat split; auto; try reflexivity. intros; lia.
  - assert (Hcq : (0 < inject_Z (Z.of_nat c) / inject_Z (Z.of_nat R))%Q).
    { apply Qlt_shift_div_l; [exact HRq|]. rewrite Qmult_0_l. apply inject_nat_pos. lia. }
    destruct (Qeq_bool (inject_Z (Z.of_nat c) / inject_Z (Z.of_nat R)) 0) eqn:E.
    { apply Qeq_bool_iff in E. rewrite E in Hcq. exfalso. exact (Qlt_irrefl _ Hcq). }
    repeat split; auto; try reflexivity; try (intros; lia).
    apply Qle_shift_div_r; [exact HRq|]. rewrite Qmult_1_l. rewrite <- Zle_Qle. lia.
Qed.

Lemma mapM_length {A B} (f : A -> result B) (l : list A) (k : list B) :
  mapM f l = Ok k -> length k = length l.
Proof.
  intros H. apply mapM_Ok_inv in H. symmetry. eapply Forall2_length. exact H.
Qed.

(** The wrapper in exact mode does what C1 says: a call that returns has
    at least one replicate, returns the replicates as [null_distribution],
    and its p-value is the fraction of them strictly above the observed
    statistic, [1/R] if there is none, hence in (0, 1]. *)
Lemma wrapper_exact_p_value (sqrt_f : Q -> Q) (chi2_cdf : Q -> Z -> Q) (self : TS.t)
    (X Y : ndarray) (R : nat) (block_size : option nat) (subsample_size : Z)
    (rng : nat -> nat -> nat) (p : Q) (md : pydict) :
  TS.p_value sqrt_f chi2_cdf self X Y R false block_size subsample_size rng = Ok (p, md) ->
  exists DX DY bs M n stat md0 null,
    TS._validate_input self X Y block_size (TS.max_lag self) = Ok (DX, DY, bs, M, n)
    /\ TS.test_statistic self (Arr2 DX) (Arr2 DY) = Ok (stat, md0)
    /\ mapM (fun rep => TS.worker self DX DY bs n (rng rep)) (seq 0 R) = Ok null
    /\ md !! "null_distribution" = Some (PArr null)
    /\ 0 < R /\ length null = R
    /\ (let c := length (filter (fun s => Qlt_bool stat s = true) null) in
        (c = 0 -> (p == 1 / inject_Z (Z.of_nat R))%Q)
        /\ (0 < c -> (p == inject_Z (Z.of_nat c) / inject_Z (Z.of_nat R))%Q))
    /\ (0 < p)%Q /\ (p <= 1)%Q.
Proof.
  unfold TS.p_value. intros H.
  inv_bind H as [[[[DX DY] bs] M] n] Hv. cbn beta iota in H.
  inv_bind H as [stat md0] Hs. cbn beta iota in H.
  inv_bind H as null Hnull.
  destruct (decide (R = 0)) as [?|HR]; [discriminate H|]. injection H as <- <-.
  assert (Hlen : length null = R).
  { apply mapM_length in Hnull. rewrite length_seq in Hnull. exact Hnull. }
  destruct (exact_p_value_spec null stat R ltac:(lia) Hlen) as (H0 & H1 & Hpos & Hle).
  exists DX, DY, bs, M, n, stat, md0, null.
  repeat split; auto; try lia; apply lookup_singleton_eq.
Qed.

(** [MGC_TS.p_value] has no such floor (line 199): when every replicate is
    below the observed statistic, the fraction it returns is 0. *)
Lemma mgc_ts_null_fraction_zero (null : list Q) (stat : Q) (R : nat) :
  0 < R -> Forall (fun s => (s < stat)%Q) null ->
  MGC_TS.null_fraction null stat R = Ok (0 / inject_Z (Z.of_nat R))%Q.
Proof.
  intros HR Hall. unfold MGC_TS.null_fraction.
  destruct (decide (R = 0)) as [?|_]; [lia|].
  assert (Hnil : filter (fun s => Qle_bool stat s = true) null = []).
  { induction Hall as [|s l Hs _ IH]; [reflexivity|].
    rewrite filter_cons. destruct (decide (Qle_bool stat s = true)) as [Hle|_]; [|exact IH].
    apply Qle_bool_iff in Hle. exfalso. exact (Qlt_not_le _ _ Hs Hle). }
  rewrite Hnil. reflexivity.
Qed.

(** C1, on the code.  [MGC_TS.p_value] on five strongly dependent
    observations and three replicates: the observed statistic is 6, the
    replicates are 1, -2 and 1, and the p-value returned is [0/3], an exact
    zero; the wrapper on the same data returns [1/3]. *)
Theorem mgc_ts_p_value_zero :
  let X := Arr1 [0; 1; 2; 3; 4]%Q in
  let Y := Arr1 [0; 1; 2; 3; 5]%Q in
  let rng := fun rep i => rep + i in
  fst <$> MGC_TS.test_statistic Examples.sqrt_q (Examples.mgc_ts (Some 0%Z)) X Y
    = Ok (30 # 5)%Q
  /\ (fun r => (r.1, r.2 !! "test_stats_null")) <$>
       MGC_TS.p_value Examples.sqrt_q (Examples.mgc_ts (Some 0%Z)) X Y 3 rng
     = Ok ((0 # 3)%Q, Some (PArr [5 # 5; -10 # 5; 5 # 5]%Q))
  /\ fst <$> TS.p_value Examples.sqrt_q Examples.chi2_q (Examples.ts 0) X Y 3 false None
               (-1) rng
     = Ok (1 # 3)%Q.
Proof. repeat split; vm_compute; reflexivity. Qed.

(** ** The fast p-value (C6, C7) *)

Section Fast_p_value.

Context (sqrt_f : Q -> Q) (chi2_cdf : Q -> Z -> Q).

Lemma effective_subsample_size_spec (self : TS.t) (n : nat) (ss : Z) :
  ((ss < TS.max_lag self + 10)%Z ->
     TS.effective_subsample_size self n ss
     = Z.max (TS.max_lag self + 10) (Z.of_nat (floor_sqrt n)))
  /\ ((TS.max_lag self + 10 <= ss)%Z -> TS.effective_subsample_size self n ss = ss)
  /\ (TS.max_lag self + 10 <= TS.effective_subsample_size self n ss)%Z.
Proof.
  unfold TS.effective_subsample_size.
  destruct (ss <? TS.max_lag self + 10)%Z eqn:E;
    [apply Z.ltb_lt in E|apply Z.ltb_ge in E]; repeat split; intros; lia.
Qed.

Lemma num_subsamples_Ok (self : TS.t) (n : nat) (ss : Z) :
  (0 <= TS.max_lag self)%Z ->
  TS.num_subsamples self n ss
  = Ok (Z.of_nat n / TS.effective_subsample_size self n ss)%Z.
Proof.
  intros HM. unfold TS.num_subsamples.
  destruct (ss <? TS.max_lag self + 10)%Z eqn:E; [reflexivity|].
  destruct (effective_subsample_size_spec self n ss) as (_ & _ & Hge).
  destruct (TS.effective_subsample_size self n ss =? 0)%Z eqn:E0; [|reflexivity].
  apply Z.eqb_eq in E0. lia.
Qed.

(** In fast mode [p_value] has the observed statistic computed before
    [_fast_p_value] looks at the subsample size: if that computation
    raises, its exception is the outcome. *)
Lemma fast_mode_observed_statistic_first (self : TS.t) (X Y : ndarray) (R : nat)
    (block_size : option nat) (ss : Z) (rng : nat -> nat -> nat)
    (DX DY : matrix) (bs : nat) (M : Z) (n : nat) (e : exn) :
  TS._validate_input self X Y block_size (TS.max_lag self) = Ok (DX, DY, bs, M, n) ->
  TS.test_statistic self (Arr2 DX) (Arr2 DY) = Raise e ->
  TS.p_value sqrt_f chi2_cdf self X Y R true block_size ss rng = Raise e.
Proof.
  intros Hv Hs. unfold TS.p_value. rewrite Hv. cbn. rewrite Hs. reflexivity.
Qed.

End Fast_p_value.

(** C6, as amended.  With a non-negative maximum lag, a subsample size
    below [max_lag + 10] is not an error: line 258 replaces it by
    [max(max_lag + 10, floor(sqrt n))], and a size of at least
    [max_lag + 10] is kept.  When fewer than 4 subsamples of the size in
    force fit ([n // size < 4]), [_fast_p_value] raises the [ValueError] of
    line 265, whatever the base test and the generator are: nothing has
    been resampled and no statistic of a subsample computed by then.  When
    4 or more fit, it goes on to resample Y and to compute the statistics
    of the [n // size] subsamples of that size. *)
Theorem fast_subsample_check (sqrt_f : Q -> Q) (chi2_cdf : Q -> Z -> Q) (self : TS.t)
    (X Y : matrix) (stat : Q) (block_size : nat) (subsample_size : Z)
    (tape : nat -> nat) :
  (0 <= TS.max_lag self)%Z ->
  let n := nrows X in
  let size := TS.effective_subsample_size self n subsample_size in
  let num_samples := (Z.of_nat n / size)%Z in
  ((subsample_size < TS.max_lag self + 10)%Z ->
     size = Z.max (TS.max_lag self + 10) (Z.of_nat (floor_sqrt n)))
  /\ ((TS.max_lag self + 10 <= subsample_size)%Z -> size = subsample_size)
  /\ ((num_samples < 4)%Z ->
        TS._fast_p_value sqrt_f chi2_cdf self X Y stat block_size subsample_size tape
        = Raise (ValueError
            "n must be at least 4*(max_lag + max(sqrt(n), 10)) to use fast implementation."))
  /\ ((4 <= num_samples)%Z ->
        TS._fast_p_value sqrt_f chi2_cdf self X Y stat block_size subsample_size tape
        = (permuted_Y ← TS.permute tape Y block_size n;
           test_stats_null ←
             mapM (TS.fast_worker self X permuted_Y size) (seq 0 (Z.to_nat num_samples));
           Ok ((1 - chi2_cdf (TS.standardized sqrt_f test_stats_null num_samples stat)
                            1%Z)%Q,
               {["null_distribution" := PArr test_stats_null]}))).
Proof.
  intros HM. cbv zeta.
  destruct (effective_subsample_size_spec self (nrows X) subsample_size) as (H1 & H2 & _).
  split; [exact H1|]. split; [exact H2|]. split.
  - intros Hfew. unfold TS._fast_p_value. rewrite num_subsamples_Ok by exact HM. cbn.
    apply Z.ltb_lt in Hfew. rewrite Hfew. reflexivity.
  - intros Hfit. unfold TS._fast_p_value. rewrite num_subsamples_Ok by exact HM. cbn.
    apply Z.ltb_ge in Hfit. rewrite Hfit. reflexivity.
Qed.

Lemma fast_subsample_check_witness :
  TS.effective_subsample_size (Examples.ts 0) (nrows (Examples.line 20)) (-1)
  = Z.max (TS.max_lag (Examples.ts 0) + 10) (Z.of_nat (floor_sqrt (nrows (Examples.line 20))))
  /\ TS._fast_p_value Examples.sqrt_q Examples.chi2_q (Examples.ts 0)
       (Examples.line 20) (Examples.far 20) 0%Q 5 (-1) (fun i => 3 * i)
     = Raise (ValueError
         "n must be at least 4*(max_lag + max(sqrt(n), 10)) to use fast implementation.").
Proof.
  destruct (fast_subsample_check Examples.sqrt_q Examples.chi2_q (Examples.ts 0)
              (Examples.line 20) (Examples.far 20) 0%Q 5 (-1)%Z (fun i => 3 * i))
    as (Hsmall & _ & Hfew & _).
  - simpl. lia.
  - split.
    + apply Hsmall. simpl. lia.
    + apply Hfew. vm_compute. reflexivity.
Defined.

(** C6 as stated fails: with the default [subsample_size = -1], which is
    below [max_lag + 10], the fast p-value of forty samples is computed,
    on four subsamples of size 10; no error is raised. *)
Lemma fast_small_subsample_size_accepted :
  (-1 < TS.max_lag (Examples.ts 0) + 10)%Z
  /\ TS.effective_subsample_size (Examples.ts 0) 40 (-1) = 10%Z
  /\ (fun r => (r.1, r.2 !! "null_distribution")) <$>
       TS.p_value Examples.sqrt_q Examples.chi2_q (Examples.ts 0)
         (Arr2 (Examples.line 40)) (Arr2 (Examples.far 40)) 1000 true None (-1)
         (fun _ i => 3 * i)
     = Ok (1%Q, Some (PArr [0; 0; 0; 0]%Q)).
Proof.
  split; [simpl; lia|]. split; [reflexivity|]. vm_compute. reflexivity.
Qed.

Lemma threshold_value : (10e-4 == 1 # 1000)%Q.
Proof. reflexivity. Qed.

(** C7, as amended.  A fast p-value that is returned comes with the
    statistics of the [num_samples >= 4] subsamples as [null_distribution];
    with [mu] their mean and [sigma] their standard deviation, it is
    [1 - chi2_cdf(x, 1)] where [x] is 0 if [sigma < 10e-4], that is
    [sigma < 0.001], and [num_samples*(observed - mu)/sigma + 1]
    otherwise. *)
Theorem fast_p_value_formula (sqrt_f : Q -> Q) (chi2_cdf : Q -> Z -> Q) (self : TS.t)
    (X Y : matrix) (stat : Q) (block_size : nat) (subsample_size : Z)
    (tape : nat -> nat) (p : Q) (md : pydict) :
  TS._fast_p_value sqrt_f chi2_cdf self X Y stat block_size subsample_size tape
    = Ok (p, md) ->
  exists (null : list Q) (num_samples : Z),
    md !! "null_distribution" = Some (PArr null)
    /\ TS.num_subsamples self (nrows X) subsample_size = Ok num_samples
    /\ (4 <= num_samples)%Z
    /\ Z.of_nat (length null) = num_samples
    /\ (let mu := mean null in
        let sigma := std sqrt_f null in
        ((sigma < 1 # 1000)%Q -> p = (1 - chi2_cdf 0%Q 1%Z)%Q)
        /\ ((1 # 1000 <= sigma)%Q ->
              p = (1 - chi2_cdf (inject_Z num_samples * (stat - mu) / sigma + 1)%Q 1%Z)%Q)).
Proof.
  unfold TS._fast_p_value. intros H.
  inv_bind H as num_samples Hnum.
  destruct (num_samples <? 4)%Z eqn:E4; [discriminate H|]. apply Z.ltb_ge in E4.
  inv_bind H as permuted_Y Hperm. inv_bind H as null Hnull.
  injection H as <- <-.
  exists null, num_samples. split; [apply lookup_singleton_eq|].
  split; [exact Hnum|]. split; [exact E4|]. split.
  { apply mapM_length in Hnull. rewrite length_seq in Hnull. lia. }
  cbv zeta. unfold TS.standardized. split.
  - intros Hlt. rewrite <- threshold_value in Hlt. apply Qlt_bool_iff in Hlt.
    rewrite Hlt. reflexivity.
  - intros Hge. rewrite <- threshold_value in Hge. apply Qlt_bool_false in Hge.
    rewrite Hge. reflexivity.
Qed.

Lemma fast_p_value_formula_witness :
  exists p md,
    TS._fast_p_value Examples.sqrt_q Examples.chi2_q (Examples.ts 0)
      (Examples.line 40) (Examples.wobble 40 10 (9 # 88000)) (779 # 9)%Q 40 (-1)
      (fun _ => 0) = Ok (p, md)
    /\ exists (null : list Q) (num_samples : Z),
         md !! "null_distribution" = Some (PArr null)
         /\ TS.num_subsamples (Examples.ts 0) (nrows (Examples.line 40)) (-1)
            = Ok num_samples
         /\ (4 <= num_samples)%Z
         /\ Z.of_nat (length null) = num_samples
         /\ (let mu := mean null in
             let sigma := std Examples.sqrt_q null in
             ((sigma < 1 # 1000)%Q -> p = (1 - Examples.chi2_q 0%Q 1%Z)%Q)
             /\ ((1 # 1000 <= sigma)%Q ->
                   p = (1 - Examples.chi2_q
                              (inject_Z num_samples * ((779 # 9) - mu) / sigma + 1)%Q
                              1%Z)%Q)).
Proof.
  assert (E : TS._fast_p_value Examples.sqrt_q Examples.chi2_q (Examples.ts 0)
                (Examples.line 40) (Examples.wobble 40 10 (9 # 88000)) (779 # 9)%Q 40 (-1)
                (fun _ => 0)
              = Ok ((1 - Examples.chi2_q 0%Q 1%Z)%Q,
                    {["null_distribution" :=
                        PArr [88009 # 18000; 88009 # 18000; 87991 # 18000;
                              87991 # 18000]%Q]})).
  { vm_compute. reflexivity. }
  eexists _, _. split; [exact E|].
  exact (fast_p_value_formula _ _ _ _ _ _ _ _ _ _ _ E).
Defined.

(** C7 as stated fails between the two thresholds.  Forty samples whose
    four subsamples have the statistics below: their standard deviation is
    [1/2000], which is not below [1e-4] but is below the [10e-4] of line
    284.  The code takes [x = 0] and returns the p-value [1 - chi2_cdf(0)];
    by the specification [x] would be [4*(observed - mu)/sigma + 1], here
    [1960003/3]. *)
Lemma fast_threshold_between :
  let X := Examples.line 40 in
  let Y := Examples.wobble 40 10 (9 # 88000) in
  let null := [88009 # 18000; 88009 # 18000; 87991 # 18000; 87991 # 18000]%Q in
  let observed := Np.sum [Qmax 0 (779 # 9)] in
  fst <$> TS.test_statistic (Examples.ts 0) (Arr2 X) (Arr2 Y) = Ok observed
  /\ (fun r => (r.1, r.2 !! "null_distribution")) <$>
       TS.p_value Examples.sqrt_q Examples.chi2_q (Examples.ts 0) (Arr2 X) (Arr2 Y)
         1000 true (Some 40) (-1) (fun _ _ => 0)
     = Ok ((1 - Examples.chi2_q 0 1)%Q, Some (PArr null))
  /\ (std Examples.sqrt_q null == 1 # 2000)%Q
  /\ (1e-4 <= 1 # 2000)%Q /\ (1 # 2000 < 10e-4)%Q
  /\ (TS.standardized Examples.sqrt_q null 4 observed == 0)%Q
  /\ (spec_standardized Examples.sqrt_q null 4 observed == 1960003 # 3)%Q
  /\ ~ (1 - Examples.chi2_q (spec_standardized Examples.sqrt_q null 4 observed) 1
        == 1 - Examples.chi2_q 0 1)%Q.
Proof.
  cbv zeta. split; [vm_compute; reflexivity|]. split; [vm_compute; reflexivity|].
  split; [vm_compute; reflexivity|]. split; [intros H; discriminate H|].
  split; [reflexivity|]. split; [vm_compute; reflexivity|].
  split; [vm_compute; reflexivity|]. intros H. vm_compute in H. discriminate H.
Qed.

(** ** The lag statistic of [MGC_TS] (C10) *)

Section MGC_TS_formula.

Context (sqrt_f : Q -> Q) (self : MGC_TS.t) (DX DY : matrix) (n : nat) (M : Z).

Lemma mgc_ts_lag_step (acc : Q) (j : nat) :
  base_succeeds self DX DY n j ->
  ~ (sqrt_f (inject_Z (Z.of_nat n)) * inject_Z (M + 1) == 0)%Q ->
  exists acc',
    MGC_TS.lag_step self DX DY n (sqrt_f (inject_Z (Z.of_nat n))) M acc j = Ok acc'
    /\ (acc' == acc + lag_terms sqrt_f self DX DY n M j)%Q.
Proof.
  intros [[[s1 m1] H1] [[s2 m2] H2]] Hd.
  unfold MGC_TS.lag_step, MGC_TS.weight. cbv zeta.
  rewrite H1. cbn. rewrite H2. cbn.
  destruct (Qeq_bool (sqrt_f (inject_Z (Z.of_nat n)) * inject_Z (M + 1)) 0) eqn:E.
  { apply Qeq_bool_iff in E. contradiction. }
  cbn. eexists. split; [reflexivity|].
  unfold lag_terms, lag_weight, x_leads, y_leads. rewrite H1, H2. simpl stat_of. ring.
Qed.

Lemma mgc_ts_loop (l : list nat) (acc : Q) :
  (forall j, j ∈ l -> base_succeeds self DX DY n j) ->
  (l ≠ [] -> ~ (sqrt_f (inject_Z (Z.of_nat n)) * inject_Z (M + 1) == 0)%Q) ->
  exists r,
    foldM (MGC_TS.lag_step self DX DY n (sqrt_f (inject_Z (Z.of_nat n))) M) l acc = Ok r
    /\ (r == acc + Np.sum (map (lag_terms sqrt_f self DX DY n M) l))%Q.
Proof.
  revert acc. induction l as [|j l IH]; intros acc Hb Hd.
  - exists acc. split; [reflexivity|]. simpl. ring.
  - destruct (mgc_ts_lag_step acc j) as (acc' & Hstep & Hacc');
      [apply Hb; apply list_elem_of_here|apply Hd; discriminate|].
    destruct (IH acc') as (r & Hr & Hsum).
    + intros k Hk. apply Hb. apply list_elem_of_further. exact Hk.
    + intros _. apply Hd. discriminate.
    + exists r. split; [cbn [foldM]; rewrite Hstep; exact Hr|].
      rewrite Hsum, Hacc'. cbn [map Np.sum foldr].
      fold (Np.sum (map (lag_terms sqrt_f self DX DY n M) l)). ring.
Qed.

Lemma lag_weight_nonneg (j : nat) : (0 <= lag_weight sqrt_f n M j)%Q.
Proof.
  unfold lag_weight.
  set (x := (1 - inject_Z (Z.of_nat j)
                 / (sqrt_f (inject_Z (Z.of_nat n)) * inject_Z (M + 1)))%Q).
  change (x ^ 2)%Q with (x * x)%Q. nra.
Qed.

Lemma lag_terms_nonpos (j : nat) :
  j <= n ->
  (x_leads self DX DY n j <= 0)%Q -> (y_leads self DX DY n j <= 0)%Q ->
  (lag_terms sqrt_f self DX DY n M j <= 0)%Q.
Proof.
  intros Hj Hx Hy. unfold lag_terms.
  assert (Hw : (0 <= lag_weight sqrt_f n M j * inject_Z (Z.of_nat n - Z.of_nat j))%Q).
  { apply Qmult_le_0_compat; [apply lag_weight_nonneg|].
    change 0%Q with (inject_Z 0). rewrite <- Zle_Qle. lia. }
  set (w := (lag_weight sqrt_f n M j * inject_Z (Z.of_nat n - Z.of_nat j))%Q) in *.
  assert (H1 : (w * x_leads self DX DY n j <= 0)%Q) by nra.
  assert (H2 : (w * y_leads self DX DY n j <= 0)%Q) by nra.
  lra.
Qed.

End MGC_TS_formula.

Lemma sum_nonpos {A} (f : A -> Q) (l : list A) :
  (forall x, x ∈ l -> (f x <= 0)%Q) -> (Np.sum (map f l) <= 0)%Q.
Proof.
  induction l as [|x l IH]; intros Hf; [apply Qle_refl|].
  cbn [map Np.sum foldr]. fold (Np.sum (map f l)).
  assert (H1 : (f x <= 0)%Q) by (apply Hf; apply list_elem_of_here).
  assert (H2 : (Np.sum (map f l) <= 0)%Q).
  { apply IH. intros y Hy. apply Hf. apply list_elem_of_further. exact Hy. }
  lra.
Qed.

(** C10.  [MGC_TS.test_statistic], on inputs of [n] samples each for which
    the base test returns at every lag, returns [n] times the lag-0 base
    statistic plus, for each lag [j] of [1..max_lag], the weight
    [(1 - j/(sqrt(n)*(max_lag+1)))^2] times [n - j] times the base
    statistic, once with X leading Y and once with Y leading X.  No
    contribution is floored at 0: when the lag-0 statistic is negative and
    no lagged one is positive, the statistic returned is negative. *)
Theorem mgc_ts_statistic_formula (sqrt_f : Q -> Q) (self : MGC_TS.t) (X Y : ndarray)
    (DX DY : matrix) :
  let n := shape0 X in
  let M := match MGC_TS.max_lag self with
           | Some m => m
           | None => Z.of_nat (ceil_sqrt n)
           end in
  shape0 X = shape0 Y ->
  compute_distance (as_column X) (as_column Y) (MGC_TS.compute_distance_matrix self)
    = Ok (DX, DY) ->
  is_Ok (MGC_TS.mgc_object self DX DY) ->
  (forall j, 1 <= j <= Z.to_nat M -> base_succeeds self DX DY n j) ->
  ((1 <= M)%Z -> ~ (sqrt_f (inject_Z (Z.of_nat n)) * inject_Z (M + 1) == 0)%Q) ->
  exists v md,
    MGC_TS.test_statistic sqrt_f self X Y = Ok (v, md)
    /\ (v == mgc_ts_formula sqrt_f self DX DY n M)%Q
    /\ (0 < n -> (M <= Z.of_nat n)%Z ->
        (stat_of (MGC_TS.mgc_object self DX DY) < 0)%Q ->
        (forall j, 1 <= j <= Z.to_nat M ->
           (x_leads self DX DY n j <= 0)%Q /\ (y_leads self DX DY n j <= 0)%Q) ->
        (v < 0)%Q).
Proof.
  intros n M Hn Hcd [[s0 m0] H0] Hbase Hd.
  destruct (mgc_ts_loop sqrt_f self DX DY n M (seq 1 (Z.to_nat M))
              (inject_Z (Z.of_nat n) * s0)%Q) as (r & Hr & Hsum).
  { intros j Hj. apply elem_of_seq in Hj. apply Hbase. lia. }
  { intros Hne. apply Hd. destruct (Z.to_nat M) eqn:E; [contradiction|lia]. }
  exists r. eexists. split; [|split].
  - unfold MGC_TS.test_statistic.
    destruct (decide (shape0 X = shape0 Y)) as [_|?]; [|contradiction].
    rewrite Hcd. cbn. rewrite H0. cbn. fold n. fold M. rewrite Hr. cbn. reflexivity.
  - rewrite Hsum. unfold mgc_ts_formula. rewrite H0. reflexivity.
  - intros Hn0 HMn Hs0 Hlag. rewrite Hsum. rewrite H0 in Hs0. simpl in Hs0.
    assert (Hsumle : (Np.sum (map (lag_terms sqrt_f self DX DY n M) (seq 1 (Z.to_nat M)))
                      <= 0)%Q).
    { apply sum_nonpos. intros j Hj. apply elem_of_seq in Hj.
      destruct (Hlag j) as [Hx Hy]; [lia|].
      apply lag_terms_nonpos; [lia|exact Hx|exact Hy]. }
    pose proof (inject_nat_pos n Hn0) as Hnq.
    assert (Hns : (inject_Z (Z.of_nat n) * s0 < 0)%Q) by nra.
    lra.
Qed.

Lemma mgc_ts_statistic_formula_witness :
  exists v md,
    MGC_TS.test_statistic Examples.sqrt_q (Examples.mgc_ts (Some 1%Z))
      (Arr2 (Examples.line 5)) (Arr2 (Examples.far 5)) = Ok (v, md)
    /\ (v == mgc_ts_formula Examples.sqrt_q (Examples.mgc_ts (Some 1%Z))
              (Examples.line 5) (Examples.far 5) 5 1)%Q
    /\ (v < 0)%Q.
Proof.
  destruct (mgc_ts_statistic_formula Examples.sqrt_q (Examples.mgc_ts (Some 1%Z))
              (Arr2 (Examples.line 5)) (Arr2 (Examples.far 5))
              (Examples.line 5) (Examples.far 5)) as (v & md & E & Hformula & Hneg).
  - reflexivity.
  - vm_compute. reflexivity.
  - eexists. reflexivity.
  - intros j Hj. split; eexists; reflexivity.
  - intros _ H. vm_compute in H. discriminate H.
  - exists v, md. split; [exact E|]. split; [exact Hformula|].
    apply Hneg.
    + simpl. lia.
    + simpl. lia.
    + vm_compute. reflexivity.
    + intros j Hj. assert (j = 1) as -> by (simpl in Hj; lia).
      split; vm_compute; intros H; discriminate H.
Defined.

(** On these five samples the statistic is [-5] with a maximum lag of 0,
    and below [-7.67] with a maximum lag of 1; the wrapper, which floors
    every lag at 0, gives 0. *)
Example example_mgc_ts_values :
  fst <$> MGC_TS.test_statistic Examples.sqrt_q (Examples.mgc_ts (Some 0%Z))
            (Arr2 (Examples.line 5)) (Arr2 (Examples.far 5)) = Ok (-5 # 1)%Q
  /\ (fun r => Qlt_bool r.1 (-767 # 100)) <$>
       MGC_TS.test_statistic Examples.sqrt_q (Examples.mgc_ts (Some 1%Z))
         (Arr2 (Examples.line 5)) (Arr2 (Examples.far 5))
     = Ok true
  /\ fst <$> TS.test_statistic (Examples.ts 0) (Arr2 (Examples.line 5))
               (Arr2 (Examples.far 5)) = Ok 0%Q.
Proof. repeat split; vm_compute; reflexivity. Qed.

(** * Further properties *)

(** Closes an equation between closed terms by evaluating its two sides
    (a conversion the kernel checks with its virtual machine). *)
Ltac by_evaluation :=
  match goal with
  | |- ?a = ?b => exact (@eq_refl _ b <: a = b)
  end.

(** ** The statistic of the wrapper, lag by lag *)

Lemma getkey_Ok (d : pydict) (key : string) (v : pyval) :
  getkey d key = Ok v <-> d !! key = Some v.
Proof.
  unfold getkey. destruct (d !! key); split; intros H; try discriminate; congruence.
Qed.

Lemma lag_loop_state_step (self : TS.t) (DX DY : matrix) (n L j : nat)
    (st st' : list Q * nat * pyval) :
  0 < j ->
  lag_loop_state self DX DY n L j st ->
  TS.lag_step self DX DY n st j = Ok st' ->
  lag_loop_state self DX DY n L (S j) st'.
Proof.
  destruct st as [[dbl opt] scale]. intros Hj (Hlen & Hopt & Hfill & Hzero & Hscale) Hstep.
  unfold TS.lag_step in Hstep.
  inv_bind Hstep as [s m] Hs. cbn beta iota in Hstep.
  inv_bind Hstep as dbl' Hd. apply setitem_Ok in Hd. destruct Hd as [Hjl ->].
  inv_bind Hstep as cur Hcur. inv_bind Hstep as best Hbest.
  fold (lag_contribution n j s) in *.
  assert (Hbase : base_at_lag self DX DY n j = Ok (s, m)).
  { destruct j; [lia|exact Hs]. }
  assert (Hdep : dependence_at_lag self DX DY n j = lag_contribution n j s).
  { destruct j; [lia|]. unfold dependence_at_lag. rewrite Hbase. reflexivity. }
  assert (Hfill' : forall i, i < S j ->
            is_Ok (base_at_lag self DX DY n i)
            /\ <[j := lag_contribution n j s]> dbl !! i
               = Some (dependence_at_lag self DX DY n i)).
  { intros i Hi. destruct (decide (i = j)) as [->|Hne].
    - split; [eexists; exact Hbase|]. rewrite list_lookup_insert_eq by exact Hjl.
      rewrite Hdep. reflexivity.
    - rewrite list_lookup_insert_ne by lia. apply Hfill. lia. }
  assert (Hzero' : forall i x, S j <= i ->
            <[j := lag_contribution n j s]> dbl !! i = Some x -> x = 0%Q).
  { intros i x Hi Hx. rewrite list_lookup_insert_ne in Hx by lia. apply (Hzero i); [lia|auto]. }
  destruct (Qlt_bool best cur).
  - inv_bind Hstep as scale' Hsc. injection Hstep as <-.
    split; [rewrite length_insert; exact Hlen|]. split; [lia|].
    split; [exact Hfill'|]. split; [exact Hzero'|].
    intros Hmg. rewrite Hmg in Hsc. apply getkey_Ok in Hsc. exists s, m. auto.
  - injection Hstep as <-.
    split; [rewrite length_insert; exact Hlen|]. split; [lia|].
    split; [exact Hfill'|]. split; [exact Hzero'|exact Hscale].
Qed.

(** What a test statistic that is returned is made of. *)
Lemma wrapper_statistic_anatomy (self : TS.t) (X Y : ndarray) (v : Q) (md : pydict) :
  TS.test_statistic self X Y = Ok (v, md) ->
  let n := shape0 X in
  let M := TS.max_lag self in
  exists DX DY dbl opt scale,
    compute_distance (as_column X) (as_column Y) (TS.compute_distance_matrix self)
      = Ok (DX, DY)
    /\ (0 <= M < Z.of_nat n - 4)%Z
    /\ v = Np.sum dbl
    /\ md = ts_metadata self dbl opt scale
    /\ lag_loop_state self DX DY n (Z.to_nat (M + 1)) (1 + Z.to_nat M) (dbl, opt, scale).
Proof.
  intros H. apply ts_test_statistic_Ok in H. cbv zeta in H.
  destruct H as (Hn & HM & DX & DY & s & m0 & scale0 & dbl0 & dbl & opt & scale
                 & Hcd & HM1 & Hs & Hsc & Hd0 & Hloop & -> & ->).
  cbv zeta. exists DX, DY, dbl, opt, scale.
  apply setitem_Ok in Hd0. destruct Hd0 as [HL ->].
  unfold zeros in *. rewrite length_replicate in HL.
  split; [exact Hcd|]. split; [lia|]. split; [reflexivity|]. split; [reflexivity|].
  apply (foldM_seq_inv _ (lag_loop_state self DX DY (shape0 X) (Z.to_nat (TS.max_lag self + 1)))
           _ _ _ _ Hloop).
  - split; [rewrite length_insert, length_replicate; reflexivity|]. split; [lia|].
    split; [|split].
    + intros i Hi. assert (i = 0) as -> by lia. split; [eexists; exact Hs|].
      rewrite list_lookup_insert_eq by (rewrite length_replicate; exact HL).
      simpl. rewrite Hs. reflexivity.
    + intros i x Hi Hx. rewrite list_lookup_insert_ne in Hx by lia.
      apply lookup_replicate in Hx. tauto.
    + intros Hmg. rewrite Hmg in Hsc. apply getkey_Ok in Hsc.
      exists s, m0. simpl. auto.
  - intros j t t' Hj Hinv Hstep.
    apply (lag_loop_state_step self DX DY (shape0 X) _ j t t'); auto. lia.
Qed.



(** X2.  For the test named [mgcx] the metadata of a successful call holds
    under [optimal_scale] the scale the base test returned at the lag
    reported as [optimal_lag]; for any other test there is no such key. *)
Theorem optimal_scale_of_optimal_lag (self : TS.t) (X Y : ndarray) (v : Q) (md : pydict) :
  TS.test_statistic self X Y = Ok (v, md) ->
  (TS.is_mgcx self = false -> md !! "optimal_scale" = None)
  /\ (TS.is_mgcx self = true ->
        exists DX DY opt s m scale,
          compute_distance (as_column X) (as_column Y) (TS.compute_distance_matrix self)
            = Ok (DX, DY)
          /\ md !! "optimal_lag" = Some (PInt (Z.of_nat opt))
          /\ base_at_lag self DX DY (shape0 X) opt = Ok (s, m)
          /\ m !! "optimal_scale" = Some scale
          /\ md !! "optimal_scale" = Some scale).
Proof.
  intros H. destruct (wrapper_statistic_anatomy self X Y v md H)
    as (DX & DY & dbl & opt & scale & Hcd & HM & _ & -> & _ & _ & _ & _ & Hscale).
  split.
  - intros Hmg. unfold ts_metadata. rewrite Hmg.
    rewrite lookup_insert_ne by done. rewrite lookup_insert_ne by done. apply lookup_empty.
  - intros Hmg. destruct (Hscale Hmg) as (s & m & Hb & Hm).
    exists DX, DY, opt, s, m, scale. split; [exact Hcd|].
    split; [apply ts_metadata_lag|]. split; [exact Hb|]. split; [exact Hm|].
    unfold ts_metadata. rewrite Hmg. apply lookup_insert_eq.
Qed.

Lemma optimal_scale_of_optimal_lag_witness :
  let self := MoreExamples.mgcx 1 in
  let X := Arr1 [0; 3; 1; 5; 3; 4]%Q in
  let Y := Arr1 [3; 0; 3; 1; 5; 3]%Q in
  let md := ts_metadata self [0; 95 # 300]%Q 1 (PInt 5) in
  (TS.is_mgcx self = false -> md !! "optimal_scale" = None)
  /\ (TS.is_mgcx self = true ->
        exists DX DY opt s m scale,
          compute_distance (as_column X) (as_column Y) (TS.compute_distance_matrix self)
            = Ok (DX, DY)
          /\ md !! "optimal_lag" = Some (PInt (Z.of_nat opt))
          /\ base_at_lag self DX DY (shape0 X) opt = Ok (s, m)
          /\ m !! "optimal_scale" = Some scale
          /\ md !! "optimal_scale" = Some scale).
Proof.
  intros self X Y md.
  apply (optimal_scale_of_optimal_lag self X Y (Np.sum [0; 95 # 300]%Q) md).
  by_evaluation.
Defined.

Lemma sum_nonneg (l : list Q) : Forall (fun x => (0 <= x)%Q) l -> (0 <= Np.sum l)%Q.
Proof.
  induction 1 as [|x l Hx _ IH]; [apply Qle_refl|].
  cbn [Np.sum foldr]. fold (Np.sum l). lra.
Qed.

Lemma sum_at_most (l : list Q) (b : Q) :
  Forall (fun x => (x <= b)%Q) l -> (Np.sum l <= inject_Z (Z.of_nat (length l)) * b)%Q.
Proof.
  induction 1 as [|x l Hx _ IH]; [change (0 <= 0 * b)%Q; lra|].
  cbn [Np.sum foldr length]. fold (Np.sum l).
  rewrite Nat2Z.inj_succ. unfold Z.succ. rewrite inject_Z_plus. change (inject_Z 1) with 1%Q.
  lra.
Qed.

Lemma dependence_at_lag_bounds (self : TS.t) (DX DY : matrix) (n j : nat) (b : Q) :
  j <= n -> (0 <= b)%Q ->
  (stat_of (base_at_lag self DX DY n j) <= b)%Q ->
  (0 <= dependence_at_lag self DX DY n j <= b)%Q.
Proof.
  intros Hj Hb Hs. destruct j as [|j].
  - simpl in *. split; [apply Q.le_max_l|apply Q.max_lub; assumption].
  - unfold dependence_at_lag.
    set (s := stat_of (base_at_lag self DX DY n (S j))) in *.
    split; [apply lag_contribution_nonneg; exact Hj|].
    unfold lag_contribution.
    assert (Hm : (0 <= Qmax 0 s <= b)%Q)
      by (split; [apply Q.le_max_l|apply Q.max_lub; assumption]).
    assert (Hn : (0 < inject_Z (Z.of_nat n))%Q) by (apply inject_nat_pos; lia).
    apply Qle_shift_div_r; [exact Hn|].
    assert (Hd : (0 <= inject_Z (Z.of_nat n - Z.of_nat (S j)) <= inject_Z (Z.of_nat n))%Q).
    { split; [change 0%Q with (inject_Z 0)|]; rewrite <- Zle_Qle; lia. }
    nra.
Qed.

(** X3.  The statistic of the wrapper is never negative, and when the base
    test's statistic is at most [b >= 0] at every lag, it is at most
    [(max_lag + 1) * b]: with a base statistic that is at most 1, it lies
    in [[0, max_lag + 1]]. *)
Theorem wrapper_statistic_range (self : TS.t) (X Y : ndarray) (v : Q) (md : pydict) (b : Q) :
  TS.test_statistic self X Y = Ok (v, md) ->
  (0 <= v)%Q
  /\ ((0 <= b)%Q ->
      (forall DX DY j,
         compute_distance (as_column X) (as_column Y) (TS.compute_distance_matrix self)
           = Ok (DX, DY) ->
         (Z.of_nat j <= TS.max_lag self)%Z ->
         (stat_of (base_at_lag self DX DY (shape0 X) j) <= b)%Q) ->
      (v <= inject_Z (TS.max_lag self + 1) * b)%Q).
Proof.
  intros H. destruct (wrapper_statistic_anatomy self X Y v md H)
    as (DX & DY & dbl & opt & scale & Hcd & HM & -> & _ & Hlen & _ & Hfill & _).
  assert (Hall : forall b', (0 <= b')%Q ->
            (forall j, (Z.of_nat j <= TS.max_lag self)%Z ->
               (stat_of (base_at_lag self DX DY (shape0 X) j) <= b')%Q) ->
            Forall (fun x => (0 <= x <= b')%Q) dbl).
  { intros b' Hb' Hs. apply Forall_lookup. intros j x Hx.
    assert (Hj : j < length dbl) by (eapply lookup_lt_Some; exact Hx).
    destruct (Hfill j) as [_ Hd]; [lia|]. rewrite Hd in Hx. injection Hx as <-.
    apply dependence_at_lag_bounds; [lia|exact Hb'|apply Hs; lia]. }
  split.
  - apply sum_nonneg. apply Forall_lookup. intros j x Hx.
    assert (Hj : j < length dbl) by (eapply lookup_lt_Some; exact Hx).
    destruct (Hfill j) as [_ Hd]; [lia|]. rewrite Hd in Hx. injection Hx as <-.
    destruct j as [|j]; [apply Q.le_max_l|apply lag_contribution_nonneg; lia].
  - intros Hb Hs.
    replace (TS.max_lag self + 1)%Z with (Z.of_nat (length dbl)) by lia.
    apply sum_at_most. eapply Forall_impl; [apply (Hall b Hb)|].
    + intros j Hj. apply (Hs DX DY j Hcd Hj).
    + intros x [_ Hx]. exact Hx.
Qed.

Lemma wrapper_statistic_range_witness :
  let v := Np.sum [0; 95 # 300]%Q in
  (0 <= v)%Q /\ (v <= inject_Z (1 + 1) * 1)%Q.
Proof.
  intros v.
  destruct (wrapper_statistic_range (Examples.ts 1)
              (Arr1 [0; 3; 1; 5; 3; 4]%Q) (Arr1 [3; 0; 3; 1; 5; 3]%Q) v
              (ts_metadata (Examples.ts 1) [0; 95 # 300]%Q 1 PNone) 1%Q) as [H0 H1].
  - by_evaluation.
  - split; [exact H0|]. apply H1.
    + vm_compute. discriminate.
    + intros DX DY j Hcd Hj. vm_compute in Hcd. injection Hcd as <- <-.
      assert (Hc : j = 0 \/ j = 1) by (simpl in Hj; lia).
      destruct Hc as [-> | ->]; vm_compute; discriminate.
Defined.

Lemma is_Ok_Raise {A} (e : exn) : ~ is_Ok (@Raise A e).
Proof. intros [a Ha]. discriminate. Qed.

Lemma p_value_needs_statistic (sqrt_f : Q -> Q) (chi2_cdf : Q -> Z -> Q) (self : TS.t)
    (X Y : ndarray) (R : nat) (fast : bool) (block_size : option nat) (ss : Z)
    (rng : nat -> nat -> nat) (r : Q * pydict) :
  TS.p_value sqrt_f chi2_cdf self X Y R fast block_size ss rng = Ok r ->
  exists DX DY bs n stat md0,
    TS._validate_input self X Y block_size (TS.max_lag self)
      = Ok (DX, DY, bs, TS.max_lag self, n)
    /\ n = shape0 X
    /\ TS.test_statistic self (Arr2 DX) (Arr2 DY) = Ok (stat, md0).
Proof.
  unfold TS.p_value. intros H.
  inv_bind H as [[[[DX DY] bs] M] n] Hv.
  inv_bind H as [stat md0] Hs.
  pose proof Hv as Hv'. apply validate_input_Ok in Hv' as (_ & _ & DX' & DY' & _ & Hr).
  injection Hr as -> -> -> -> ->.
  exists DX', DY', (match block_size with None => ceil_sqrt (shape0 X) | Some b => b end),
         (shape0 X), stat, md0.
  split; [exact Hv|]. split; [reflexivity|exact Hs].
Qed.

(** X4.  The wrapper returns only on two samples of the same size [n] with
    [0 <= max_lag < n - 4], hence [n >= 5]: a negative [max_lag] passes
    the check of line 88 but never gives a result, neither from
    [test_statistic] nor from [p_value] in either mode. *)
Theorem wrapper_returns_only_for_valid_lag (sqrt_f : Q -> Q) (chi2_cdf : Q -> Z -> Q)
    (self : TS.t) (X Y : ndarray) (R : nat) (fast : bool) (block_size : option nat)
    (ss : Z) (rng : nat -> nat -> nat) :
  is_Ok (TS.test_statistic self X Y)
  \/ is_Ok (TS.p_value sqrt_f chi2_cdf self X Y R fast block_size ss rng) ->
  shape0 X = shape0 Y
  /\ (0 <= TS.max_lag self < Z.of_nat (shape0 X) - 4)%Z
  /\ 5 <= shape0 X.
Proof.
  assert (Hstat : forall X Y, is_Ok (TS.test_statistic self X Y) ->
            shape0 X = shape0 Y /\ (0 <= TS.max_lag self < Z.of_nat (shape0 X) - 4)%Z).
  { intros X' Y' [[v md] H].
    destruct (wrapper_statistic_anatomy self X' Y' v md H)
      as (DX & DY & dbl & opt & scale & _ & HM & _).
    apply ts_test_statistic_Ok in H as (Hn & _). split; [exact Hn|exact HM]. }
  intros [H | [r H]].
  - destruct (Hstat X Y H) as [Hn HM]. split; [exact Hn|]. split; [exact HM|lia].
  - destruct (p_value_needs_statistic _ _ _ _ _ _ _ _ _ _ _ H)
      as (DX & DY & bs & n & stat & md0 & Hv & -> & Hs).
    apply validate_input_Ok in Hv as (Hn & Hlt & _).
    destruct (Hstat (Arr2 DX) (Arr2 DY)) as [_ HM]; [eexists; exact Hs|].
    split; [exact Hn|]. split; lia.
Qed.

Lemma wrapper_returns_only_for_valid_lag_witness :
  let X := Arr1 [0; 3; 1; 5; 3; 4]%Q in
  shape0 X = shape0 (Arr1 [3; 0; 3; 1; 5; 3]%Q)
  /\ (0 <= TS.max_lag (Examples.ts 1) < Z.of_nat (shape0 X) - 4)%Z
  /\ 5 <= shape0 X.
Proof.
  intros X.
  apply (wrapper_returns_only_for_valid_lag Examples.sqrt_q Examples.chi2_q (Examples.ts 1)
           X (Arr1 [3; 0; 3; 1; 5; 3]%Q) 0 false None 0%Z (fun _ _ => 0)).
  left. exists (Np.sum [0; 95 # 300]%Q, ts_metadata (Examples.ts 1) [0; 95 # 300]%Q 1 PNone).
  by_evaluation.
Defined.

(** X5.  What a negative [max_lag] ends in, on two samples of the same size
    whose distances and lag-0 statistic are computed without error: with
    [max_lag = -1] the array of line 132 is empty and the assignment of
    line 139 is out of range, the base statistic having been computed;
    below [-1], [np.zeros] refuses the negative size before the base test
    is called at all. *)
Theorem negative_max_lag_outcome (self : TS.t) (X Y : ndarray) (DX DY : matrix)
    (s : Q) (m : pydict) :
  shape0 X = shape0 Y ->
  (TS.max_lag self < 0)%Z ->
  (TS.max_lag self < Z.of_nat (shape0 X) - 4)%Z ->
  compute_distance (as_column X) (as_column Y) (TS.compute_distance_matrix self)
    = Ok (DX, DY) ->
  ((TS.max_lag self < -1)%Z ->
     TS.test_statistic self X Y = Raise (ValueError "negative dimensions are not allowed"))
  /\ (TS.max_lag self = (-1)%Z ->
      TS.test_obj self DX DY = Ok (s, m) ->
      (TS.is_mgcx self = true -> is_Ok (getkey m "optimal_scale")) ->
      TS.test_statistic self X Y = Raise IndexError).
Proof.
  intros Hn Hneg Hlt Hcd.
  assert (Hv : TS._validate_input self X Y None (TS.max_lag self)
               = Ok (DX, DY, ceil_sqrt (shape0 X), TS.max_lag self, shape0 X)).
  { apply validate_input_Ok. split; [exact Hn|]. split; [exact Hlt|].
    exists DX, DY. split; [exact Hcd|reflexivity]. }
  split.
  - intros H2. unfold TS.test_statistic. rewrite Hv. cbn [mbind result_bind].
    destruct (Z.ltb_spec (TS.max_lag self + 1) 0) as [_|]; [reflexivity|lia].
  - intros H1 Hs Hk. unfold TS.test_statistic. rewrite Hv. cbn [mbind result_bind].
    rewrite H1. cbn [Z.add Z.ltb Z.compare Z.to_nat zeros replicate Z.pos_sub Z.opp].
    cbn [mbind result_bind]. rewrite Hs. cbn [mbind result_bind].
    destruct (TS.is_mgcx self).
    + destruct (Hk eq_refl) as [sc ->]. reflexivity.
    + reflexivity.
Qed.

Lemma negative_max_lag_outcome_witness :
  TS.test_statistic (Examples.ts (-1)) (Arr1 [0; 3; 1; 5; 3; 4]%Q) (Arr1 [3; 0; 3; 1; 5; 3]%Q)
  = Raise IndexError.
Proof.
  let dx := eval vm_compute in
      (map (fun a => map (fun b => Qabs (a - b)) [0; 3; 1; 5; 3; 4]%Q) [0; 3; 1; 5; 3; 4]%Q) in
  let dy := eval vm_compute in
      (map (fun a => map (fun b => Qabs (a - b)) [3; 0; 3; 1; 5; 3]%Q) [3; 0; 3; 1; 5; 3]%Q) in
  let s := eval vm_compute in (stat_of (Examples.mantel dx dy)) in
  destruct (negative_max_lag_outcome (Examples.ts (-1))
              (Arr1 [0; 3; 1; 5; 3; 4]%Q) (Arr1 [3; 0; 3; 1; 5; 3]%Q) dx dy s ∅)
    as [_ H]; [reflexivity|simpl; lia|simpl; lia|by_evaluation|].
  apply H; [reflexivity|by_evaluation|discriminate].
Defined.

(** X6.  A wrapper named [mgcx] reads the key [optimal_scale] of the base
    test's metadata at lag 0 (line 137): around a base test whose metadata
    lacks it, [test_statistic] raises [KeyError] on every input that passes
    the validation, however small [max_lag >= -1] is. *)
Theorem mgcx_needs_optimal_scale (self : TS.t) (X Y : ndarray) (DX DY : matrix)
    (s : Q) (m : pydict) :
  TS.is_mgcx self = true ->
  shape0 X = shape0 Y ->
  (-1 <= TS.max_lag self < Z.of_nat (shape0 X) - 4)%Z ->
  compute_distance (as_column X) (as_column Y) (TS.compute_distance_matrix self)
    = Ok (DX, DY) ->
  TS.test_obj self DX DY = Ok (s, m) ->
  m !! "optimal_scale" = None ->
  TS.test_statistic self X Y = Raise (KeyError "optimal_scale").
Proof.
  intros Hx Hn HM Hcd Hs Hk.
  assert (Hv : TS._validate_input self X Y None (TS.max_lag self)
               = Ok (DX, DY, ceil_sqrt (shape0 X), TS.max_lag self, shape0 X)).
  { apply validate_input_Ok. split; [exact Hn|]. split; [lia|].
    exists DX, DY. split; [exact Hcd|reflexivity]. }
  unfold TS.test_statistic. rewrite Hv. cbn [mbind result_bind].
  destruct (Z.ltb_spec (TS.max_lag self + 1) 0) as [|_]; [lia|].
  cbn [mbind result_bind]. rewrite Hs. cbn [mbind result_bind].
  rewrite Hx. unfold getkey. rewrite Hk. reflexivity.
Qed.

Lemma mgcx_needs_optimal_scale_witness :
  TS.test_statistic (MoreExamples.mgcx_without_scale 1)
    (Arr1 [0; 3; 1; 5; 3; 4]%Q) (Arr1 [3; 0; 3; 1; 5; 3]%Q)
  = Raise (KeyError "optimal_scale").
Proof.
  let dx := eval vm_compute in
      (map (fun a => map (fun b => Qabs (a - b)) [0; 3; 1; 5; 3; 4]%Q) [0; 3; 1; 5; 3; 4]%Q) in
  let dy := eval vm_compute in
      (map (fun a => map (fun b => Qabs (a - b)) [3; 0; 3; 1; 5; 3]%Q) [3; 0; 3; 1; 5; 3]%Q) in
  let s := eval vm_compute in (stat_of (Examples.mantel dx dy)) in
  apply (mgcx_needs_optimal_scale (MoreExamples.mgcx_without_scale 1)
              (Arr1 [0; 3; 1; 5; 3; 4]%Q) (Arr1 [3; 0; 3; 1; 5; 3]%Q) dx dy s ∅);
    [reflexivity|reflexivity|simpl; lia|by_evaluation|by_evaluation
    |reflexivity].
Defined.

Lemma foldM_ext {A St : Type} (f g : St -> A -> result St) (l : list A) (s : St) :
  (forall s x, f s x = g s x) -> foldM f l s = foldM g l s.
Proof.
  intros H. revert s. induction l as [|x l IH]; intros s; [reflexivity|].
  cbn [foldM]. rewrite H. destruct (g s x); cbn [mbind result_bind]; [apply IH|reflexivity].
Qed.

(** X7.  Only a wrapper named [mgcx] looks at what the base test returns
    beside its statistic: under any other name, [test_statistic] gives the
    same outcome, value, metadata or exception, when the base test's
    metadata are thrown away. *)
Theorem base_metadata_read_only_by_mgcx (self : TS.t) (X Y : ndarray) :
  TS.is_mgcx self = false ->
  TS.test_statistic (without_metadata self) X Y = TS.test_statistic self X Y.
Proof.
  intros Hx.
  assert (Hx' : TS.is_mgcx (without_metadata self) = false) by exact Hx.
  unfold TS.test_statistic.
  change (TS._validate_input (without_metadata self) X Y None
            (TS.max_lag (without_metadata self)))
    with (TS._validate_input self X Y None (TS.max_lag self)).
  destruct (TS._validate_input self X Y None (TS.max_lag self))
    as [[[[[DX DY] bs] M] n]|e]; [|reflexivity].
  cbn [mbind result_bind].
  destruct (if (M + 1 <? 0)%Z then _ else _) as [dbl0|e]; [|reflexivity].
  cbn [mbind result_bind].
  rewrite Hx, Hx'. cbn [without_metadata TS.test_obj].
  destruct (TS.test_obj self DX DY) as [[s m]|e]; [|reflexivity].
  cbn [mbind result_bind].
  destruct (setitem dbl0 0 (Qmax 0 s)) as [dbl1|e]; [|reflexivity].
  cbn [mbind result_bind].
  rewrite (foldM_ext (TS.lag_step (without_metadata self) DX DY n)
                     (TS.lag_step self DX DY n)); [reflexivity|].
  intros [[dbl opt] scale] j. unfold TS.lag_step.
  rewrite Hx, Hx'. cbn [without_metadata TS.test_obj].
  destruct (TS.test_obj self _ _) as [[s' m']|e]; reflexivity.
Qed.

Lemma base_metadata_read_only_by_mgcx_witness :
  TS.test_statistic (without_metadata (Examples.ts 1))
    (Arr1 [0; 3; 1; 5; 3; 4]%Q) (Arr1 [3; 0; 3; 1; 5; 3]%Q)
  = TS.test_statistic (Examples.ts 1)
      (Arr1 [0; 3; 1; 5; 3; 4]%Q) (Arr1 [3; 0; 3; 1; 5; 3]%Q).
Proof.
  apply (base_metadata_read_only_by_mgcx (Examples.ts 1)). reflexivity.
Defined.

(** X8.  Every entry point of the wrapper and of [MGC_TS] asserts first
    that the two samples have the same number of rows: on samples of
    different sizes each of them raises [AssertionError], whatever the lag,
    the distance function, the base test and the generator, none of which
    is consulted. *)
Theorem sample_count_mismatch (sqrt_f : Q -> Q) (chi2_cdf : Q -> Z -> Q)
    (self : TS.t) (mgc_ts : MGC_TS.t) (X Y : ndarray) (R : nat) (fast : bool)
    (block_size : option nat) (ss : Z) (rng : nat -> nat -> nat) :
  shape0 X <> shape0 Y ->
  TS.test_statistic self X Y = Raise AssertionError
  /\ TS.p_value sqrt_f chi2_cdf self X Y R fast block_size ss rng = Raise AssertionError
  /\ MGC_TS.test_statistic sqrt_f mgc_ts X Y = Raise AssertionError
  /\ MGC_TS.p_value sqrt_f mgc_ts X Y R rng = Raise AssertionError.
Proof.
  intros Hn.
  unfold TS.test_statistic, TS.p_value, MGC_TS.test_statistic, MGC_TS.p_value,
    TS._validate_input.
  destruct (decide (shape0 X = shape0 Y)) as [He|_]; [contradiction|].
  repeat split; reflexivity.
Qed.

Lemma sample_count_mismatch_witness :
  let X := Arr1 [0; 3; 1; 5; 3; 4]%Q in
  let Y := Arr2 [[3]; [0]; [3]; [1]; [5]]%Q in
  TS.test_statistic (Examples.ts 7) X Y = Raise AssertionError
  /\ TS.p_value Examples.sqrt_q Examples.chi2_q (Examples.ts 7) X Y 3 true None 0%Z
       (fun _ i => i) = Raise AssertionError
  /\ MGC_TS.test_statistic Examples.sqrt_q (Examples.mgc_ts None) X Y = Raise AssertionError
  /\ MGC_TS.p_value Examples.sqrt_q (Examples.mgc_ts None) X Y 3 (fun _ i => i)
     = Raise AssertionError.
Proof.
  intros X Y.
  apply (sample_count_mismatch Examples.sqrt_q Examples.chi2_q (Examples.ts 7)
           (Examples.mgc_ts None) X Y 3 true None 0%Z (fun _ i => i)).
  simpl. lia.
Defined.

Lemma slice_from {A} (l : list A) (j n : nat) :
  length l = n -> j <= n -> slice (Z.of_nat j) (Z.of_nat n) l = drop j l.
Proof.
  intros Hl Hj. unfold slice, slice_bound. rewrite Hl.
  destruct (Z.ltb_spec (Z.of_nat j) 0) as [|_]; [lia|].
  destruct (Z.ltb_spec (Z.of_nat n) 0) as [|_]; [lia|].
  rewrite Z.min_id, Z.min_l by lia. rewrite Nat2Z.id.
  apply take_ge. rewrite length_drop. lia.
Qed.

Lemma slice_upto {A} (l : list A) (j n : nat) :
  length l = n -> j <= n -> slice 0 (Z.of_nat n - Z.of_nat j) l = take (n - j) l.
Proof.
  intros Hl Hj. unfold slice, slice_bound. rewrite Hl.
  destruct (Z.ltb_spec 0 0) as [|_]; [lia|].
  destruct (Z.ltb_spec (Z.of_nat n - Z.of_nat j) 0) as [|_]; [lia|].
  rewrite Z.min_l, Z.min_l by lia. cbn [Z.to_nat drop].
  f_equal. lia.
Qed.

Lemma map_seq_from {A} (f : nat -> A) (j m : nat) :
  map f (seq j m) = map (fun a => f (j + a)) (seq 0 m).
Proof.
  revert j. induction m as [|m IH]; intros j; [reflexivity|].
  cbn [seq map]. rewrite Nat.add_0_r. f_equal.
  rewrite IH, <- seq_shift, map_map. apply map_ext. intros a. f_equal. lia.
Qed.

Lemma slice2_from (D : matrix) (n j : nat) :
  rect n n D -> j <= n -> slice2 (Z.of_nat j) (Z.of_nat n) D = lagged D j (n - j).
Proof.
  intros HD Hj. unfold slice2, lagged.
  rewrite (slice_from D j n) by (apply HD || exact Hj).
  assert (E : drop j D = map (fun a => map (entry D (j + a)) (seq 0 n)) (seq 0 (n - j))).
  { rewrite (rect_tabulate n n D HD) at 1.
    rewrite skipn_map, drop_seq, map_seq_from. reflexivity. }
  rewrite E, map_map. apply map_ext. intros a.
  rewrite slice_from by (rewrite ?length_map, ?length_seq; auto).
  rewrite skipn_map, drop_seq, map_seq_from. reflexivity.
Qed.

Lemma slice2_upto (D : matrix) (n j : nat) :
  rect n n D -> j <= n -> slice2 0 (Z.of_nat n - Z.of_nat j) D = lagged D 0 (n - j).
Proof.
  intros HD Hj. unfold slice2, lagged.
  rewrite (slice_upto D j n) by (apply HD || exact Hj).
  assert (E : take (n - j) D = map (fun a => map (entry D a) (seq 0 n)) (seq 0 (n - j))).
  { rewrite (rect_tabulate n n D HD) at 1.
    rewrite firstn_map, take_seq, Nat.min_l by lia. reflexivity. }
  rewrite E, map_map. apply map_ext. intros a.
  rewrite slice_upto by (rewrite ?length_map, ?length_seq; auto).
  rewrite firstn_map, take_seq, Nat.min_l by lia. reflexivity.
Qed.

Lemma lagged_whole (D : matrix) (n : nat) : rect n n D -> lagged D 0 n = D.
Proof. intros HD. symmetry. apply (rect_tabulate n n D HD). Qed.

(** X9.  The pairs a lag compares.  On [n] by [n] distance matrices, at lag
    [j <= n] the wrapper hands the base test the distances of X among the
    samples [j, ..., n-1] and those of Y among the samples [0, ..., n-1-j]:
    entry [(a, b)] of the first is [D_X[j+a, j+b]], of the second
    [D_Y[a, b]], so that sample [t + j] of X faces sample [t] of Y.  [MGC_TS]
    does the same, and then once more with the roles of X and Y
    exchanged. *)
Theorem lagged_submatrices (self : TS.t) (mgc_ts : MGC_TS.t) (DX DY : matrix)
    (n j : nat) :
  rect n n DX -> rect n n DY -> j <= n ->
  base_at_lag self DX DY n j
  = TS.test_obj self (lagged DX j (n - j)) (lagged DY 0 (n - j))
  /\ x_leads mgc_ts DX DY n j
     = stat_of (MGC_TS.mgc_object mgc_ts (lagged DX j (n - j)) (lagged DY 0 (n - j)))
  /\ y_leads mgc_ts DX DY n j
     = stat_of (MGC_TS.mgc_object mgc_ts (lagged DX 0 (n - j)) (lagged DY j (n - j))).
Proof.
  intros HX HY Hj. unfold x_leads, y_leads.
  rewrite !(slice2_from _ n j), !(slice2_upto _ n j) by assumption.
  split; [|split; reflexivity].
  destruct j as [|j]; cbn [base_at_lag].
  - rewrite Nat.sub_0_r, !lagged_whole by assumption. reflexivity.
  - rewrite (slice2_from _ n (S j)), (slice2_upto _ n (S j)) by assumption. reflexivity.
Qed.

Lemma lagged_submatrices_witness :
  let DX := Examples.line 4 in
  let DY := Examples.far 4 in
  base_at_lag (Examples.ts 1) DX DY 4 1
  = TS.test_obj (Examples.ts 1) (lagged DX 1 (4 - 1)) (lagged DY 0 (4 - 1))
  /\ x_leads (Examples.mgc_ts None) DX DY 4 1
     = stat_of (MGC_TS.mgc_object (Examples.mgc_ts None)
                  (lagged DX 1 (4 - 1)) (lagged DY 0 (4 - 1)))
  /\ y_leads (Examples.mgc_ts None) DX DY 4 1
     = stat_of (MGC_TS.mgc_object (Examples.mgc_ts None)
                  (lagged DX 0 (4 - 1)) (lagged DY 1 (4 - 1))).
Proof.
  intros DX DY.
  apply (lagged_submatrices (Examples.ts 1) (Examples.mgc_ts None) DX DY 4 1).
  - split; [reflexivity|]. repeat constructor.
  - split; [reflexivity|]. repeat constructor.
  - lia.
Defined.

Lemma validate_input_on_distances (self : TS.t) (X Y : ndarray) (DX DY : matrix)
    (bs : option nat) (M : Z) :
  compute_distance (as_column X) (as_column Y) (TS.compute_distance_matrix self)
    = Ok (DX, DY) ->
  is_raw DX = false -> is_raw DY = false ->
  length DX = shape0 X -> length DY = shape0 Y ->
  TS._validate_input self (Arr2 DX) (Arr2 DY) bs M = TS._validate_input self X Y bs M.
Proof.
  intros Hcd HrX HrY HlX HlY.
  unfold TS._validate_input. simpl shape0. rewrite HlX, HlY.
  destruct (decide (shape0 X = shape0 Y)) as [Hn|Hn]; [|reflexivity].
  destruct (M >=? Z.of_nat (shape0 X) - 4)%Z; [reflexivity|].
  rewrite Hcd. simpl as_column. unfold compute_distance at 1. rewrite HrX, HrY. reflexivity.
Qed.

Lemma compute_distance_on_distances (DX DY : matrix) (f : matrix -> result matrix) :
  is_raw DX = false -> is_raw DY = false -> compute_distance DX DY f = Ok (DX, DY).
Proof. intros HX HY. unfold compute_distance. rewrite HX, HY. reflexivity. Qed.

(** X10.  Distance matrices in place of the observations.  When the
    distance function turns the observations into matrices that are
    themselves recognised as distance matrices (square, zero diagonal, as
    many rows), both p-values of the wrapper, and the statistic and the
    p-value of [MGC_TS], are on those matrices what they are on the
    observations: same value, same metadata, same exception, under the
    same draws. *)
Theorem distance_matrices_as_input (sqrt_f : Q -> Q) (chi2_cdf : Q -> Z -> Q)
    (self : TS.t) (mgc_ts : MGC_TS.t) (X Y : ndarray) (DX DY : matrix)
    (R : nat) (fast : bool) (block_size : option nat) (ss : Z) (rng : nat -> nat -> nat) :
  is_raw DX = false -> is_raw DY = false ->
  length DX = shape0 X -> length DY = shape0 Y ->
  (compute_distance (as_column X) (as_column Y) (TS.compute_distance_matrix self)
     = Ok (DX, DY) ->
   TS.p_value sqrt_f chi2_cdf self (Arr2 DX) (Arr2 DY) R fast block_size ss rng
   = TS.p_value sqrt_f chi2_cdf self X Y R fast block_size ss rng)
  /\ (compute_distance (as_column X) (as_column Y) (MGC_TS.compute_distance_matrix mgc_ts)
        = Ok (DX, DY) ->
      MGC_TS.test_statistic sqrt_f mgc_ts (Arr2 DX) (Arr2 DY)
      = MGC_TS.test_statistic sqrt_f mgc_ts X Y
      /\ MGC_TS.p_value sqrt_f mgc_ts (Arr2 DX) (Arr2 DY) R rng
         = MGC_TS.p_value sqrt_f mgc_ts X Y R rng).
Proof.
  intros HrX HrY HlX HlY. split.
  - intros Hcd. unfold TS.p_value.
    rewrite (validate_input_on_distances self X Y DX DY) by assumption. reflexivity.
  - intros Hcd.
    assert (Hs : MGC_TS.test_statistic sqrt_f mgc_ts (Arr2 DX) (Arr2 DY)
                 = MGC_TS.test_statistic sqrt_f mgc_ts X Y).
    { unfold MGC_TS.test_statistic. simpl shape0. rewrite HlX, HlY.
      destruct (decide (shape0 X = shape0 Y)) as [Hn|Hn]; [|reflexivity].
      rewrite Hcd. simpl as_column.
      rewrite (compute_distance_on_distances DX DY) by assumption. reflexivity. }
    split; [exact Hs|].
    unfold MGC_TS.p_value. rewrite Hs. simpl shape0. rewrite HlX, HlY. reflexivity.
Qed.

Lemma distance_matrices_as_input_witness :
  let X := Arr1 [0; 1; 2; 3; 4; 5]%Q in
  let Y := Arr1 [5; 4; 3; 2; 1; 0]%Q in
  let D := Examples.line 6 in
  let rng := fun rep i : nat => rep + i in
  TS.p_value Examples.sqrt_q Examples.chi2_q (Examples.ts 1) (Arr2 D) (Arr2 D)
    2 false None 0%Z rng
  = TS.p_value Examples.sqrt_q Examples.chi2_q (Examples.ts 1) X Y 2 false None 0%Z rng
  /\ MGC_TS.test_statistic Examples.sqrt_q (Examples.mgc_ts (Some 1%Z)) (Arr2 D) (Arr2 D)
     = MGC_TS.test_statistic Examples.sqrt_q (Examples.mgc_ts (Some 1%Z)) X Y
  /\ MGC_TS.p_value Examples.sqrt_q (Examples.mgc_ts (Some 1%Z)) (Arr2 D) (Arr2 D) 2 rng
     = MGC_TS.p_value Examples.sqrt_q (Examples.mgc_ts (Some 1%Z)) X Y 2 rng.
Proof.
  intros X Y D rng.
  destruct (distance_matrices_as_input Examples.sqrt_q Examples.chi2_q (Examples.ts 1)
              (Examples.mgc_ts (Some 1%Z)) X Y D D 2 false None 0%Z rng) as [H1 H2];
    [by_evaluation|by_evaluation|reflexivity|reflexivity|].
  split; [apply H1; by_evaluation|apply H2; by_evaluation].
Defined.

(** *** Blocks as long as the series *)

Lemma seq_from (j m : nat) : seq j m = map (fun a => j + a) (seq 0 m).
Proof.
  transitivity (map (fun i : nat => i) (seq j m)); [symmetry; apply map_id|].
  apply (map_seq_from (fun i => i)).
Qed.

Lemma rotation_Permutation (n t : nat) :
  t < n -> Permutation (map (fun i => (t + i) mod n) (seq 0 n)) (seq 0 n).
Proof.
  intros Ht.
  replace (seq 0 n) with (seq 0 (n - t) ++ seq (n - t) t) at 1
    by (rewrite <- seq_app; f_equal; lia).
  rewrite map_app.
  assert (E1 : map (fun i => (t + i) mod n) (seq 0 (n - t)) = seq t (n - t)).
  { rewrite (seq_from t). apply map_ext_in. intros i Hi. apply in_seq in Hi.
    apply Nat.mod_small. lia. }
  assert (E2 : map (fun i => (t + i) mod n) (seq (n - t) t) = seq 0 t).
  { rewrite map_seq_from. transitivity (map (fun i : nat => i) (seq 0 t)); [|apply map_id].
    apply map_ext_in. intros i Hi. apply in_seq in Hi.
    replace (t + (n - t + i)) with (i + 1 * n) by lia.
    rewrite Nat.Div0.mod_add. apply Nat.mod_small. lia. }
  rewrite E1, E2. rewrite Permutation_app_comm.
  replace (seq t (n - t)) with (seq (0 + t) (n - t)) by reflexivity.
  rewrite <- seq_app. replace (t + (n - t)) with n by lia. reflexivity.
Qed.

(** X11.  With a block as long as the series or longer, the first run of
    line 200 alone fills the resample: the indices are
    [(t + 0) mod n, ..., (t + n - 1) mod n] for the first offset [t] drawn,
    a rotation of [0, ..., n-1], and the resampled matrix is Y with its
    samples rotated by [t]. *)
Theorem long_block_rotates (tape : nat -> nat) (block_size n : nat) (Y : matrix) :
  0 < n -> n <= block_size -> rect n n Y ->
  let t := tape 0 mod n in
  let idx := map (fun i => (t + i) mod n) (seq 0 n) in
  TS.permuted_indices tape block_size n = Ok idx
  /\ Permutation idx (seq 0 n)
  /\ exists PY, TS.permute tape Y block_size n = Ok PY
       /\ rect n n PY
       /\ forall a b, a < n -> b < n ->
            entry PY a b = entry Y ((t + a) mod n) ((t + b) mod n).
Proof.
  intros Hn Hbs HY t idx.
  assert (Hidx : TS.permuted_indices tape block_size n = Ok idx).
  { unfold TS.permuted_indices, random_choice.
    destruct (decide (block_size = 0)) as [|_]; [lia|].
    destruct (decide (n = 0)) as [|_]; [lia|].
    cbn [mbind result_bind]. f_equal. unfold block_runs.
    replace (n / block_size + 1) with (S (n / block_size)) by lia.
    cbn [seq map concat]. rewrite take_app_le by (unfold arange; rewrite length_seq; lia).
    unfold arange. rewrite take_seq, Nat.min_l by lia.
    rewrite (seq_from (tape 0 mod n) n), map_map. reflexivity. }
  split; [exact Hidx|]. split; [apply rotation_Permutation, Nat.mod_upper_bound; lia|].
  assert (Hlt : Forall (fun i => i < n /\ i < n) idx).
  { apply Forall_forall. intros i Hi. apply list_elem_of_fmap in Hi as (k & -> & _).
    split; apply Nat.mod_upper_bound; lia. }
  exists (map (fun a => map (fun b => entry Y a b) idx) idx).
  split; [unfold TS.permute; rewrite Hidx; cbn [mbind result_bind]; apply (ix_Ok n n); assumption|].
  split.
  - split; [unfold idx; rewrite !length_map, length_seq; reflexivity|].
    apply Forall_forall. intros row Hrow. apply list_elem_of_fmap in Hrow as (k & -> & _).
    unfold idx. rewrite !length_map, length_seq. reflexivity.
  - intros a b Ha Hb. apply entry_ix.
    + unfold idx. rewrite list_lookup_fmap, lookup_seq_lt by exact Ha. reflexivity.
    + unfold idx. rewrite list_lookup_fmap, lookup_seq_lt by exact Hb. reflexivity.
Qed.

Lemma long_block_rotates_witness :
  let tape := fun i : nat => 2 + i in
  let Y := Examples.line 5 in
  let idx := map (fun i => (2 + i) mod 5) (seq 0 5) in
  TS.permuted_indices tape 5 5 = Ok idx
  /\ Permutation idx (seq 0 5)
  /\ exists PY, TS.permute tape Y 5 5 = Ok PY
       /\ rect 5 5 PY
       /\ forall a b, a < 5 -> b < 5 ->
            entry PY a b = entry Y ((2 + a) mod 5) ((2 + b) mod 5).
Proof.
  intros tape Y idx.
  apply (long_block_rotates tape 5 5 Y); [lia|lia|].
  split; [reflexivity|]. repeat constructor.
Defined.

(** *** Resampled matrices are distance matrices *)

Lemma diagonal_tabulate (g : nat -> list Q) (f : nat -> Q) (l : list nat) :
  (forall i, i ∈ l -> g i !! i = Some (f i)) ->
  omap (fun '(i, row) => row !! i) (zip l (map g l)) = map f l.
Proof.
  induction l as [|i l IH]; intros H; [reflexivity|].
  cbn [map zip zip_with omap list_omap]. rewrite (H i) by left.
  f_equal. apply IH. intros k Hk. apply H. right. exact Hk.
Qed.

Lemma diagonal_rect (n : nat) (m : matrix) :
  rect n n m -> diagonal m = map (fun i => entry m i i) (seq 0 n).
Proof.
  intros Hm. unfold diagonal. destruct Hm as [Hl Hrows]. rewrite Hl.
  pose proof (rect_tabulate n n m (conj Hl Hrows)) as HT.
  transitivity (omap (fun '(i, row) => row !! i)
                  (zip (seq 0 n) (map (fun i => map (entry m i) (seq 0 n)) (seq 0 n)))).
  { f_equal. f_equal. exact HT. }
  apply diagonal_tabulate. intros i Hi. apply elem_of_seq in Hi.
  rewrite list_lookup_fmap, lookup_seq_lt by lia. reflexivity.
Qed.

Lemma sum_squares_zero (l : list Q) :
  (Np.sum (map (fun d => d ^ 2) l) <= 0)%Q <-> Forall (fun d => d == 0)%Q l.
Proof.
  assert (Hnn : forall k, (0 <= Np.sum (map (fun d => d ^ 2) k))%Q).
  { induction k as [|d k IH]; [apply Qle_refl|].
    cbn [map Np.sum foldr]. fold (Np.sum (map (fun d => (d ^ 2)%Q) k)).
    change (d ^ 2)%Q with (d * d)%Q. nra. }
  induction l as [|d l IH].
  - split; [constructor|intros _; apply Qle_refl].
  - cbn [map Np.sum foldr]. fold (Np.sum (map (fun d => (d ^ 2)%Q) l)).
    change (d ^ 2)%Q with (d * d)%Q. pose proof (Hnn l) as Hl. split.
    + intros H. constructor; [nra|]. apply IH. nra.
    + intros H. inversion H as [|? ? Hd Hrest]; subst. apply IH in Hrest.
      rewrite Hd. lra.
Qed.

Lemma rect_square (n : nat) (m : matrix) : rect n n m -> (nrows m =? ncols m)%nat = true.
Proof.
  intros [Hl Hrows]. apply Nat.eqb_eq. unfold nrows, ncols. destruct m as [|row m].
  - reflexivity.
  - inversion Hrows; subst. congruence.
Qed.

Lemma is_raw_rect (n : nat) (m : matrix) :
  rect n n m -> (is_raw m = false <-> forall i, i < n -> (entry m i i == 0)%Q).
Proof.
  intros Hm. unfold is_raw. rewrite (rect_square n m Hm). cbn [negb orb].
  rewrite Qlt_bool_false, (diagonal_rect n m Hm), sum_squares_zero, Forall_forall.
  split.
  - intros H i Hi. apply (H (entry m i i)). apply list_elem_of_fmap. exists i.
    split; [reflexivity|]. apply elem_of_seq. lia.
  - intros H d Hd. apply list_elem_of_fmap in Hd as (i & -> & Hi).
    apply elem_of_seq in Hi. apply H. lia.
Qed.

Lemma ix_inv (n : nat) (Y : matrix) (idx : list nat) (PY : matrix) :
  rect n n Y -> ix_ idx Y = Ok PY ->
  Forall (fun i => i < n) idx
  /\ PY = map (fun a => map (fun b => entry Y a b) idx) idx.
Proof.
  intros HY H.
  assert (Hlt : Forall (fun i => i < n) idx).
  { unfold ix_ in H. inv_bind H as rows Hrows.
    apply mapM_Ok_inv in Hrows. apply Forall_forall. intros i Hi.
    apply list_elem_of_lookup_1 in Hi as [k Hk].
    destruct (Forall2_lookup_l _ _ _ _ _ Hrows Hk) as (row & _ & Hrow).
    apply getitem_Ok in Hrow. apply lookup_lt_Some in Hrow. destruct HY as [HlY _]. lia. }
  split; [exact Hlt|].
  rewrite (ix_Ok n n Y idx HY) in H.
  - injection H as <-. reflexivity.
  - eapply Forall_impl; [exact Hlt|]. intros i Hi. split; exact Hi.
Qed.

(** X12.  What [np.ix_] makes of a distance matrix.  Taking the rows and
    the columns [idx] of an [n] by [n] matrix with a zero diagonal gives,
    when it does not raise, a square matrix of [len(idx)] rows with a zero
    diagonal again, symmetric if the matrix was: the resamples of lines
    202 and 270, the subsamples of lines 275 and 276 and the resample of
    [MGC_TS] are recognised as distance matrices, and the statistic that is
    then computed on them does not apply the distance function a second
    time. *)
Theorem resample_is_distance_matrix (n : nat) (Y : matrix) (idx : list nat) (PY : matrix) :
  rect n n Y -> is_raw Y = false -> ix_ idx Y = Ok PY ->
  rect (length idx) (length idx) PY
  /\ is_raw PY = false
  /\ ((forall i j, entry Y i j = entry Y j i) -> forall a b, entry PY a b = entry PY b a)
  /\ (forall X f, is_raw X = false -> compute_distance X PY f = Ok (X, PY)).
Proof.
  intros HY Hraw H. destruct (ix_inv n Y idx PY HY H) as [Hlt ->].
  set (PY := map (fun a => map (fun b => entry Y a b) idx) idx).
  assert (HP : rect (length idx) (length idx) PY).
  { split; [unfold PY; rewrite length_map; reflexivity|].
    apply Forall_forall. intros row Hrow. apply list_elem_of_fmap in Hrow as (a & -> & _).
    rewrite length_map. reflexivity. }
  assert (He : forall a b, a < length idx -> b < length idx ->
            exists ia ib, idx !! a = Some ia /\ idx !! b = Some ib
                          /\ ia < n /\ ib < n /\ entry PY a b = entry Y ia ib).
  { intros a b Ha Hb.
    destruct (lookup_lt_is_Some_2 idx a Ha) as [ia Hia].
    destruct (lookup_lt_is_Some_2 idx b Hb) as [ib Hib].
    exists ia, ib. rewrite Forall_forall in Hlt.
    split; [exact Hia|]. split; [exact Hib|].
    split; [apply Hlt; eapply list_elem_of_lookup_2; exact Hia|].
    split; [apply Hlt; eapply list_elem_of_lookup_2; exact Hib|].
    apply entry_ix; assumption. }
  assert (HrP : is_raw PY = false).
  { apply (is_raw_rect (length idx) PY HP). intros a Ha.
    destruct (He a a Ha Ha) as (ia & ib & Hia & Hib & Hlia & _ & ->).
    rewrite Hia in Hib. injection Hib as <-.
    apply (is_raw_rect n Y HY); assumption. }
  split; [exact HP|]. split; [exact HrP|]. split.
  - intros Hsym a b.
    destruct (decide (a < length idx)) as [Ha|Ha];
      destruct (decide (b < length idx)) as [Hb|Hb].
    + destruct (He a b Ha Hb) as (ia & ib & Hia & Hib & _ & _ & ->).
      destruct (He b a Hb Ha) as (ib' & ia' & Hib' & Hia' & _ & _ & ->).
      rewrite Hia in Hia'. rewrite Hib in Hib'. injection Hia' as <-. injection Hib' as <-.
      apply Hsym.
    + unfold entry, PY. rewrite !list_lookup_fmap.
      rewrite (lookup_ge_None_2 idx b) by lia. cbn.
      destruct (idx !! a); cbn; [|reflexivity].
      rewrite list_lookup_fmap, (lookup_ge_None_2 idx b) by lia. reflexivity.
    + unfold entry, PY. rewrite !list_lookup_fmap.
      rewrite (lookup_ge_None_2 idx a) by lia. cbn.
      destruct (idx !! b); cbn; [|reflexivity].
      rewrite list_lookup_fmap, (lookup_ge_None_2 idx a) by lia. reflexivity.
    + unfold entry, PY. rewrite !list_lookup_fmap.
      rewrite (lookup_ge_None_2 idx a), (lookup_ge_None_2 idx b) by lia. reflexivity.
  - intros X f HX. apply compute_distance_on_distances; assumption.
Qed.

Lemma resample_is_distance_matrix_witness :
  let Y := Examples.line 4 in
  let idx := [2; 3; 3; 0] in
  let PY := [[0; 1; 1; 2]; [1; 0; 0; 3]; [1; 0; 0; 3]; [2; 3; 3; 0]]%Q in
  rect (length idx) (length idx) PY
  /\ is_raw PY = false
  /\ ((forall i j, entry Y i j = entry Y j i) -> forall a b, entry PY a b = entry PY b a)
  /\ (forall X f, is_raw X = false -> compute_distance X PY f = Ok (X, PY)).
Proof.
  intros Y idx PY.
  apply (resample_is_distance_matrix 4 Y idx PY).
  - split; [reflexivity|]. repeat constructor.
  - by_evaluation.
  - by_evaluation.
Defined.

(** *** The resampling of [MGC_TS] *)

Lemma ceil_sqrt_pos (n : nat) : 0 < n -> 0 < ceil_sqrt n.
Proof.
  intros Hn. destruct (ceil_sqrt_least n) as [H _].
  destruct (ceil_sqrt n); [simpl in H; lia|lia].
Qed.

Lemma ceil_sqrt_quotient (n : nat) :
  0 < n ->
  let bs := ceil_sqrt n in
  n / bs <= bs /\ (3 <= n -> n / bs + bs <= n) /\ (5 <= n -> n / bs + bs < n).
Proof.
  intros Hn. cbv zeta. pose proof (ceil_sqrt_pos n Hn) as Hbs.
  destruct (ceil_sqrt_least n) as [Hup Hleast].
  remember (ceil_sqrt n) as bs eqn:Ebs.
  assert (Hq : n / bs <= bs) by (apply Nat.Div0.div_le_upper_bound; lia).
  assert (Hlow : (bs - 1) * (bs - 1) < n).
  { destruct (le_lt_dec n ((bs - 1) * (bs - 1))) as [Hle|]; [|assumption].
    specialize (Hleast (bs - 1) Hle). lia. }
  assert (Hbig : 4 <= bs -> n / bs + bs < n) by (intros H4; nia).
  assert (Hsmall : bs <= 3 -> n <= 9) by (intros H3; nia).
  split; [exact Hq|].
  assert (Hcases : 3 <= n -> n <= 9 -> n / bs + bs <= n /\ (5 <= n -> n / bs + bs < n)).
  { intros H3 H9. rewrite Ebs.
    assert (Hn' : n = 3 \/ n = 4 \/ n = 5 \/ n = 6 \/ n = 7 \/ n = 8 \/ n = 9) by lia.
    destruct Hn' as [->|[->|[->|[->|[->|[->| ->]]]]]]; vm_compute; split; lia. }
  destruct (le_lt_dec bs 3) as [H3|H4].
  - split; intros H; apply Hcases; auto; lia.
  - split; intros H; specialize (Hbig ltac:(lia)); lia.
Qed.

(** X13.  The indices [MGC_TS.p_value] resamples with (line 193).  The
    offsets are a shuffle of the block numbers [0, ..., n // block_size],
    not multiples of the block size and not reduced modulo [n]: with
    [block_size = ceil(sqrt n)] every index is below
    [n // block_size + block_size <= 2 * block_size].  From five samples on
    the last observation of Y is in no resample, whatever the generator
    does; from three samples on no index is out of range. *)
Theorem mgc_ts_resample_indices (tape : nat -> nat) (n : nat) :
  0 < n ->
  let block_size := ceil_sqrt n in
  exists idx,
    MGC_TS.permuted_indices tape block_size n = Ok idx
    /\ length idx = n
    /\ Forall (fun i => i < n / block_size + block_size) idx
    /\ n / block_size + block_size <= 2 * block_size
    /\ (3 <= n -> Forall (fun i => i < n) idx)
    /\ (5 <= n -> n - 1 ∉ idx).
Proof.
  intros Hn. cbv zeta. pose proof (ceil_sqrt_pos n Hn) as Hbs.
  destruct (ceil_sqrt_quotient n Hn) as (Hq & H3 & H5).
  remember (ceil_sqrt n) as bs eqn:Ebs.
  set (offsets := random_permutation tape (n / bs + 1)).
  pose proof (random_permutation_Permutation tape (n / bs + 1)) as Hperm. fold offsets in Hperm.
  assert (Hlen : length offsets = n / bs + 1)
    by (rewrite (Permutation_length Hperm), length_seq; reflexivity).
  assert (Hcover : n <= length offsets * bs).
  { rewrite Hlen. pose proof (Nat.mul_succ_div_gt n bs ltac:(lia)). lia. }
  destruct (block_runs_spec offsets bs n Hbs Hcover) as [Hrl Hrq].
  exists (block_runs offsets bs n).
  assert (Hall : Forall (fun i => i < n / bs + bs) (block_runs offsets bs n)).
  { apply Forall_lookup. intros q i Hi.
    assert (Hqn : q < n) by (apply lookup_lt_Some in Hi; lia).
    destruct (Hrq q Hqn) as (t & Ht & Hl). rewrite Hl in Hi. injection Hi as <-.
    assert (Hin : t ∈ seq 0 (n / bs + 1)).
    { rewrite <- Hperm. eapply list_elem_of_lookup_2. exact Ht. }
    apply elem_of_seq in Hin. pose proof (Nat.mod_upper_bound q bs ltac:(lia)). lia. }
  split.
  { unfold MGC_TS.permuted_indices. destruct (decide (bs = 0)) as [|_]; [lia|reflexivity]. }
  split; [exact Hrl|]. split; [exact Hall|].
  split; [rewrite Nat.add_comm; cbn [Nat.mul]; rewrite Nat.add_0_r; apply Nat.add_le_mono_l; exact Hq|].
  split.
  - intros Hn3. eapply Forall_impl; [exact Hall|]. intros i Hi. specialize (H3 Hn3).
    eapply Nat.lt_le_trans; [exact Hi|exact H3].
  - intros Hn5 Hin. rewrite Forall_forall in Hall. specialize (Hall _ Hin).
    specialize (H5 Hn5). cbn beta in Hall.
    assert (n - 1 < n - 1); [|lia].
    eapply Nat.lt_le_trans; [exact Hall|]. apply Nat.lt_le_pred in H5.
    rewrite <- Nat.sub_1_r in H5. exact H5.
Qed.

Lemma mgc_ts_resample_indices_witness :
  exists idx,
    MGC_TS.permuted_indices (fun i => i) (ceil_sqrt 10) 10 = Ok idx
    /\ length idx = 10
    /\ Forall (fun i => i < 10 / ceil_sqrt 10 + ceil_sqrt 10) idx
    /\ 10 / ceil_sqrt 10 + ceil_sqrt 10 <= 2 * ceil_sqrt 10
    /\ (3 <= 10 -> Forall (fun i => i < 10) idx)
    /\ (5 <= 10 -> 10 - 1 ∉ idx).
Proof.
  apply (mgc_ts_resample_indices (fun i => i) 10). lia.
Defined.

(** *** The statistic and the p-value of [MGC_TS] *)

(** The metadata [MGC_TS.test_statistic] returns (line 117). *)
Lemma mgc_ts_statistic_Ok (sqrt_f : Q -> Q) (self : MGC_TS.t) (X Y : ndarray)
    (v : Q) (md : pydict) :
  MGC_TS.test_statistic sqrt_f self X Y = Ok (v, md) ->
  shape0 X = shape0 Y
  /\ exists DX DY s0 m0,
       compute_distance (as_column X) (as_column Y) (MGC_TS.compute_distance_matrix self)
         = Ok (DX, DY)
       /\ MGC_TS.mgc_object self DX DY = Ok (s0, m0)
       /\ foldM (MGC_TS.lag_step self DX DY (shape0 X)
                   (sqrt_f (inject_Z (Z.of_nat (shape0 X))))
                   (match MGC_TS.max_lag self with
                    | Some m => m
                    | None => Z.of_nat (ceil_sqrt (shape0 X))
                    end))
               (seq 1 (Z.to_nat (match MGC_TS.max_lag self with
                                 | Some m => m
                                 | None => Z.of_nat (ceil_sqrt (shape0 X))
                                 end)))
               (inject_Z (Z.of_nat (shape0 X)) * s0)%Q = Ok v
       /\ md = <["dist_mtx_Y" := PMat DY]> (<["dist_mtx_X" := PMat DX]> ∅)
       /\ MGC_TS.getmatrix md "dist_mtx_X" = Ok DX
       /\ MGC_TS.getmatrix md "dist_mtx_Y" = Ok DY.
Proof.
  unfold MGC_TS.test_statistic. intros H.
  destruct (decide (shape0 X = shape0 Y)) as [Hn|]; [|discriminate].
  split; [exact Hn|].
  inv_bind H as [DX DY] Hcd. inv_bind H as [s0 m0] Hs. inv_bind H as v' Hloop.
  injection H as <- <-. exists DX, DY, s0, m0.
  split; [exact Hcd|]. split; [exact Hs|]. split; [exact Hloop|]. split; [reflexivity|].
  unfold MGC_TS.getmatrix. split.
  - rewrite lookup_insert_ne by discriminate. rewrite lookup_insert_eq. reflexivity.
  - rewrite lookup_insert_eq. reflexivity.
Qed.

Lemma length_filter_le {A} (P : A -> Prop) `{forall x, Decision (P x)} (l : list A) :
  length (filter P l) <= length l.
Proof.
  induction l as [|x l IH]; [reflexivity|].
  rewrite filter_cons. destruct (decide (P x)); simpl; lia.
Qed.

(** X14.  The p-value of [MGC_TS] (lines 190 to 204), once its statistic is
    computed: without replicates line 199 divides by zero; otherwise what
    is returned is the fraction of the [replication_factor] null
    statistics that are at least the observed one, a number in [[0, 1]],
    with the null statistics as only metadata. *)
Theorem mgc_ts_p_value_range (sqrt_f : Q -> Q) (self : MGC_TS.t) (X Y : ndarray)
    (rng : nat -> nat -> nat) (stat : Q) (md0 : pydict) :
  MGC_TS.test_statistic sqrt_f self X Y = Ok (stat, md0) ->
  MGC_TS.p_value sqrt_f self X Y 0 rng = Raise ZeroDivisionError
  /\ forall R p md,
       MGC_TS.p_value sqrt_f self X Y R rng = Ok (p, md) ->
       0 < R
       /\ (0 <= p <= 1)%Q
       /\ exists null,
            md = {["test_stats_null" := PArr null]}
            /\ length null = R
            /\ p = (inject_Z (Z.of_nat
                      (length (filter (fun s => Qle_bool stat s = true) null)))
                    / inject_Z (Z.of_nat R))%Q.
Proof.
  intros Hs. destruct (mgc_ts_statistic_Ok _ _ _ _ _ _ Hs)
    as (Hn & DX & DY & s0 & m0 & _ & _ & _ & _ & HgX & HgY).
  split.
  - unfold MGC_TS.p_value. destruct (decide (shape0 X = shape0 Y)) as [_|]; [|contradiction].
    rewrite Hs. cbn [mbind result_bind]. rewrite HgX, HgY. reflexivity.
  - intros R p md H. unfold MGC_TS.p_value in H.
    destruct (decide (shape0 X = shape0 Y)) as [_|]; [|contradiction].
    rewrite Hs in H. cbn [mbind result_bind] in H. rewrite HgX, HgY in H.
    cbn [mbind result_bind] in H.
    inv_bind H as null Hnull. inv_bind H as p' Hp. injection H as <- <-.
    apply mapM_length in Hnull. rewrite length_seq in Hnull.
    unfold MGC_TS.null_fraction in Hp.
    destruct (decide (R = 0)) as [|HR]; [discriminate|]. injection Hp as <-.
    split; [lia|].
    set (c := length (filter (fun s => Qle_bool stat s = true) null)).
    assert (Hc : c <= R).
    { unfold c. rewrite <- Hnull. apply length_filter_le. }
    assert (HRq : (0 < inject_Z (Z.of_nat R))%Q) by (apply inject_nat_pos; lia).
    assert (Hcq : (0 <= inject_Z (Z.of_nat c) <= inject_Z (Z.of_nat R))%Q).
    { split; [change 0%Q with (inject_Z 0)|]; rewrite <- Zle_Qle; lia. }
    split.
    + split.
      * apply Qle_shift_div_l; [exact HRq|]. lra.
      * apply Qle_shift_div_r; [exact HRq|]. lra.
    + exists null. split; [reflexivity|]. split; [exact Hnull|reflexivity].
Qed.

Lemma mgc_ts_p_value_range_witness :
  let X := Arr1 [0; 1; 2; 3; 4]%Q in
  let Y := Arr1 [0; 1; 2; 3; 5]%Q in
  let self := Examples.mgc_ts (Some 0%Z) in
  let rng := fun rep i : nat => rep + i in
  MGC_TS.p_value Examples.sqrt_q self X Y 0 rng = Raise ZeroDivisionError
  /\ forall R p md,
       MGC_TS.p_value Examples.sqrt_q self X Y R rng = Ok (p, md) ->
       0 < R
       /\ (0 <= p <= 1)%Q
       /\ exists null,
            md = {["test_stats_null" := PArr null]}
            /\ length null = R
            /\ p = (inject_Z (Z.of_nat
                      (length (filter (fun s => Qle_bool (30 # 5) s = true) null)))
                    / inject_Z (Z.of_nat R))%Q.
Proof.
  intros X Y self rng.
  apply (mgc_ts_p_value_range Examples.sqrt_q self X Y rng (30 # 5)%Q
           (<["dist_mtx_Y" := PMat (map (fun a => map (fun b => Qabs (a - b) + 0)
                                                    [0; 1; 2; 3; 5]) [0; 1; 2; 3; 5])%Q]>
              (<["dist_mtx_X" := PMat (Examples.line 5)]> ∅))).
  by_evaluation.
Defined.

(** X15.  [MGC_TS] checks no lag.  With [max_lag <= 0], negative values
    included, the loop of line 106 is empty and the statistic is [n] times
    the base statistic of the whole series, returned with the two distance
    matrices; the wrapper raises on a negative [max_lag]
    ([negative_max_lag_outcome]). *)
Theorem mgc_ts_nonpositive_lag (sqrt_f : Q -> Q) (self : MGC_TS.t) (X Y : ndarray)
    (M : Z) (DX DY : matrix) (s : Q) (m : pydict) :
  MGC_TS.max_lag self = Some M -> (M <= 0)%Z ->
  shape0 X = shape0 Y ->
  compute_distance (as_column X) (as_column Y) (MGC_TS.compute_distance_matrix self)
    = Ok (DX, DY) ->
  MGC_TS.mgc_object self DX DY = Ok (s, m) ->
  MGC_TS.test_statistic sqrt_f self X Y
  = Ok ((inject_Z (Z.of_nat (shape0 X)) * s)%Q,
        <["dist_mtx_Y" := PMat DY]> (<["dist_mtx_X" := PMat DX]> ∅)).
Proof.
  intros HM Hle Hn Hcd Hs. unfold MGC_TS.test_statistic.
  destruct (decide (shape0 X = shape0 Y)) as [_|]; [|contradiction].
  rewrite Hcd. cbn [mbind result_bind]. rewrite Hs. cbn [mbind result_bind].
  rewrite HM. replace (Z.to_nat M) with 0 by lia. reflexivity.
Qed.

Lemma mgc_ts_nonpositive_lag_witness :
  MGC_TS.test_statistic Examples.sqrt_q (Examples.mgc_ts (Some (-3)%Z))
    (Arr1 [0; 1; 2; 3; 4]%Q) (Arr1 [4; 3; 2; 1; 0]%Q)
  = Ok ((inject_Z (Z.of_nat 5) * 1)%Q,
        <["dist_mtx_Y" := PMat (Examples.line 5)]>
          (<["dist_mtx_X" := PMat (Examples.line 5)]> ∅)).
Proof.
  apply (mgc_ts_nonpositive_lag Examples.sqrt_q (Examples.mgc_ts (Some (-3)%Z))
           (Arr1 [0; 1; 2; 3; 4]%Q) (Arr1 [4; 3; 2; 1; 0]%Q) (-3)%Z
           (Examples.line 5) (Examples.line 5) 1%Q ∅);
    [reflexivity|lia|reflexivity|by_evaluation|by_evaluation].
Defined.

Lemma slice_beyond {A} (l : list A) (j n : nat) :
  length l = n -> n < j -> slice (Z.of_nat j) (Z.of_nat n) l = [].
Proof.
  intros Hl Hj. unfold slice, slice_bound. rewrite Hl.
  destruct (Z.ltb_spec (Z.of_nat j) 0) as [|_]; [lia|].
  destruct (Z.ltb_spec (Z.of_nat n) 0) as [|_]; [lia|].
  rewrite Z.min_id, Z.min_r by lia. replace (Z.to_nat (Z.of_nat n - Z.of_nat n)) with 0 by lia.
  reflexivity.
Qed.

Lemma slice_wrapped {A} (l : list A) (j n : nat) :
  length l = n -> n < j -> slice 0 (Z.of_nat n - Z.of_nat j) l = take (2 * n - j) l.
Proof.
  intros Hl Hj. unfold slice, slice_bound. rewrite Hl.
  destruct (Z.ltb_spec 0 0) as [|_]; [lia|].
  destruct (Z.ltb_spec (Z.of_nat n - Z.of_nat j) 0) as [_|]; [|lia].
  rewrite Z.min_l by lia. cbn [Z.to_nat drop]. f_equal. lia.
Qed.

(** X16.  Lags beyond the series.  [MGC_TS] lets the loop run to any
    [max_lag]; at a lag [j > n] the slice [[j:n]] is empty and the stop of
    the slice [[0:n-j]] is negative, which Python counts from the end: the
    base test is handed an empty matrix and the first [2n - j] samples of
    the other series (none once [j >= 2n]). *)
Theorem lag_beyond_the_series (self : MGC_TS.t) (DX DY : matrix) (n j : nat) :
  rect n n DX -> rect n n DY -> n < j ->
  x_leads self DX DY n j
  = stat_of (MGC_TS.mgc_object self [] (lagged DY 0 (2 * n - j)))
  /\ y_leads self DX DY n j
     = stat_of (MGC_TS.mgc_object self (lagged DX 0 (2 * n - j)) []).
Proof.
  intros HX HY Hj.
  assert (Hempty : forall D, rect n n D -> slice2 (Z.of_nat j) (Z.of_nat n) D = []).
  { intros D [Hl _]. unfold slice2. rewrite (slice_beyond D j n Hl Hj). reflexivity. }
  assert (Hwrap : forall D, rect n n D ->
            slice2 0 (Z.of_nat n - Z.of_nat j) D = lagged D 0 (2 * n - j)).
  { intros D HD. unfold slice2, lagged.
    rewrite (slice_wrapped D j n) by (apply HD || exact Hj).
    assert (E : take (2 * n - j) D
                = map (fun a => map (entry D a) (seq 0 n)) (seq 0 (2 * n - j))).
    { rewrite (rect_tabulate n n D HD) at 1.
      rewrite firstn_map, take_seq, Nat.min_l by lia. reflexivity. }
    rewrite E, map_map. apply map_ext. intros a.
    rewrite slice_wrapped by (rewrite ?length_map, ?length_seq; auto).
    rewrite firstn_map, take_seq, Nat.min_l by lia. reflexivity. }
  unfold x_leads, y_leads. rewrite !Hempty, !Hwrap by assumption. split; reflexivity.
Qed.

Lemma lag_beyond_the_series_witness :
  let self := Examples.mgc_ts (Some 7%Z) in
  let D := Examples.line 5 in
  x_leads self D D 5 7 = stat_of (MGC_TS.mgc_object self [] (lagged D 0 (2 * 5 - 7)))
  /\ y_leads self D D 5 7 = stat_of (MGC_TS.mgc_object self (lagged D 0 (2 * 5 - 7)) []).
Proof.
  intros self D. apply (lag_beyond_the_series self D D 5 7).
  - split; [reflexivity|]. repeat constructor.
  - split; [reflexivity|]. repeat constructor.
  - lia.
Defined.

(** *** Exchanging X and Y *)

Lemma compute_distance_swap (A B DA DB : matrix) (f : matrix -> result matrix) :
  compute_distance A B f = Ok (DA, DB) -> compute_distance B A f = Ok (DB, DA).
Proof.
  unfold compute_distance. intros H.
  inv_bind H as DA' HA. inv_bind H as DB' HB. injection H as <- <-.
  rewrite HB. cbn [mbind result_bind]. rewrite HA. reflexivity.
Qed.

Lemma mgc_ts_lag_step_inv (self : MGC_TS.t) (DX DY : matrix) (n : nat) (p : Q) (M : Z)
    (acc : Q) (j : nat) (acc' : Q) :
  MGC_TS.lag_step self DX DY n p M acc j = Ok acc' ->
  exists s1 m1 s2 m2 w,
    MGC_TS.mgc_object self (slice2 (Z.of_nat j) (Z.of_nat n) DX)
                           (slice2 0 (Z.of_nat n - Z.of_nat j) DY) = Ok (s1, m1)
    /\ MGC_TS.mgc_object self (slice2 0 (Z.of_nat n - Z.of_nat j) DX)
                              (slice2 (Z.of_nat j) (Z.of_nat n) DY) = Ok (s2, m2)
    /\ MGC_TS.weight p M j = Ok w
    /\ acc' = (acc + w * s1 * inject_Z (Z.of_nat n - Z.of_nat j)
               + w * s2 * inject_Z (Z.of_nat n - Z.of_nat j))%Q.
Proof.
  unfold MGC_TS.lag_step. intros H.
  inv_bind H as [s1 m1] H1. inv_bind H as w Hw. inv_bind H as [s2 m2] H2.
  rewrite Hw in H. cbn [mbind result_bind] in H. injection H as <-.
  exists s1, m1, s2, m2, w. repeat split; assumption.
Qed.

Lemma mgc_ts_lag_step_value (self : MGC_TS.t) (DX DY : matrix) (n : nat) (p : Q) (M : Z)
    (acc : Q) (j : nat) (s1 : Q) (m1 : pydict) (s2 : Q) (m2 : pydict) (w : Q) :
  MGC_TS.mgc_object self (slice2 (Z.of_nat j) (Z.of_nat n) DX)
                         (slice2 0 (Z.of_nat n - Z.of_nat j) DY) = Ok (s1, m1) ->
  MGC_TS.mgc_object self (slice2 0 (Z.of_nat n - Z.of_nat j) DX)
                         (slice2 (Z.of_nat j) (Z.of_nat n) DY) = Ok (s2, m2) ->
  MGC_TS.weight p M j = Ok w ->
  MGC_TS.lag_step self DX DY n p M acc j
  = Ok (acc + w * s1 * inject_Z (Z.of_nat n - Z.of_nat j)
        + w * s2 * inject_Z (Z.of_nat n - Z.of_nat j))%Q.
Proof.
  intros H1 H2 Hw. unfold MGC_TS.lag_step. cbv zeta.
  rewrite H1. cbn [mbind result_bind]. rewrite Hw. cbn [mbind result_bind].
  rewrite H2. cbn [mbind result_bind]. reflexivity.
Qed.

Lemma mgc_ts_loop_swap (self : MGC_TS.t) (DX DY : matrix) (n : nat) (p : Q) (M : Z)
    (l : list nat) (acc acc2 r : Q) :
  symmetric_test (MGC_TS.mgc_object self) ->
  (acc2 == acc)%Q ->
  foldM (MGC_TS.lag_step self DX DY n p M) l acc = Ok r ->
  exists r', foldM (MGC_TS.lag_step self DY DX n p M) l acc2 = Ok r' /\ (r' == r)%Q.
Proof.
  intros Hsym. revert acc acc2. induction l as [|j l IH]; intros acc acc2 Hacc H.
  - injection H as <-. exists acc2. split; [reflexivity|exact Hacc].
  - cbn [foldM] in H. inv_bind H as acc' Hstep.
    destruct (mgc_ts_lag_step_inv _ _ _ _ _ _ _ _ _ Hstep)
      as (s1 & m1 & s2 & m2 & w & H1 & H2 & Hw & ->).
    destruct (Hsym _ _ _ _ H1) as (s1' & m1' & H1' & E1).
    destruct (Hsym _ _ _ _ H2) as (s2' & m2' & H2' & E2).
    cbn [foldM].
    rewrite (mgc_ts_lag_step_value self DY DX n p M acc2 j _ _ _ _ _ H2' H1' Hw).
    cbn [mbind result_bind].
    eapply IH; [|exact H]. rewrite Hacc, E1, E2. ring.
Qed.

(** X17.  [MGC_TS] treats the two series alike: every lag enters the sum
    once with X leading and once with Y leading (lines 107 to 115), so
    that around a base test that is symmetric in its two arguments, when
    the statistic of [(X, Y)] is returned, so is that of [(Y, X)], with
    the same value. *)
Theorem mgc_ts_statistic_symmetric (sqrt_f : Q -> Q) (self : MGC_TS.t) (X Y : ndarray)
    (v : Q) (md : pydict) :
  symmetric_test (MGC_TS.mgc_object self) ->
  MGC_TS.test_statistic sqrt_f self X Y = Ok (v, md) ->
  exists v' md',
    MGC_TS.test_statistic sqrt_f self Y X = Ok (v', md') /\ (v' == v)%Q.
Proof.
  intros Hsym H.
  destruct (mgc_ts_statistic_Ok _ _ _ _ _ _ H)
    as (Hn & DX & DY & s0 & m0 & Hcd & Hs & Hloop & _).
  destruct (Hsym _ _ _ _ Hs) as (s0' & m0' & Hs' & E0).
  unfold MGC_TS.test_statistic.
  destruct (decide (shape0 Y = shape0 X)) as [_|]; [|congruence].
  rewrite (compute_distance_swap _ _ _ _ _ Hcd). cbn [mbind result_bind].
  rewrite Hs'. cbn [mbind result_bind]. rewrite <- Hn.
  destruct (mgc_ts_loop_swap self DX DY _ _ _ _ _
              (inject_Z (Z.of_nat (shape0 X)) * s0')%Q _ Hsym ltac:(rewrite E0; reflexivity)
              Hloop) as (r' & Hr' & Er).
  rewrite Hr'. cbn [mbind result_bind]. eexists _, _. split; [reflexivity|exact Er].
Qed.

Lemma rsum_Qeq (l k : list Q) : Forall2 Qeq l k -> (Examples.rsum l == Examples.rsum k)%Q.
Proof.
  induction 1 as [|x y l k Hxy _ IH]; [reflexivity|].
  cbn [Examples.rsum foldr]. fold (Examples.rsum l). fold (Examples.rsum k).
  rewrite !Qred_correct, Hxy, IH. reflexivity.
Qed.

Lemma centred_products_swap (mx my : Q) (xs ys : list Q) :
  Forall2 Qeq (zip_with (fun x y => (x - my) * (y - mx))%Q ys xs)
              (zip_with (fun x y => (x - mx) * (y - my))%Q xs ys).
Proof.
  revert ys. induction xs as [|x xs IH]; intros [|y ys]; cbn; try constructor.
  - ring.
  - apply IH.
Qed.

Lemma mantel_symmetric : symmetric_test Examples.mantel.
Proof.
  intros A B s m H. unfold Examples.mantel in *. cbv zeta in *. injection H as <- <-.
  eexists _, _. split; [reflexivity|].
  set (xs := Examples.off_diagonal A). set (ys := Examples.off_diagonal B).
  set (mx := Examples.rmean xs). set (my := Examples.rmean ys).
  pose proof (centred_products_swap mx my xs ys) as HF.
  unfold Examples.rmean. rewrite !Qred_correct.
  rewrite (rsum_Qeq _ _ HF). rewrite (Forall2_length _ _ _ HF). reflexivity.
Qed.

Lemma mgc_ts_statistic_symmetric_witness :
  exists v' md',
    MGC_TS.test_statistic Examples.sqrt_q (Examples.mgc_ts (Some 1%Z))
      (Arr1 [0; 2; 3; 4]%Q) (Arr1 [0; 1; 2; 4]%Q) = Ok (v', md')
    /\ (v' == 1035072 # 248832)%Q.
Proof.
  apply (mgc_ts_statistic_symmetric Examples.sqrt_q (Examples.mgc_ts (Some 1%Z))
           (Arr1 [0; 1; 2; 4]%Q) (Arr1 [0; 2; 3; 4]%Q) (1035072 # 248832)%Q
           (<["dist_mtx_Y" := PMat (map (fun a => map (fun b => Qabs (a - b) + 0)
                                                    [0; 2; 3; 4]) [0; 2; 3; 4])%Q]>
              (<["dist_mtx_X" := PMat (map (fun a => map (fun b => Qabs (a - b) + 0)
                                                    [0; 1; 2; 4]) [0; 1; 2; 4])%Q]> ∅))).
  - exact mantel_symmetric.
  - by_evaluation.
Defined.

(** ** More on the HHG statistic *)

Lemma hhg_test_statistic_raw (self : HHG.t) (X Y dX dY : matrix) :
  is_raw X = true -> is_raw Y = true ->
  HHG.compute_distance_matrix self X = Ok dX ->
  HHG.compute_distance_matrix self Y = Ok dY ->
  HHG.test_statistic self X Y = HHG.statistic (Some dX) (Some dY).
Proof.
  intros HX HY HdX HdY. unfold HHG.test_statistic. rewrite HX, HY, HdX, HdY. reflexivity.
Qed.

Lemma count_points_ext (n : nat) (P R : nat -> bool) :
  (forall k, k < n -> P k = R k) -> count_points n P = count_points n R.
Proof.
  intros H. unfold count_points. f_equal. f_equal.
  assert (Hl : forall k, k ∈ seq 0 n -> P k = R k)
    by (intros k Hk; apply elem_of_seq in Hk; apply H; lia).
  induction (seq 0 n) as [|k l IH]; [reflexivity|].
  rewrite !filter_cons. rewrite (Hl k) by left.
  rewrite IH by (intros k' Hk'; apply Hl; right; exact Hk').
  destruct (R k); repeat (destruct (decide _) as [?|?]; try congruence).
Qed.

Lemma count_points_split (n : nat) (P R : nat -> bool) :
  (count_points n (fun k => P k && R k) + count_points n (fun k => P k && negb (R k))
   = count_points n P)%Z.
Proof.
  unfold count_points. induction (seq 0 n) as [|k l IH]; [reflexivity|].
  rewrite !filter_cons.
  destruct (P k), (R k); cbn [andb negb];
    repeat (destruct (decide _) as [?|?]; try congruence); cbn [length]; lia.
Qed.

Lemma count_points_neg (n : nat) (P : nat -> bool) :
  (count_points n P + count_points n (fun k => negb (P k)) = Z.of_nat n)%Z.
Proof.
  unfold count_points.
  assert (H : forall l : list nat,
            length (filter (fun k => P k = true) l)
            + length (filter (fun k => negb (P k) = true) l) = length l).
  { induction l as [|k l IH]; [reflexivity|].
    rewrite !filter_cons.
    destruct (P k); cbn [negb];
      repeat (destruct (decide _) as [?|?]; try congruence); cbn [length]; lia. }
  specialize (H (seq 0 n)). rewrite length_seq in H. lia.
Qed.

Lemma count_points_two (n : nat) (P : nat -> bool) (i j : nat) :
  i <> j -> i < n -> j < n -> P i = true -> P j = true -> (2 <= count_points n P)%Z.
Proof.
  intros Hij Hi Hj HPi HPj. unfold count_points.
  assert (Hsub : [i; j] ⊆+ filter (fun k => P k = true) (seq 0 n)).
  { apply NoDup_submseteq.
    - apply NoDup_cons. split; [|apply NoDup_singleton].
      intros Hin. apply list_elem_of_singleton in Hin. contradiction.
    - intros k Hk. apply list_elem_of_filter.
      apply elem_of_cons in Hk as [->|Hk]; [|apply list_elem_of_singleton in Hk; subst k];
        (split; [assumption|apply elem_of_seq; lia]). }
  apply submseteq_length in Hsub. cbn [length] in Hsub. lia.
Qed.

Lemma sum_zero (l : list Q) : Forall (fun x => (x == 0)%Q) l -> (Np.sum l == 0)%Q.
Proof.
  induction 1 as [|x l Hx _ IH]; [reflexivity|].
  cbn [Np.sum foldr]. fold (Np.sum l). rewrite Hx, IH. reflexivity.
Qed.

Lemma hhg_S_nonneg (dX dY : matrix) (n i j : nat) :
  2 <= n -> (0 <= hhg_S dX dY n i j)%Q.
Proof.
  intros Hn. unfold hhg_S.
  destruct (Z.ltb_spec 0 (hhg_denominator dX dY n i j)) as [Hd|_]; [|apply Qle_refl].
  apply Qle_shift_div_l.
  - change 0%Q with (inject_Z 0). rewrite <- Zlt_Qlt. exact Hd.
  - rewrite Qmult_0_l. change 0%Q with (inject_Z 0). rewrite <- Zle_Qle.
    apply Z.mul_nonneg_nonneg; [lia|]. apply Z.pow_even_nonneg. exists 1%Z. reflexivity.
Qed.

Lemma hhg_S_two_samples (dX dY : matrix) (i j : nat) : (hhg_S dX dY 2 i j == 0)%Q.
Proof.
  unfold hhg_S. destruct (0 <? _)%Z; [|reflexivity].
  change (Z.of_nat 2 - 2)%Z with 0%Z. rewrite Z.mul_0_l.
  unfold Qdiv. apply Qmult_0_l.
Qed.

Lemma closer_self (d : matrix) (i j : nat) : closer d i j j = true.
Proof. unfold closer. apply Qle_bool_iff. apply Qle_refl. Qed.

Lemma hhg_margins (dX dY : matrix) (n i j : nat) :
  (t11 dX dY n i j + t12 dX dY n i j = count_points n (closer dX i j) - 2
   /\ t21 dX dY n i j + t22 dX dY n i j = Z.of_nat n - count_points n (closer dX i j)
   /\ t11 dX dY n i j + t21 dX dY n i j = count_points n (closer dY i j) - 2
   /\ t12 dX dY n i j + t22 dX dY n i j = Z.of_nat n - count_points n (closer dY i j))%Z.
Proof.
  unfold t11, t12, t21, t22.
  pose proof (count_points_split n (closer dX i j) (closer dY i j)) as H1.
  pose proof (count_points_split n (fun k => negb (closer dX i j k)) (closer dY i j)) as H2.
  pose proof (count_points_neg n (closer dX i j)) as H3.
  pose proof (count_points_split n (closer dY i j) (closer dX i j)) as H4.
  pose proof (count_points_split n (fun k => negb (closer dY i j k)) (closer dX i j)) as H5.
  pose proof (count_points_neg n (closer dY i j)) as H6.
  cbn beta in H1, H2, H3, H4, H5, H6.
  rewrite (count_points_ext n (fun k => closer dY i j k && closer dX i j k)
             (fun k => closer dX i j k && closer dY i j k)) in H4
    by (intros; apply andb_comm).
  rewrite (count_points_ext n (fun k => closer dY i j k && negb (closer dX i j k))
             (fun k => negb (closer dX i j k) && closer dY i j k)) in H4
    by (intros; apply andb_comm).
  rewrite (count_points_ext n (fun k => negb (closer dY i j k) && closer dX i j k)
             (fun k => closer dX i j k && negb (closer dY i j k))) in H5
    by (intros; apply andb_comm).
  rewrite (count_points_ext n (fun k => negb (closer dY i j k) && negb (closer dX i j k))
             (fun k => negb (closer dX i j k) && negb (closer dY i j k))) in H5
    by (intros; apply andb_comm).
  lia.
Qed.

Lemma hhg_S_three_samples (dX dY : matrix) (i j : nat) :
  i <> j -> i < 3 -> j < 3 ->
  closer dX i j i = true \/ closer dY i j i = true ->
  hhg_S dX dY 3 i j = 0%Q.
Proof.
  intros Hij Hi Hj Hc. unfold hhg_S, hhg_denominator.
  destruct (hhg_margins dX dY 3 i j) as (E1 & E2 & E3 & E4).
  rewrite E1, E2, E3, E4.
  pose proof (count_points_bounds 3 (closer dX i j)) as BX.
  pose proof (count_points_bounds 3 (closer dY i j)) as BY.
  assert (Hz : ((count_points 3 (closer dX i j) - 2)
                * (Z.of_nat 3 - count_points 3 (closer dX i j))
                * (count_points 3 (closer dY i j) - 2)
                * (Z.of_nat 3 - count_points 3 (closer dY i j)) = 0)%Z).
  { destruct Hc as [Hc|Hc].
    - pose proof (count_points_two 3 (closer dX i j) i j Hij Hi Hj Hc (closer_self dX i j)).
      assert (Hc2 : (count_points 3 (closer dX i j) = 2 \/ count_points 3 (closer dX i j) = 3)%Z)
        by lia.
      destruct Hc2 as [-> | ->]; cbn; lia.
    - pose proof (count_points_two 3 (closer dY i j) i j Hij Hi Hj Hc (closer_self dY i j)).
      assert (Hc2 : (count_points 3 (closer dY i j) = 2 \/ count_points 3 (closer dY i j) = 3)%Z)
        by lia.
      destruct Hc2 as [-> | ->]; cbn; lia. }
  rewrite Hz. reflexivity.
Qed.

(** X18.  The range of the HHG statistic (lines 55 to 71), on the distance
    matrices of [n] observations each: it is never negative; it is zero
    for one or two observations, the factor [n - 2] of line 69 being zero
    when there is a pair at all; and it is zero for three observations as
    soon as, in one of the matrices, no distance is below the diagonal
    entry of its row, as in every distance matrix, because one margin of
    each 2 by 2 table is then empty and line 68 leaves [S] at zero. *)
Theorem hhg_statistic_range (self : HHG.t) (X Y dX dY : matrix) (n : nat) :
  is_raw X = true -> is_raw Y = true ->
  HHG.compute_distance_matrix self X = Ok dX ->
  HHG.compute_distance_matrix self Y = Ok dY ->
  rect n n dX -> rect n n dY ->
  exists v,
    HHG.test_statistic self X Y = Ok (v, ∅)
    /\ (0 <= v)%Q
    /\ (n <= 2 -> (v == 0)%Q)
    /\ (n = 3 ->
        (forall i j, i < 3 -> j < 3 -> (entry dX i i <= entry dX i j)%Q)
        \/ (forall i j, i < 3 -> j < 3 -> (entry dY i i <= entry dY i j)%Q) ->
        (v == 0)%Q).
Proof.
  intros HrX HrY HdX HdY HX HY.
  destruct (hhg_loops_sum dX dY n HX HY) as (v & Hv & Ev).
  exists v. split; [rewrite (hhg_test_statistic_raw self X Y dX dY); assumption|].
  assert (Hterms : forall (P : Q -> Prop),
            Proper (Qeq ==> iff) P -> P 0%Q ->
            (forall a b, P a -> P b -> P (a + b)%Q) ->
            (forall i j, i < n -> j < n -> i <> j -> P (hhg_S dX dY n i j)) ->
            P (hhg_sum dX dY n)).
  { intros P HP P0 Hadd Hall. unfold hhg_sum.
    assert (Hsum : forall (f : nat -> Q) (l : list nat),
              (forall x, x ∈ l -> P (f x)) -> P (Np.sum (map f l))).
    { intros f l. induction l as [|x l IH]; intros Hl; [exact P0|].
      cbn [map Np.sum foldr]. fold (Np.sum (map f l)).
      apply Hadd; [apply Hl; left|apply IH; intros y Hy; apply Hl; right; exact Hy]. }
    apply Hsum. intros i Hi. apply elem_of_seq in Hi.
    apply Hsum. intros j Hj. apply list_elem_of_filter in Hj as [Hne Hj].
    apply elem_of_seq in Hj. apply Hall; lia. }
  split; [|split].
  - rewrite Ev. apply (Hterms (fun q => (0 <= q)%Q)).
    + intros a b Hab. rewrite Hab. reflexivity.
    + apply Qle_refl.
    + intros a b Ha Hb. lra.
    + intros i j Hi Hj Hij. apply hhg_S_nonneg. lia.
  - intros Hn. rewrite Ev. apply (Hterms (fun q => (q == 0)%Q)).
    + intros a b Hab. rewrite Hab. reflexivity.
    + reflexivity.
    + intros a b Ha Hb. rewrite Ha, Hb. reflexivity.
    + intros i j Hi Hj Hij. assert (n = 2) as -> by lia. apply hhg_S_two_samples.
  - intros -> Hmin. rewrite Ev. apply (Hterms (fun q => (q == 0)%Q)).
    + intros a b Hab. rewrite Hab. reflexivity.
    + reflexivity.
    + intros a b Ha Hb. rewrite Ha, Hb. reflexivity.
    + intros i j Hi Hj Hij. rewrite hhg_S_three_samples; [reflexivity|assumption..|].
      destruct Hmin as [Hmin|Hmin]; [left|right]; apply Qle_bool_iff, Hmin; assumption.
Qed.

Lemma hhg_statistic_range_witness :
  exists v,
    HHG.test_statistic Examples.hhg [[0]; [1]; [3]]%Q [[0]; [2]; [1]]%Q = Ok (v, ∅)
    /\ (0 <= v)%Q
    /\ (3 <= 2 -> (v == 0)%Q)
    /\ (3 = 3 ->
        (forall i j, i < 3 -> j < 3 ->
           (entry [[0; 1; 3]; [1; 0; 2]; [3; 2; 0]] i i
            <= entry [[0; 1; 3]; [1; 0; 2]; [3; 2; 0]] i j)%Q)
        \/ (forall i j, i < 3 -> j < 3 ->
              (entry [[0; 2; 1]; [2; 0; 1]; [1; 1; 0]] i i
               <= entry [[0; 2; 1]; [2; 0; 1]; [1; 1; 0]] i j)%Q) ->
        (v == 0)%Q).
Proof.
  apply (hhg_statistic_range Examples.hhg [[0]; [1]; [3]]%Q [[0]; [2]; [1]]%Q
           [[0; 1; 3]; [1; 0; 2]; [3; 2; 0]]%Q [[0; 2; 1]; [2; 0; 1]; [1; 1; 0]]%Q 3).
  - by_evaluation.
  - by_evaluation.
  - by_evaluation.
  - by_evaluation.
  - split; [reflexivity|]. repeat constructor.
  - split; [reflexivity|]. repeat constructor.
Defined.

Lemma hhg_S_swap (dX dY : matrix) (n i j : nat) : hhg_S dY dX n i j = hhg_S dX dY n i j.
Proof.
  assert (E11 : t11 dY dX n i j = t11 dX dY n i j).
  { unfold t11. f_equal. apply count_points_ext. intros; apply andb_comm. }
  assert (E12 : t12 dY dX n i j = t21 dX dY n i j).
  { unfold t12, t21. apply count_points_ext. intros; apply andb_comm. }
  assert (E21 : t21 dY dX n i j = t12 dX dY n i j).
  { unfold t12, t21. apply count_points_ext. intros; apply andb_comm. }
  assert (E22 : t22 dY dX n i j = t22 dX dY n i j).
  { unfold t22. apply count_points_ext. intros; apply andb_comm. }
  unfold hhg_S, hhg_denominator. rewrite E11, E12, E21, E22.
  replace ((t11 dX dY n i j + t21 dX dY n i j) * (t12 dX dY n i j + t22 dX dY n i j)
           * (t11 dX dY n i j + t12 dX dY n i j) * (t21 dX dY n i j + t22 dX dY n i j))%Z
    with ((t11 dX dY n i j + t12 dX dY n i j) * (t21 dX dY n i j + t22 dX dY n i j)
          * (t11 dX dY n i j + t21 dX dY n i j) * (t12 dX dY n i j + t22 dX dY n i j))%Z
    by ring.
  replace (t21 dX dY n i j * t12 dX dY n i j - t11 dX dY n i j * t22 dX dY n i j)%Z
    with (t12 dX dY n i j * t21 dX dY n i j - t11 dX dY n i j * t22 dX dY n i j)%Z
    by ring.
  reflexivity.
Qed.

(** X19.  The HHG statistic treats the two samples alike: the table of a
    pair [(i, j)] for [(Y, X)] is that for [(X, Y)] with its two
    off-diagonal cells exchanged, which changes neither the denominator
    of line 67 nor the square of line 70, so that [test_statistic(Y, X)]
    returns what [test_statistic(X, Y)] returns. *)
Theorem hhg_statistic_symmetric (self : HHG.t) (X Y dX dY : matrix) (n : nat) :
  is_raw X = true -> is_raw Y = true ->
  HHG.compute_distance_matrix self X = Ok dX ->
  HHG.compute_distance_matrix self Y = Ok dY ->
  rect n n dX -> rect n n dY ->
  exists v v',
    HHG.test_statistic self X Y = Ok (v, ∅)
    /\ HHG.test_statistic self Y X = Ok (v', ∅)
    /\ (v' == v)%Q.
Proof.
  intros HrX HrY HdX HdY HX HY.
  destruct (hhg_loops_sum dX dY n HX HY) as (v & Hv & Ev).
  destruct (hhg_loops_sum dY dX n HY HX) as (v' & Hv' & Ev').
  exists v, v'.
  split; [rewrite (hhg_test_statistic_raw self X Y dX dY); assumption|].
  split; [rewrite (hhg_test_statistic_raw self Y X dY dX); assumption|].
  rewrite Ev, Ev'. unfold hhg_sum.
  apply sum_map_Qeq. intros i _. apply sum_map_Qeq. intros j _.
  rewrite hhg_S_swap. reflexivity.
Qed.

Lemma hhg_statistic_symmetric_witness :
  exists v v',
    HHG.test_statistic Examples.hhg [[0]; [1]; [3]; [7]]%Q [[0]; [2]; [1]; [5]]%Q = Ok (v, ∅)
    /\ HHG.test_statistic Examples.hhg [[0]; [2]; [1]; [5]]%Q [[0]; [1]; [3]; [7]]%Q
       = Ok (v', ∅)
    /\ (v' == v)%Q.
Proof.
  apply (hhg_statistic_symmetric Examples.hhg [[0]; [1]; [3]; [7]]%Q [[0]; [2]; [1]; [5]]%Q
           [[0; 1; 3; 7]; [1; 0; 2; 6]; [3; 2; 0; 4]; [7; 6; 4; 0]]%Q
           [[0; 2; 1; 5]; [2; 0; 1; 3]; [1; 1; 0; 4]; [5; 3; 4; 0]]%Q 4).
  - by_evaluation.
  - by_evaluation.
  - by_evaluation.
  - by_evaluation.
  - split; [reflexivity|]. repeat constructor.
  - split; [reflexivity|]. repeat constructor.
Defined.

(** *** Inputs the loops of [hhg.py] are not written for *)

Lemma hhg_first_pair (dX : matrix) (dYo : option matrix) (e : exn) :
  2 <= nrows dX ->
  HHG.body (Some dX) dYo (nrows dX) 0 (zeros2 (nrows dX) (nrows dX)) 1 = Raise e ->
  HHG.statistic (Some dX) dYo = Raise e.
Proof.
  intros Hn Hb. unfold HHG.statistic. cbn [HHG.local mbind result_bind].
  destruct (nrows dX) as [|[|k]]; [lia|lia|].
  cbn [seq foldM].
  assert (H0 : forall S0, HHG.body (Some dX) dYo (S (S k)) 0 S0 0 = Ok S0).
  { intros S0. unfold HHG.body. destruct (decide (0 ≠ 0)); [contradiction|reflexivity]. }
  rewrite H0. cbn [mbind result_bind]. rewrite Hb. reflexivity.
Qed.

Lemma hhg_no_pair (dX : matrix) (dYo : option matrix) :
  nrows dX <= 1 ->
  exists v, HHG.statistic (Some dX) dYo = Ok (v, ∅) /\ (v == 0)%Q.
Proof.
  intros Hn. unfold HHG.statistic. cbn [HHG.local mbind result_bind].
  destruct (nrows dX) as [|[|k]]; [| |lia].
  - cbn. eexists. split; [reflexivity|reflexivity].
  - cbn [seq foldM]. unfold HHG.body.
    destruct (decide (0 ≠ 0)); [contradiction|]. cbn.
    eexists. split; [reflexivity|reflexivity].
Qed.

Lemma rect_first_row (n : nat) (d : matrix) :
  rect n n d -> 2 <= n ->
  exists x0 x1 row rest, d = (x0 :: x1 :: row) :: rest /\ length (x0 :: x1 :: row) = n.
Proof.
  intros [Hl Hrows] Hn. destruct d as [|r rest]; [simpl in Hl; lia|].
  inversion Hrows as [|? ? Hr _]; subst.
  destruct r as [|x0 [|x1 row]]; [simpl in *; lia|simpl in *; lia|].
  exists x0, x1, row, rest. split; [reflexivity|exact Hr].
Qed.

(** X20.  One raw sample and one distance matrix.  Lines 50 to 53 bind
    each of [dist_mtx_X] and [dist_mtx_Y] only for a raw input.  With X
    raw and Y a distance matrix, the unbound [dist_mtx_Y] is first read at
    the first pair of the loops (line 62): from two observations on the
    call raises [UnboundLocalError] for that name, and with at most one
    observation there is no pair and it returns zero.  With X a distance
    matrix the name reported is [dist_mtx_X] (line 55), once the distances
    of a raw Y have been computed. *)
Theorem hhg_mixed_input (self : HHG.t) (X Y dX : matrix) (n : nat) :
  is_raw X = true -> is_raw Y = false ->
  HHG.compute_distance_matrix self X = Ok dX ->
  rect n n dX ->
  (2 <= n -> HHG.test_statistic self X Y = Raise (UnboundLocalError "dist_mtx_Y"))
  /\ (n <= 1 -> exists v, HHG.test_statistic self X Y = Ok (v, ∅) /\ (v == 0)%Q)
  /\ HHG.test_statistic self Y X = Raise (UnboundLocalError "dist_mtx_X").
Proof.
  intros HrX HrY HdX HX.
  assert (Hts : HHG.test_statistic self X Y = HHG.statistic (Some dX) None).
  { unfold HHG.test_statistic. rewrite HrX, HrY, HdX. reflexivity. }
  assert (Hn : nrows dX = n) by apply HX.
  split; [|split].
  - intros H2. rewrite Hts. apply hhg_first_pair; [lia|].
    destruct (rect_first_row n dX HX H2) as (x0 & x1 & row & rest & -> & _).
    unfold HHG.body. destruct (decide (0 ≠ 1)) as [_|]; [|lia]. reflexivity.
  - intros H1. rewrite Hts. apply hhg_no_pair. lia.
  - unfold HHG.test_statistic. rewrite HrY, HrX, HdX. reflexivity.
Qed.

Lemma hhg_mixed_input_witness :
  let X := [[0]; [1]; [3]; [7]]%Q in
  let Y := [[0; 2; 1; 5]; [2; 0; 1; 3]; [1; 1; 0; 4]; [5; 3; 4; 0]]%Q in
  (2 <= 4 -> HHG.test_statistic Examples.hhg X Y = Raise (UnboundLocalError "dist_mtx_Y"))
  /\ (4 <= 1 -> exists v, HHG.test_statistic Examples.hhg X Y = Ok (v, ∅) /\ (v == 0)%Q)
  /\ HHG.test_statistic Examples.hhg Y X = Raise (UnboundLocalError "dist_mtx_X").
Proof.
  intros X Y.
  apply (hhg_mixed_input Examples.hhg X Y
           [[0; 1; 3; 7]; [1; 0; 2; 6]; [3; 2; 0; 4]; [7; 6; 4; 0]]%Q 4).
  - by_evaluation.
  - by_evaluation.
  - by_evaluation.
  - split; [reflexivity|]. repeat constructor.
Defined.

Lemma mul_unequal (a0 a1 b0 b1 : Z) (a b : list Z) :
  length a <> length b ->
  mul (a0 :: a1 :: a) (b0 :: b1 :: b)
  = Raise (ValueError "operands could not be broadcast together").
Proof.
  intros H. unfold mul. cbn [length].
  destruct (decide _) as [He|_]; [lia|reflexivity].
Qed.

(** X21.  Samples of different sizes.  [HHG.test_statistic] has no check
    of the two sample counts, and the loops run over the rows of the
    distances of X.  With a single observation in X it returns zero
    whatever Y holds; from two observations in X on, the first pair
    fails: with [IndexError] on line 62 when Y has at most one
    observation, and with the [ValueError] of a product of arrays of
    different lengths on line 63 otherwise. *)
Theorem hhg_unequal_sample_sizes (self : HHG.t) (X Y dX dY : matrix) (n m : nat) :
  is_raw X = true -> is_raw Y = true ->
  HHG.compute_distance_matrix self X = Ok dX ->
  HHG.compute_distance_matrix self Y = Ok dY ->
  rect n n dX -> rect m m dY -> n <> m ->
  (n <= 1 -> exists v, HHG.test_statistic self X Y = Ok (v, ∅) /\ (v == 0)%Q)
  /\ (2 <= n -> m <= 1 -> HHG.test_statistic self X Y = Raise IndexError)
  /\ (2 <= n -> 2 <= m ->
      HHG.test_statistic self X Y
      = Raise (ValueError "operands could not be broadcast together")).
Proof.
  intros HrX HrY HdX HdY HX HY Hnm.
  rewrite (hhg_test_statistic_raw self X Y dX dY) by assumption.
  assert (Hn : nrows dX = n) by apply HX.
  split; [|split].
  - intros H1. apply hhg_no_pair. lia.
  - intros H2 Hm. apply hhg_first_pair; [lia|].
    destruct (rect_first_row n dX HX H2) as (x0 & x1 & row & rest & -> & _).
    unfold HHG.body. destruct (decide (0 ≠ 1)) as [_|]; [|lia].
    destruct HY as [HlY HrowsY].
    destruct dY as [|rowY restY]; [reflexivity|].
    inversion HrowsY as [|? ? Hr _]; subst.
    destruct rowY as [|y0 [|y1 rowY]]; [reflexivity|reflexivity|simpl in Hr, Hm; lia].
  - intros H2 Hm. apply hhg_first_pair; [lia|].
    destruct (rect_first_row n dX HX H2) as (x0 & x1 & row & rest & -> & HlX).
    destruct (rect_first_row m dY HY Hm) as (y0 & y1 & rowY & restY & -> & HlY).
    unfold HHG.body. destruct (decide (0 ≠ 1)) as [_|]; [|lia].
    cbn [HHG.local getitem lookup list_lookup mbind result_bind map].
    cbn [length] in HlX, HlY.
    rewrite mul_unequal by (rewrite !length_map; lia). reflexivity.
Qed.

Lemma hhg_unequal_sample_sizes_witness :
  let X := [[0]; [1]; [3]]%Q in
  let Y := [[0]; [2]; [1]; [5]]%Q in
  (3 <= 1 -> exists v, HHG.test_statistic Examples.hhg X Y = Ok (v, ∅) /\ (v == 0)%Q)
  /\ (2 <= 3 -> 4 <= 1 -> HHG.test_statistic Examples.hhg X Y = Raise IndexError)
  /\ (2 <= 3 -> 2 <= 4 ->
      HHG.test_statistic Examples.hhg X Y
      = Raise (ValueError "operands could not be broadcast together")).
Proof.
  intros X Y.
  apply (hhg_unequal_sample_sizes Examples.hhg X Y
           [[0; 1; 3]; [1; 0; 2]; [3; 2; 0]]%Q
           [[0; 2; 1; 5]; [2; 0; 1; 3]; [1; 1; 0; 4]; [5; 3; 4; 0]]%Q 3 4).
  - by_evaluation.
  - by_evaluation.
  - by_evaluation.
  - by_evaluation.
  - split; [reflexivity|]. repeat constructor.
  - split; [reflexivity|]. repeat constructor.
  - lia.
Defined.
